(** * RAISE scene ingestion: a shallow embedding of
      [gs3dgs/scene/dataset_readers.py] and [gs2dgs/utils/camera_utils.py]

    Conventions of the embedding.
    - numpy floating-point arrays (poses, points, fields of view) are
      idealised as real numbers ([R]); their rounding (float64, the float32
      cast of the view matrix) is outside the model.  The scalar arithmetic
      of [loadCam], whose results are truncated or rounded to pixel counts,
      is done in Python floats, modelled as IEEE 754 binary64 ([Float64]).
      Pixel sizes and identifiers are [Z].
    - Python exceptions are values of [PyError]; a function that can raise
      returns a [Result].
    - The file system, the parsed contents of the files and the state of the
      random generator form a [World]; only [storePly] and the random draws
      change it.
    - Progress output of [dataset_readers.py] ([print], [sys.stdout.write]) is
      not modelled; the output of [camera_utils.loadCam] is. *)

From Stdlib Require Import Reals Lra Psatz RNsatz ZArith List String Ascii Bool Lia.
From Stdlib Require Import Sorted Permutation SpecFloat Zpower.
Import ListNotations.

Set Implicit Arguments.

(* ================================================================= *)
(** ** Python values, exceptions and calls *)

Module Py.

Inductive PyError : Type :=
| TypeError
| KeyError
| IndexError
| ValueError
| ZeroDivisionError
| OverflowError
| AssertionError (msg : string)
| FileNotFoundError (msg : string)
| LinAlgError
| DecodeError.

Inductive Result (A : Type) : Type :=
| Ok (a : A)
| Err (e : PyError).
Arguments Ok {A} a.
Arguments Err {A} e.

Definition bind {A B} (m : Result A) (k : A -> Result B) : Result B :=
  match m with
  | Ok a => k a
  | Err e => Err e
  end.

Definition is_ok {A} (m : Result A) : bool :=
  match m with Ok _ => true | Err _ => false end.

(** [try: a  except: b] with a bare [except]. *)
Definition try_except {A} (a b : Result A) : Result A :=
  match a with
  | Ok x => Ok x
  | Err _ => b
  end.

(** A [for] loop that appends one record per element and stops at the
    first exception; [idx] is the counter of [enumerate]. *)
Fixpoint for_enumerate {A B} (body : Z -> A -> Result B) (idx : Z) (l : list A)
  : Result (list B) :=
  match l with
  | [] => Ok []
  | x :: rest =>
      bind (body idx x) (fun b =>
      bind (for_enumerate body (idx + 1) rest) (fun bs => Ok (b :: bs)))
  end.

(** Dynamically typed argument values of the calls this development binds. *)
Inductive pyval : Type :=
| VNone
| VBool (b : bool)
| VStr (s : string).

(** A parameter of a [def]: its name and its default, when it has one. *)
Definition param : Type := (string * option pyval)%type.

Fixpoint assoc {V} (k : string) (l : list (string * V)) : option V :=
  match l with
  | [] => None
  | (k', v) :: rest => if String.eqb k k' then Some v else assoc k rest
  end.

(** Positional arguments fill the parameters from the left. *)
Fixpoint bind_positional (ps : list param) (args : list pyval)
  : Result (list (string * pyval) * list param) :=
  match args, ps with
  | [], _ => Ok ([], ps)
  | _ :: _, [] => Err TypeError
  | a :: args', (n, _) :: ps' =>
      bind (bind_positional ps' args') (fun r => Ok ((n, a) :: fst r, snd r))
  end.

(** Every keyword must name a parameter not yet filled. *)
Fixpoint check_keywords (rest : list param) (kw : list (string * pyval)) : bool :=
  match kw with
  | [] => true
  | (k, _) :: kw' =>
      match assoc k rest with
      | Some _ => check_keywords rest kw'
      | None => false
      end
  end.

(** The remaining parameters take their keyword, else their default; a
    parameter with neither is a missing required argument. *)
Fixpoint bind_rest (rest : list param) (kw : list (string * pyval))
  : Result (list (string * pyval)) :=
  match rest with
  | [] => Ok []
  | (n, d) :: rest' =>
      bind (match assoc n kw, d with
            | Some v, _ => Ok v
            | None, Some v => Ok v
            | None, None => Err TypeError
            end) (fun v =>
      bind (bind_rest rest' kw) (fun r => Ok ((n, v) :: r)))
  end.

(** Python's binding of a call with positional arguments [args] and
    keyword arguments [kw] to the signature [ps]. *)
Definition bind_call (ps : list param) (args : list pyval) (kw : list (string * pyval))
  : Result (list (string * pyval)) :=
  bind (bind_positional ps args) (fun r =>
  if check_keywords (snd r) kw
  then bind (bind_rest (snd r) kw) (fun r' => Ok (fst r ++ r'))
  else Err TypeError).

Definition get_arg (n : string) (b : list (string * pyval)) : Result pyval :=
  match assoc n b with
  | Some v => Ok v
  | None => Err TypeError
  end.

(** A value used where the callee needs a path ([os.path.join] raises
    [TypeError] on anything else). *)
Definition as_str (v : pyval) : Result string :=
  match v with VStr s => Ok s | _ => Err TypeError end.

Definition as_opt_str (v : pyval) : Result (option string) :=
  match v with
  | VNone => Ok None
  | VStr s => Ok (Some s)
  | VBool _ => Err TypeError
  end.

(** Truth value of an argument tested by [if]. *)
Definition truthy (v : pyval) : bool :=
  match v with
  | VNone => false
  | VBool b => b
  | VStr s => negb (String.eqb s "")
  end.

Definition of_opt_str (o : option string) : pyval :=
  match o with None => VNone | Some s => VStr s end.

End Py.
Export Py.

Declare Scope py_scope.
Delimit Scope py_scope with py.
Notation "x <- m ;; k" := (bind m (fun x => k))
  (at level 61, m at next level, right associativity) : py_scope.
Open Scope py_scope.

(* ================================================================= *)
(** ** Paths and strings ([os.path], [str], [pathlib]) *)

Module OsPath.
Open Scope string_scope.

Definition slash : ascii := "/"%char.
Definition dot : ascii := "."%char.

(** [s.rsplit(c, 1)] when [c] occurs in [s]: the parts before and after its
    last occurrence; [None] when [c] does not occur (the result is [[s]]). *)
Fixpoint rsplit1 (c : ascii) (s : string) : option (string * string) :=
  match s with
  | EmptyString => None
  | String a rest =>
      match rsplit1 c rest with
      | Some (h, t) => Some (String a h, t)
      | None => if Ascii.eqb a c then Some (EmptyString, rest) else None
      end
  end.

(** [s.rsplit(c, 1)[0]] *)
Definition rsplit1_head (c : ascii) (s : string) : string :=
  match rsplit1 c s with
  | Some (h, _) => h
  | None => s
  end.

(** [s.rsplit(c, 1)[1]] *)
Definition rsplit1_tail (c : ascii) (s : string) : Result string :=
  match rsplit1 c s with
  | Some (_, t) => Ok t
  | None => Err IndexError
  end.

(** [s.split(c)[0]] *)
Fixpoint split_head (c : ascii) (s : string) : string :=
  match s with
  | EmptyString => EmptyString
  | String a rest => if Ascii.eqb a c then EmptyString else String a (split_head c rest)
  end.

Fixpoint ends_with (c : ascii) (s : string) : bool :=
  match s with
  | EmptyString => false
  | String a EmptyString => Ascii.eqb a c
  | String _ rest => ends_with c rest
  end.

Definition starts_with (c : ascii) (s : string) : bool :=
  match s with
  | String a _ => Ascii.eqb a c
  | EmptyString => false
  end.

(** [os.path.join(a, b)] (POSIX) *)
Definition join (a b : string) : string :=
  if starts_with slash b then b
  else if (String.eqb a "" || ends_with slash a)%bool then a ++ b
  else a ++ "/" ++ b.

(** [os.path.basename(p)] *)
Definition basename (p : string) : string :=
  match rsplit1 slash p with
  | Some (_, t) => t
  | None => p
  end.

(** [Path(p).stem], for a path that does not end in a slash: the final
    component without its last suffix; a leading or a trailing dot is no
    suffix separator. *)
Definition stem (p : string) : string :=
  let name := basename p in
  match rsplit1 dot name with
  | Some (h, t) =>
      if (String.eqb h "" || String.eqb t "")%bool then name else h
  | None => name
  end.

(** [name in names] for a list of strings *)
Definition str_in (name : string) (names : list string) : bool :=
  existsb (String.eqb name) names.

End OsPath.

(* ================================================================= *)
(** ** Arrays of fixed shape ([numpy]) over the reals *)

Module LinAlg.
Open Scope R_scope.

Definition vec3 : Type := (R * R * R)%type.
Definition vec4 : Type := (R * R * R * R)%type.
(** Matrices are stored by rows. *)
Definition mat3 : Type := (vec3 * vec3 * vec3)%type.
Definition mat4 : Type := (vec4 * vec4 * vec4 * vec4)%type.

Definition get3 {A} (v : A * A * A) (i : nat) : A :=
  let '(a, b, c) := v in
  match i with O => a | S O => b | _ => c end.

Definition get4 {A} (v : A * A * A * A) (i : nat) : A :=
  let '(a, b, c, d) := v in
  match i with O => a | S O => b | S (S O) => c | _ => d end.

Definition mk3 {A} (f : nat -> A) : A * A * A := (f 0%nat, f 1%nat, f 2%nat).
Definition mk4 {A} (f : nat -> A) : A * A * A * A :=
  (f 0%nat, f 1%nat, f 2%nat, f 3%nat).

(** [M[i, j]] *)
Definition at3 (M : mat3) (i j : nat) : R := get3 (get3 M i) j.
Definition at4 (M : mat4) (i j : nat) : R := get4 (get4 M i) j.

Definition build3 (f : nat -> nat -> R) : mat3 := mk3 (fun i => mk3 (f i)).
Definition build4 (f : nat -> nat -> R) : mat4 := mk4 (fun i => mk4 (f i)).

Definition I3 : mat3 := build3 (fun i j => if Nat.eqb i j then 1 else 0).
Definition I4 : mat4 := build4 (fun i j => if Nat.eqb i j then 1 else 0).

(** [np.transpose(M)], [M.transpose()] *)
Definition transpose (M : mat3) : mat3 := build3 (fun i j => at3 M j i).

(** [A @ B] *)
Definition mmul3 (A B : mat3) : mat3 :=
  build3 (fun i j => at3 A i 0 * at3 B 0 j + at3 A i 1 * at3 B 1 j + at3 A i 2 * at3 B 2 j).
Definition mmul4 (A B : mat4) : mat4 :=
  build4 (fun i j => at4 A i 0 * at4 B 0 j + at4 A i 1 * at4 B 1 j
                     + at4 A i 2 * at4 B 2 j + at4 A i 3 * at4 B 3 j).

(** [M @ v] *)
Definition mvmul3 (M : mat3) (v : vec3) : vec3 :=
  mk3 (fun i => at3 M i 0 * get3 v 0 + at3 M i 1 * get3 v 1 + at3 M i 2 * get3 v 2).

Definition vadd (u v : vec3) : vec3 := mk3 (fun i => get3 u i + get3 v i).
Definition vsub (u v : vec3) : vec3 := mk3 (fun i => get3 u i - get3 v i).
Definition vneg (u : vec3) : vec3 := mk3 (fun i => - get3 u i).
Definition vdiv (u : vec3) (k : R) : vec3 := mk3 (fun i => get3 u i / k).
Definition vzero : vec3 := (0, 0, 0).

(** [np.linalg.norm(v)] *)
Definition norm (v : vec3) : R :=
  sqrt (get3 v 0 * get3 v 0 + get3 v 1 * get3 v 1 + get3 v 2 * get3 v 2).

(** [M[:3, :3]] and [M[:3, 3]] *)
Definition block33 (M : mat4) : mat3 := build3 (fun i j => at4 M i j).
Definition col3 (M : mat4) : vec3 := mk3 (fun i => at4 M i 3).

(** The homogeneous matrix with rotation block [A] and translation column
    [t]: [M = zeros((4,4)); M[:3,:3] = A; M[:3,3] = t; M[3,3] = 1.0]. *)
Definition homogeneous (A : mat3) (t : vec3) : mat4 :=
  build4 (fun i j =>
    if (i <? 3)%nat then (if (j <? 3)%nat then at3 A i j else get3 t i)
    else (if (j <? 3)%nat then 0 else 1)).

(** Determinant and inverse by cofactors: what [np.linalg.inv] computes in
    exact arithmetic, with [LinAlgError] on a singular matrix. *)
Definition skip (k i : nat) : nat := if (i <? k)%nat then i else S i.

Definition det3f (A : nat -> nat -> R) : R :=
  A 0%nat 0%nat * (A 1%nat 1%nat * A 2%nat 2%nat - A 1%nat 2%nat * A 2%nat 1%nat)
  - A 0%nat 1%nat * (A 1%nat 0%nat * A 2%nat 2%nat - A 1%nat 2%nat * A 2%nat 0%nat)
  + A 0%nat 2%nat * (A 1%nat 0%nat * A 2%nat 1%nat - A 1%nat 1%nat * A 2%nat 0%nat).

Definition det3 (M : mat3) : R := det3f (at3 M).

Definition minor4 (M : mat4) (r c : nat) : R :=
  det3f (fun i j => at4 M (skip r i) (skip c j)).

Definition cofactor4 (M : mat4) (r c : nat) : R :=
  (if Nat.even (r + c) then 1 else -1) * minor4 M r c.

Definition det4 (M : mat4) : R :=
  at4 M 0 0 * cofactor4 M 0 0 + at4 M 0 1 * cofactor4 M 0 1
  + at4 M 0 2 * cofactor4 M 0 2 + at4 M 0 3 * cofactor4 M 0 3.

Definition adjugate4 (M : mat4) : mat4 := build4 (fun i j => cofactor4 M j i).

Definition inv (M : mat4) : Result mat4 :=
  if Req_dec_T (det4 M) 0 then Err LinAlgError
  else Ok (build4 (fun i j => at4 (adjugate4 M) i j / det4 M)).

(** Orthonormal: [M . M^T = I]. *)
Definition orthonormal (M : mat3) : Prop := mmul3 M (transpose M) = I3.

End LinAlg.
Export LinAlg.

(* ================================================================= *)
(** ** Collaborators outside the two source files *)

(** Functions the source imports from modules that are not part of the
    embedded files ([colmap_loader], [graphics_utils], [sh_utils], [numpy]'s
    casts and random generator).  The readers are parametrised by them. *)
Class Externals : Type := {
  (** [colmap_loader.qvec2rotmat] *)
  qvec2rotmat : vec4 -> mat3;
  (** [graphics_utils.getWorld2View2(R, t)] with its default recentring *)
  getWorld2View2 : mat3 -> vec3 -> mat4;
  (** [graphics_utils.focal2fov(focal, pixels)] *)
  focal2fov : R -> Z -> R;
  (** [graphics_utils.fov2focal(fov, pixels)] *)
  fov2focal : R -> Z -> R;
  (** [sh_utils.SH2RGB], on one row *)
  SH2RGB : vec3 -> vec3;
  (** the cast to a 32-bit float ([dtype 'f4']) *)
  f4 : R -> R;
  (** the cast to an unsigned byte ([dtype 'u1']) *)
  u1 : R -> Z;
  (** [np.random.random((n, 3))]: the rows drawn when the generator has
      already served [k] draws *)
  np_random : N -> Z -> list vec3
}.

(* ================================================================= *)
(** ** The world: files and the random generator *)

Module Fs.
Open Scope string_scope.

(** An extrinsic entry of the reconstruction ([colmap_loader.Image]). *)
Record ColmapImage : Type := {
  im_id : Z;
  qvec : vec4;
  tvec : vec3;
  camera_id : Z;
  name : string
}.

(** An intrinsics entry of the reconstruction ([colmap_loader.Camera]). *)
Record ColmapCamera : Type := {
  id : Z;
  model : string;
  cam_width : Z;
  cam_height : Z;
  params : list R
}.

(** One frame of a transforms manifest. *)
Record Frame : Type := {
  file_path : string;
  transform_matrix : mat4
}.

(** [json.load] of a transforms manifest. *)
Record Manifest : Type := {
  camera_angle_x : R;
  frames : list Frame
}.

(** One vertex of the point-cloud file: [x,y,z,nx,ny,nz,red,green,blue]. *)
Record PlyVertex : Type := {
  v_pos : vec3;
  v_normal : vec3;
  v_rgb : Z * Z * Z
}.

(** What a path holds, as the parsers of the source see it. *)
Inductive File : Type :=
| FDir
| FImage (size : Z * Z)
| FJson (contents : Manifest)
| FYaml (doc : list (string * list string))
| FPly (vertices : list PlyVertex)
| FImagesBin (d : list (Z * ColmapImage))
| FImagesTxt (d : list (Z * ColmapImage))
| FCamerasBin (d : list (Z * ColmapCamera))
| FCamerasTxt (d : list (Z * ColmapCamera))
| FPoints3DBin (xyz : list vec3) (rgb : list (Byte.byte * Byte.byte * Byte.byte))
| FPoints3DTxt (xyz : list vec3) (rgb : list (Byte.byte * Byte.byte * Byte.byte))
| FOther.

Record World : Type := {
  fs : string -> option File;
  rng : N
}.

(** [os.path.exists(p)] *)
Definition path_exists (w : World) (p : string) : bool :=
  match fs w p with Some _ => true | None => false end.

Definition write_file (w : World) (p : string) (f : File) : World :=
  {| fs := fun q => if String.eqb q p then Some f else fs w q;
     rng := rng w |}.

(** Opening a file for reading and parsing it with [parse]. *)
Definition read_with {A} (parse : File -> option A) (w : World) (p : string)
  : Result A :=
  match fs w p with
  | None => Err (FileNotFoundError p)
  | Some f =>
      match parse f with
      | Some a => Ok a
      | None => Err DecodeError
      end
  end.

Definition read_extrinsics_binary : World -> string -> Result (list (Z * ColmapImage)) :=
  read_with (fun f => match f with FImagesBin d => Some d | _ => None end).
Definition read_extrinsics_text : World -> string -> Result (list (Z * ColmapImage)) :=
  read_with (fun f => match f with FImagesTxt d => Some d | _ => None end).
Definition read_intrinsics_binary : World -> string -> Result (list (Z * ColmapCamera)) :=
  read_with (fun f => match f with FCamerasBin d => Some d | _ => None end).
Definition read_intrinsics_text : World -> string -> Result (list (Z * ColmapCamera)) :=
  read_with (fun f => match f with FCamerasTxt d => Some d | _ => None end).
(** The colour of a sparse point is held in three unsigned bytes; the
    readers return it as numbers. *)
Definition byte_value (b : Byte.byte) : R := IZR (Z.of_N (Byte.to_N b)).
Definition byte_colour (c : Byte.byte * Byte.byte * Byte.byte) : vec3 :=
  let '(r, g, b) := c in (byte_value r, byte_value g, byte_value b).

Definition read_points3D_binary : World -> string -> Result (list vec3 * list vec3) :=
  read_with (fun f => match f with
                      | FPoints3DBin x c => Some (x, map byte_colour c)
                      | _ => None
                      end).
Definition read_points3D_text : World -> string -> Result (list vec3 * list vec3) :=
  read_with (fun f => match f with
                      | FPoints3DTxt x c => Some (x, map byte_colour c)
                      | _ => None
                      end).

(** [json.load(open(p))] *)
Definition json_load : World -> string -> Result Manifest :=
  read_with (fun f => match f with FJson m => Some m | _ => None end).

(** [yaml.safe_load(open(p))] *)
Definition yaml_safe_load : World -> string -> Result (list (string * list string)) :=
  read_with (fun f => match f with FYaml d => Some d | _ => None end).

(** [Image.open(p).size] *)
Definition Image_open_size : World -> string -> Result (Z * Z) :=
  read_with (fun f => match f with FImage s => Some s | _ => None end).

(** [PlyData.read(p)['vertex']] *)
Definition PlyData_read : World -> string -> Result (list PlyVertex) :=
  read_with (fun f => match f with FPly v => Some v | _ => None end).

(** [d[k]] on a dict *)
Definition dict_get {V} (k : string) (d : list (string * V)) : Result V :=
  match assoc k d with
  | Some v => Ok v
  | None => Err KeyError
  end.

Fixpoint zassoc {V} (k : Z) (d : list (Z * V)) : option V :=
  match d with
  | [] => None
  | (k', v) :: rest => if Z.eqb k k' then Some v else zassoc k rest
  end.

Definition zdict_get {V} (k : Z) (d : list (Z * V)) : Result V :=
  match zassoc k d with
  | Some v => Ok v
  | None => Err KeyError
  end.

(** [l[i]] on a list of numbers *)
Definition list_get (l : list R) (i : nat) : Result R :=
  match nth_error l i with
  | Some x => Ok x
  | None => Err IndexError
  end.

(** Computations that read and write the world. *)
Definition M (A : Type) : Type := World -> Result A * World.

Definition retM {A} (a : A) : M A := fun w => (Ok a, w).
Definition raiseM {A} (e : PyError) : M A := fun w => (Err e, w).
Definition bindM {A B} (m : M A) (k : A -> M B) : M B :=
  fun w => match m w with
           | (Ok a, w') => k a w'
           | (Err e, w') => (Err e, w')
           end.
(** A computation that only reads the world. *)
Definition readM {A} (r : World -> Result A) : M A := fun w => (r w, w).
Definition getM : M World := fun w => (Ok w, w).

End Fs.
Export Fs.

Notation "x <~ m ;; k" := (bindM m (fun x => k))
  (at level 61, m at next level, right associativity) : py_scope.

(* ================================================================= *)
(** ** [gs3dgs/scene/dataset_readers.py] *)

Module DatasetReaders.
Import OsPath.
Open Scope string_scope.
Open Scope R_scope.

(** [class CameraInfo(NamedTuple)]; the fields [R] and [T] of the source
    are [R_] and [T_] here. *)
Record CameraInfo : Type := {
  uid : Z;
  R_ : mat3;
  T_ : vec3;
  FovY : R;
  FovX : R;
  depth_cam_path : option string;
  depth_est_path : option string;
  image_path : string;
  image_name : string;
  width : Z;
  height : Z
}.

(** [gaussian_model.BasicPointCloud] *)
Record BasicPointCloud : Type := {
  points : list vec3;
  colors : list vec3;
  normals : option (list vec3)
}.

(** The dict [{"translate": ..., "radius": ...}]. *)
Record NerfNorm : Type := {
  translate : vec3;
  radius : R
}.

(** [class SceneInfo(NamedTuple)] *)
Record SceneInfo : Type := {
  point_cloud : BasicPointCloud;
  train_cameras : list CameraInfo;
  test_cameras : list CameraInfo;
  nerf_normalization : NerfNorm;
  ply_path : string
}.

(** [np.max] of a non-empty sequence *)
Definition np_max (x : R) (xs : list R) : R := fold_left Rmax xs x.

(** Sum of the columns of [np.hstack(cs)] *)
Definition vsum (cs : list vec3) : vec3 := fold_left vadd cs vzero.

(** [get_center_and_diag], lines 49-55: [np.hstack] raises on an empty
    list; [center] is the mean over the columns, [diagonal] the largest
    norm of a column minus the centre. *)
Definition get_center_and_diag (cam_centers : list vec3) : Result (vec3 * R) :=
  match cam_centers with
  | [] => Err ValueError
  | c0 :: cs =>
      let avg_cam_center := vdiv (vsum cam_centers) (INR (List.length cam_centers)) in
      let center := avg_cam_center in
      let dist := fun c => norm (vsub c center) in
      let diagonal := np_max (dist c0) (map dist cs) in
      Ok (center, diagonal)
  end.

Section WithExternals.
Context {E : Externals}.

(** Lines 60-62: the camera centre of one record. *)
Definition cam_center (cam : CameraInfo) : Result vec3 :=
  let W2C := getWorld2View2 (R_ cam) (T_ cam) in
  C2W <- inv W2C ;;
  Ok (col3 C2W).

Fixpoint cam_centers_of (cam_info : list CameraInfo) : Result (list vec3) :=
  match cam_info with
  | [] => Ok []
  | cam :: rest =>
      c <- cam_center cam ;;
      cs <- cam_centers_of rest ;;
      Ok (c :: cs)
  end.

(** [getNerfppNorm], lines 48-69 *)
Definition getNerfppNorm (cam_info : list CameraInfo) : Result NerfNorm :=
  cam_centers <- cam_centers_of cam_info ;;
  cd <- get_center_and_diag cam_centers ;;
  let '(center, diagonal) := cd in
  let radius := diagonal * 1.1 in
  let translate := vneg center in
  Ok {| translate := translate; radius := radius |}.

(** The message of the assertion of line 105. *)
Definition model_not_handled : string :=
  "Colmap camera model not handled: only undistorted datasets (PINHOLE or SIMPLE_PINHOLE cameras) supported!".

(** Lines 95-105: the fields of view for the two supported models. *)
Definition colmap_fov (intr : ColmapCamera) : Result (R * R) :=
  let height := cam_height intr in
  let width := cam_width intr in
  if String.eqb (model intr) "SIMPLE_PINHOLE" then
    focal_length_x <- list_get (params intr) 0 ;;
    Ok (focal2fov focal_length_x height, focal2fov focal_length_x width)
  else if String.eqb (model intr) "PINHOLE" then
    focal_length_x <- list_get (params intr) 0 ;;
    focal_length_y <- list_get (params intr) 1 ;;
    Ok (focal2fov focal_length_y height, focal2fov focal_length_x width)
  else
    Err (AssertionError model_not_handled).

(** Lines 107-114: the image path of an entry, with the [.png] retry. *)
Definition colmap_image_path (w : World) (images_folder extr_name : string)
  : Result string :=
  let image_path := join images_folder (basename extr_name) in
  let image_path :=
    if negb (path_exists w image_path)
    then rsplit1_head dot image_path ++ ".png"
    else image_path in
  if negb (path_exists w image_path)
  then Err (FileNotFoundError ("Image file not found at " ++ image_path))
  else Ok image_path.

Definition depth_path (folder : option string) (image_name : string) : option string :=
  match folder with
  | Some d => Some (join d image_name)
  | None => None
  end.

(** The body of the loop of [readColmapCameras], lines 86-137. *)
Definition readColmapCamera (w : World) (cam_intrinsics : list (Z * ColmapCamera))
    (images_folder : string) (depth_cam_folder depth_est_folder : option string)
    (idx : Z) (entry : Z * ColmapImage) : Result CameraInfo :=
  let extr := snd entry in
  intr <- zdict_get (camera_id extr) cam_intrinsics ;;
  let height := cam_height intr in
  let width := cam_width intr in
  let uid := id intr in
  let R := transpose (qvec2rotmat (qvec extr)) in
  let T := tvec extr in
  fov <- colmap_fov intr ;;
  let '(FovY, FovX) := fov in
  let image_name :=
    split_head dot (basename (join images_folder (basename (name extr)))) in
  image_path <- colmap_image_path w images_folder (name extr) ;;
  Ok {| uid := uid; R_ := R; T_ := T; FovY := FovY; FovX := FovX;
        depth_cam_path := depth_path depth_cam_folder image_name;
        depth_est_path := depth_path depth_est_folder image_name;
        image_path := image_path; image_name := image_name;
        width := width; height := height |}.

(** [readColmapCameras], lines 72-139.  The loop runs over the items of
    the dict [cam_extrinsics] in insertion order ([for key in d] followed
    by [d[key]]). *)
Definition readColmapCameras (w : World)
    (cam_extrinsics : list (Z * ColmapImage))
    (cam_intrinsics : list (Z * ColmapCamera))
    (images_folder : string) (depth_cam_folder depth_est_folder : option string)
  : Result (list CameraInfo) :=
  for_enumerate
    (readColmapCamera w cam_intrinsics images_folder depth_cam_folder depth_est_folder)
    0%Z cam_extrinsics.

(** [fetchPly], lines 142-148 *)
Definition fetchPly (w : World) (path : string) : Result BasicPointCloud :=
  vertices <- PlyData_read w path ;;
  let positions := map v_pos vertices in
  let colors :=
    map (fun v => let '(r, g, b) := v_rgb v in
                  (IZR r / 255.0, IZR g / 255.0, IZR b / 255.0)) vertices in
  Ok {| points := positions; colors := colors; normals := None |}.

(** One row of [elements] in [storePly]: the row of
    [np.concatenate((xyz, normals, rgb), axis=1)] cast to the dtype. *)
Definition ply_row (p c : vec3) : PlyVertex :=
  {| v_pos := mk3 (fun i => f4 (get3 p i));
     v_normal := mk3 (fun _ => f4 0);
     v_rgb := mk3 (fun i => u1 (get3 c i)) |}.

(** Line 160 assigns the rows to an array whose colour fields are unsigned
    bytes: a colour is converted to an integer, truncating towards zero, and
    numpy raises [OverflowError] when the integer is not in [0..255]. *)
Definition fits_u1 (x : R) : bool :=
  if Rlt_dec (-1) x then (if Rlt_dec x 256 then true else false) else false.

Definition colours_fit (rgb : list vec3) : bool :=
  forallb (fun c => fits_u1 (get3 c 0) && fits_u1 (get3 c 1) && fits_u1 (get3 c 2)) rgb.

(** [storePly], lines 150-165; [np.concatenate] raises when the arrays
    have different numbers of rows, and the assignment of line 160 when a
    colour does not fit a byte; the file is written after both.  Writing
    the file itself is taken to succeed. *)
Definition storePly (path : string) (xyz rgb : list vec3) : M unit :=
  fun w =>
    if negb (Nat.eqb (List.length xyz) (List.length rgb)) then (Err ValueError, w)
    else if negb (colours_fit rgb) then (Err OverflowError, w)
    else
      let elements := map (fun pc => ply_row (fst pc) (snd pc)) (combine xyz rgb) in
      (Ok tt, write_file w path (FPly elements)).

(** [sorted(l, key = lambda x : x.image_name)]: a stable sort on the
    code-point order of the names. *)
Fixpoint insert_by_name (c : CameraInfo) (l : list CameraInfo) : list CameraInfo :=
  match l with
  | [] => [c]
  | d :: rest =>
      if String.ltb (image_name d) (image_name c)
      then d :: insert_by_name c rest
      else c :: d :: rest
  end.

Definition sorted_by_name (l : list CameraInfo) : list CameraInfo :=
  fold_right insert_by_name [] l.

(** Lines 189-208 and 390-408: the train/test split. *)
Definition split_cameras (path : string) (is_eval : bool) (split_yml_name : option string)
    (cam_infos : list CameraInfo) (w : World)
  : Result (list CameraInfo * list CameraInfo) :=
  if is_eval then
    split_yml <- match split_yml_name with
                 | Some s => Ok s
                 | None => Err TypeError
                 end ;;
    let split_file := join path split_yml in
    if negb (path_exists w split_file)
    then Err (FileNotFoundError ("Split file not found at " ++ split_file))
    else
      split <- yaml_safe_load w split_file ;;
      train_list <- dict_get "train" split ;;
      test_list <- dict_get "test" split ;;
      let train_cam_infos :=
        filter (fun c => str_in (image_name c) train_list) cam_infos in
      let test_cam_infos :=
        filter (fun c => str_in (image_name c) test_list) cam_infos in
      Ok (train_cam_infos, test_cam_infos)
  else Ok (cam_infos, []).

(** Lines 168-177: the binary stores, and the text stores on any failure. *)
Definition read_colmap_stores (w : World) (path : string)
  : Result (list (Z * ColmapImage) * list (Z * ColmapCamera)) :=
  try_except
    (let cameras_extrinsic_file := join (join path "sparse") "images.bin" in
     let cameras_intrinsic_file := join (join path "sparse") "cameras.bin" in
     cam_extrinsics <- read_extrinsics_binary w cameras_extrinsic_file ;;
     cam_intrinsics <- read_intrinsics_binary w cameras_intrinsic_file ;;
     Ok (cam_extrinsics, cam_intrinsics))
    (let cameras_extrinsic_file := join (join path "sparse") "images.txt" in
     let cameras_intrinsic_file := join (join path "sparse") "cameras.txt" in
     cam_extrinsics <- read_extrinsics_text w cameras_extrinsic_file ;;
     cam_intrinsics <- read_intrinsics_text w cameras_intrinsic_file ;;
     Ok (cam_extrinsics, cam_intrinsics)).

Definition optional_folder (w : World) (p : string) : option string :=
  if path_exists w p then Some p else None.

(** Lines 179-187: the sorted camera records of a reconstruction. *)
Definition colmap_cam_infos (w : World) (path : string) (images : option string)
  : Result (list CameraInfo) :=
  stores <- read_colmap_stores w path ;;
  let '(cam_extrinsics, cam_intrinsics) := stores in
  let reading_dir := match images with None => "images" | Some i => i end in
  cam_infos_unsorted <-
    readColmapCameras w cam_extrinsics cam_intrinsics
      (join path reading_dir)
      (optional_folder w (join path "depths_cam"))
      (optional_folder w (join path "depths_est")) ;;
  Ok (sorted_by_name cam_infos_unsorted).

(** Lines 214-224: the point cloud of a reconstruction, converted to the
    cache file on the first load. *)
Definition colmap_point_cloud (path : string) : M BasicPointCloud :=
  let ply_path := join path "sparse/points3D.ply" in
  let bin_path := join path "sparse/points3D.bin" in
  let txt_path := join path "sparse/points3D.txt" in
  w <~ getM ;;
  _ <~ (if negb (path_exists w ply_path) then
          pts <~ readM (fun w => try_except (read_points3D_binary w bin_path)
                                            (read_points3D_text w txt_path)) ;;
          storePly ply_path (fst pts) (snd pts)
        else retM tt) ;;
  readM (fun w => fetchPly w ply_path).

(** [readColmapSceneInfo], lines 167-231 *)
Definition readColmapSceneInfo (path : string) (images : option string)
    (is_eval : bool) (split_yml_name : option string) : M SceneInfo :=
  cam_infos <~ readM (fun w => colmap_cam_infos w path images) ;;
  tt' <~ readM (split_cameras path is_eval split_yml_name cam_infos) ;;
  let '(train_cam_infos, test_cam_infos) := tt' in
  nerf_normalization <~ readM (fun _ => getNerfppNorm train_cam_infos) ;;
  let ply_path := join path "sparse/points3D.ply" in
  pcd <~ colmap_point_cloud path ;;
  retM {| point_cloud := pcd;
          train_cameras := train_cam_infos;
          test_cameras := test_cam_infos;
          nerf_normalization := nerf_normalization;
          ply_path := ply_path |}.

(** Lines 252-259: the image of a frame, probed with [extension] and then
    with [.png]. *)
Definition transforms_cam_name (w : World) (images_dir frame_file_path extension : string)
  : Result string :=
  last <- rsplit1_tail slash frame_file_path ;;
  let cam_name := join images_dir last in
  let cam_name :=
    if path_exists w (cam_name ++ extension)
    then cam_name ++ extension
    else cam_name ++ ".png" in
  if negb (path_exists w cam_name)
  then Err (FileNotFoundError ("Image file not found at " ++ cam_name))
  else Ok cam_name.

(** [c2w[:3, 1:3] *= -1] *)
Definition opengl_flip (c2w : mat4) : mat4 :=
  build4 (fun i j =>
    if ((i <? 3)%nat && (1 <=? j)%nat && (j <? 3)%nat)%bool
    then at4 c2w i j * -1
    else at4 c2w i j).

(** Lines 261-270: the world-to-camera matrix of a frame. *)
Definition frame_w2c (isOpenGL : bool) (frame : Frame) : Result mat4 :=
  let c2w := transform_matrix frame in
  let c2w := if isOpenGL then opengl_flip c2w else c2w in
  inv c2w.

(** The body of the loop of [readCamerasFromTransforms], lines 252-302. *)
Definition readCameraFromTransforms (w : World) (path images_dir : string) (fovx : R)
    (depth_cam_folder depth_est_folder : option string)
    (isOpenGL : bool) (extension : string)
    (idx : Z) (frame : Frame) : Result CameraInfo :=
  cam_name <- transforms_cam_name w images_dir (file_path frame) extension ;;
  w2c <- frame_w2c isOpenGL frame ;;
  let R := transpose (block33 w2c) in
  let T := col3 w2c in
  let image_path := join path cam_name in
  let image_name := stem cam_name in
  size <- Image_open_size w image_path ;;
  let fovy := focal2fov (fov2focal fovx (fst size)) (snd size) in
  let FovY := fovy in
  let FovX := fovx in
  Ok {| uid := idx; R_ := R; T_ := T; FovY := FovY; FovX := FovX;
        depth_cam_path := depth_path depth_cam_folder image_name;
        depth_est_path := depth_path depth_est_folder image_name;
        image_path := image_path; image_name := image_name;
        width := fst size; height := snd size |}.

(** [readCamerasFromTransforms], lines 234-304, on bound arguments.
    [white_background] is not used by the body. *)
Definition readCamerasFromTransforms (w : World) (path images_dir transformsfile : string)
    (depth_cam_folder depth_est_folder : option string)
    (isOpenGL : bool) (extension : string) : Result (list CameraInfo) :=
  contents <- json_load w (join path transformsfile) ;;
  let fovx := camera_angle_x contents in
  for_enumerate
    (readCameraFromTransforms w path images_dir fovx
       depth_cam_folder depth_est_folder isOpenGL extension)
    0%Z (frames contents).

(** The signature of [readCamerasFromTransforms], lines 234-243. *)
Definition readCamerasFromTransforms_params : list param :=
  [ ("path", None); ("images_dir", None); ("transformsfile", None);
    ("white_background", None);
    ("depth_cam_folder", Some VNone); ("depth_est_folder", Some VNone);
    ("isOpenGL", Some (VBool false)); ("extension", Some (VStr ".jpg")) ].

(** A call [readCamerasFromTransforms(args, kw)] as Python evaluates it:
    the arguments are bound to the signature first, and a call that does
    not bind raises [TypeError] before the body runs.  The arguments the
    body uses as paths must be strings. *)
Definition call_readCamerasFromTransforms (w : World)
    (args : list pyval) (kw : list (string * pyval)) : Result (list CameraInfo) :=
  b <- bind_call readCamerasFromTransforms_params args kw ;;
  path <- (v <- get_arg "path" b ;; as_str v) ;;
  images_dir <- (v <- get_arg "images_dir" b ;; as_str v) ;;
  transformsfile <- (v <- get_arg "transformsfile" b ;; as_str v) ;;
  _ <- get_arg "white_background" b ;;
  depth_cam_folder <- (v <- get_arg "depth_cam_folder" b ;; as_opt_str v) ;;
  depth_est_folder <- (v <- get_arg "depth_est_folder" b ;; as_opt_str v) ;;
  isOpenGL <- get_arg "isOpenGL" b ;;
  extension <- (v <- get_arg "extension" b ;; as_str v) ;;
  readCamerasFromTransforms w path images_dir transformsfile
    depth_cam_folder depth_est_folder (truthy isOpenGL) extension.

(** [np.random.random((n, 3))] *)
Definition np_random_random (n : Z) : M (list vec3) :=
  fun w => (Ok (np_random (rng w) n), {| fs := fs w; rng := (rng w + 1)%N |}).

Definition scale255 (c : vec3) : vec3 := mk3 (fun i => get3 c i * 255).

(** Lines 319-331: the point cloud of a synthetic scene. *)
Definition synthetic_point_cloud (ply_path : string) : M BasicPointCloud :=
  w <~ getM ;;
  _ <~ (if negb (path_exists w ply_path) then
          let num_pts := 100000%Z in
          r1 <~ np_random_random num_pts ;;
          let xyz := map (fun p => mk3 (fun i => get3 p i * 2.6 - 1.3)) r1 in
          r2 <~ np_random_random num_pts ;;
          let shs := map (fun p => mk3 (fun i => get3 p i / 255.0)) r2 in
          storePly ply_path xyz (map (fun s => scale255 (SH2RGB s)) shs)
        else retM tt) ;;
  readM (fun w => fetchPly w ply_path).

(** [readNerfSyntheticInfo], lines 306-338 *)
Definition readNerfSyntheticInfo (path : string) (white_background is_eval : bool)
    (extension : string) : M SceneInfo :=
  train_cam_infos <~ readM (fun w =>
    call_readCamerasFromTransforms w
      [VStr path; VStr "transforms_train.json"; VBool white_background]
      [("isOpenGL", VBool true); ("extension", VStr extension)]) ;;
  test_cam_infos <~ readM (fun w =>
    call_readCamerasFromTransforms w
      [VStr path; VStr "transforms_test.json"; VBool white_background]
      [("isOpenGL", VBool true); ("extension", VStr extension)]) ;;
  let '(train_cam_infos, test_cam_infos) :=
    if negb is_eval
    then (List.app train_cam_infos test_cam_infos, [])
    else (train_cam_infos, test_cam_infos) in
  nerf_normalization <~ readM (fun _ => getNerfppNorm train_cam_infos) ;;
  let ply_path := join path "points3d.ply" in
  pcd <~ synthetic_point_cloud ply_path ;;
  retM {| point_cloud := pcd;
          train_cameras := train_cam_infos;
          test_cameras := test_cam_infos;
          nerf_normalization := nerf_normalization;
          ply_path := ply_path |}.

(** [a.min(axis=0)] and [a.max(axis=0)] of [np.stack] of a non-empty list *)
Definition vmin (u v : vec3) : vec3 := mk3 (fun i => Rmin (get3 u i) (get3 v i)).
Definition vmax (u v : vec3) : vec3 := mk3 (fun i => Rmax (get3 u i) (get3 v i)).

(** Lines 369-374: the box around the translations of the records;
    [np.stack] raises on an empty list. *)
Definition cam_centers_box (cam_infos : list CameraInfo) : Result (R * vec3) :=
  match map T_ cam_infos with
  | [] => Err ValueError
  | t0 :: ts =>
      let cam_centers_min := fold_left vmin ts t0 in
      let cam_centers_max := fold_left vmax ts t0 in
      let cam_centers_radius := norm (vsub cam_centers_max cam_centers_min) / 2.0 in
      let cam_centers_center := vdiv (vadd cam_centers_max cam_centers_min) 2.0 in
      Ok (cam_centers_radius, cam_centers_center)
  end.

(** Lines 375-388: the point cloud of a free-capture scene. *)
Definition toydesk_point_cloud (ply_path : string)
    (cam_centers_radius : R) (cam_centers_center : vec3) : M BasicPointCloud :=
  w <~ getM ;;
  _ <~ (if negb (path_exists w ply_path) then
          let num_pts := 360000%Z in
          r1 <~ np_random_random num_pts ;;
          let xyz :=
            map (fun p => mk3 (fun i =>
                   (get3 p i - 0.5) * 4 * cam_centers_radius + get3 cam_centers_center i))
                r1 in
          r2 <~ np_random_random num_pts ;;
          let shs := map (fun p => mk3 (fun i => get3 p i / 255.0)) r2 in
          storePly ply_path xyz (map (fun s => scale255 (SH2RGB s)) shs)
        else retM tt) ;;
  readM (fun w => fetchPly w ply_path).

(** Lines 345-363: the camera records of a free-capture scene. *)
Definition toydesk_cam_infos (w : World) (path : string) (images : option string)
    (white_background : bool) (extension : string) : Result (list CameraInfo) :=
  let images_dir := match images with None => "images" | Some i => i end in
  call_readCamerasFromTransforms w
    [VStr path; VStr (join path images_dir); VStr "transforms_full.json";
     VBool white_background]
    [("depth_cam_folder", of_opt_str (optional_folder w (join path "depths")));
     ("depth_est_folder", of_opt_str (optional_folder w (join path "depths_est")));
     ("extension", VStr extension)].

(** [readToyDeskSceneInfo], lines 341-415 *)
Definition readToyDeskSceneInfo (path : string) (images : option string)
    (white_background is_eval : bool) (extension : string)
    (split_yml_name : option string) : M SceneInfo :=
  cam_infos <~ readM (fun w =>
    toydesk_cam_infos w path images white_background extension) ;;
  nerf_normalization <~ readM (fun _ => getNerfppNorm cam_infos) ;;
  box <~ readM (fun _ => cam_centers_box cam_infos) ;;
  let '(cam_centers_radius, cam_centers_center) := box in
  let ply_path := join path "points3d.ply" in
  pcd <~ toydesk_point_cloud ply_path cam_centers_radius cam_centers_center ;;
  tt' <~ readM (split_cameras path is_eval split_yml_name cam_infos) ;;
  let '(train_cam_infos, test_cam_infos) := tt' in
  retM {| point_cloud := pcd;
          train_cameras := train_cam_infos;
          test_cameras := test_cam_infos;
          nerf_normalization := nerf_normalization;
          ply_path := ply_path |}.

(** The calls [sceneLoadTypeCallbacks] dispatches to, lines 418-422. *)
Inductive SceneLoad : Type :=
| Colmap (path : string) (images : option string) (is_eval : bool)
         (split_yml_name : option string)
| Blender (path : string) (white_background is_eval : bool) (extension : string)
| ToyDesk (path : string) (images : option string) (white_background is_eval : bool)
          (extension : string) (split_yml_name : option string).

Definition sceneLoadTypeCallbacks (c : SceneLoad) : M SceneInfo :=
  match c with
  | Colmap path images is_eval split_yml_name =>
      readColmapSceneInfo path images is_eval split_yml_name
  | Blender path white_background is_eval extension =>
      readNerfSyntheticInfo path white_background is_eval extension
  | ToyDesk path images white_background is_eval extension split_yml_name =>
      readToyDeskSceneInfo path images white_background is_eval extension split_yml_name
  end.

(** The cache file of a load: the [ply_path] the reader computes. *)
Definition cache_path (c : SceneLoad) : string :=
  match c with
  | Colmap path _ _ _ => join path "sparse/points3D.ply"
  | Blender path _ _ _ => join path "points3d.ply"
  | ToyDesk path _ _ _ _ _ => join path "points3d.ply"
  end.

End WithExternals.
End DatasetReaders.

(* ================================================================= *)
(** ** Python floats *)

(** The numbers [loadCam] computes with are Python floats, IEEE 754
    binary64: the operations of the Standard Library's [SpecFloat] at
    precision 53 and maximal exponent 1024, each returning the float nearest
    to the exact result, ties to even. *)
Module Float64.
Open Scope Z_scope.

Definition float : Type := spec_float.
Definition prec : Z := 53.
Definition emax : Z := 1024.

(** [1.0] *)
Definition float_one : float := S754_finite false 4503599627370496 (-52).

(** [x == 0], for [0.0] and [-0.0] *)
Definition float_is_zero (x : float) : bool :=
  match x with S754_zero _ => true | _ => false end.

(** [float(z)], and the conversion of an int operand of a float operation:
    the nearest float, [OverflowError] when [z] is too large for one. *)
Definition float_of_int (z : Z) : Result float :=
  match binary_normalize prec emax z 0 false with
  | S754_infinity _ | S754_nan => Err OverflowError
  | f => Ok f
  end.

(** [x * y] on floats *)
Definition float_mul (x y : float) : float := SFmul prec emax x y.

(** [x / y] on floats *)
Definition float_truediv (x y : float) : Result float :=
  if float_is_zero y then Err ZeroDivisionError else Ok (SFdiv prec emax x y).

(** [a / b] on two ints: the float nearest to the exact quotient,
    [OverflowError] when it is too large for one. *)
Definition int_truediv (a b : Z) : Result float :=
  if b =? 0 then Err ZeroDivisionError
  else match a with
       | Z0 => Ok (S754_zero (b <? 0))
       | _ =>
           match SFdiv prec emax (S754_finite (a <? 0) (Z.to_pos (Z.abs a)) 0)
                   (S754_finite (b <? 0) (Z.to_pos (Z.abs b)) 0) with
           | S754_infinity _ | S754_nan => Err OverflowError
           | f => Ok f
           end
       end.

(** [int(x)]: truncation towards zero *)
Definition py_int (x : float) : Result Z :=
  match x with
  | S754_nan => Err ValueError
  | S754_infinity _ => Err OverflowError
  | S754_zero _ => Ok 0
  | S754_finite s m e =>
      let a := if 0 <=? e then Zpos m * 2 ^ e else Zpos m / 2 ^ (- e) in
      Ok (if s then - a else a)
  end.

(** [round(x)]: to the nearest integer, ties to the even one *)
Definition py_round (x : float) : Result Z :=
  match x with
  | S754_nan => Err ValueError
  | S754_infinity _ => Err OverflowError
  | S754_zero _ => Ok 0
  | S754_finite s m e =>
      let a :=
        if 0 <=? e then Zpos m * 2 ^ e
        else
          let d := 2 ^ (- e) in
          let q := Zpos m / d in
          match 2 * (Zpos m mod d) ?= d with
          | Lt => q
          | Gt => q + 1
          | Eq => if Z.even q then q else q + 1
          end in
      Ok (if s then - a else a)
  end.

(** A zero or a finite float: neither an infinity nor a NaN. *)
Definition finite_or_zero (f : float) : Prop :=
  match f with S754_infinity _ | S754_nan => False | _ => True end.

(** The float [f] is the integer [z], of at most 53 bits, held exactly. *)
Definition holds (z : Z) (f : float) : Prop :=
  match f with
  | S754_zero _ => z = 0
  | S754_finite s m e =>
      s = false /\ Z.pos (digits2_pos m) = 53 /\ -52 <= e <= 0
      /\ Z.pos m = z * 2 ^ (- e)
  | _ => False
  end.

End Float64.

(* ================================================================= *)
(** ** [gs2dgs/utils/camera_utils.py] *)

Module CameraUtils.
Import DatasetReaders Float64.
Open Scope string_scope.
Open Scope R_scope.

(** The fields of [arguments.ModelParams] the module reads; [resolution]
    is the integer option [--resolution/-r]. *)
Record ModelParams : Type := {
  resolution : Z;
  data_device : string;
  preload : bool
}.

(** The keyword arguments [loadCam] passes to [scene.cameras.Camera]. *)
Record Camera : Type := {
  colmap_id : Z;
  cam_R : mat3;
  cam_T : vec3;
  FoVx : R;
  FoVy : R;
  cam_resolution : Z * Z;
  cam_image_path : string;
  cam_depth_cam_path : option string;
  cam_depth_est_path : option string;
  cam_image_name : string;
  cam_uid : Z;
  cam_data_device : string
}.

(** The state of the process the module touches: the global [WARNED] and
    the lines printed so far. *)
Record Process : Type := {
  WARNED : bool;
  stdout : list string
}.

(** Line 21: [WARNED = False], and nothing printed yet. *)
Definition initial : Process := {| WARNED := false; stdout := [] |}.

Definition large_image_warning : string :=
  "[ INFO ] Encountered quite large input images (>1.6K pixels width), rescaling to 1.6K."
  ++ String (ascii_of_nat 10)
     " If this is not desired, please explicitly specify '--resolution/-r' as 1".

Definition print (line : string) (p : Process) : Process :=
  {| WARNED := WARNED p; stdout := List.app (stdout p) [line] |}.

(** [x in l] on ints *)
Definition int_in (x : Z) (l : list Z) : bool := existsb (Z.eqb x) l.

(** [global_down] is the int [1] or a float. *)
Inductive number : Type :=
| NInt (z : Z)
| NFloat (f : float).

(** [float(n)] *)
Definition to_float (n : number) : Result float :=
  match n with
  | NInt z => float_of_int z
  | NFloat f => Ok f
  end.

(** Lines 30-41: the down-scaling factor, and the warning printed once. *)
Definition global_down_of (args : ModelParams) (orig_w : Z) (p : Process)
  : Result number * Process :=
  if (resolution args =? -1)%Z then
    if (1600 <? orig_w)%Z then
      let p' := if negb (WARNED p)
                then {| WARNED := true; stdout := stdout (print large_image_warning p) |}
                else p in
      (g <- int_truediv orig_w 1600 ;; Ok (NFloat g), p')
    else (Ok (NInt 1), p)
  else (g <- int_truediv orig_w (resolution args) ;; Ok (NFloat g), p).

(** One side of the resolution: [round(side / divisor)] in line 28 and
    [int(side / scale)] in line 44; [side] is an int and the divisor a
    float. *)
Definition rounded_side (side : Z) (divisor : float) : Result Z :=
  f <- float_of_int side ;;
  q <- float_truediv f divisor ;;
  py_round q.

Definition truncated_side (side : Z) (scale : float) : Result Z :=
  f <- float_of_int side ;;
  q <- float_truediv f scale ;;
  py_int q.

(** Lines 27-44: the target resolution.  [resolution_scale] is a float
    (the scene passes the entries of [resolution_scales = [1.0]]). *)
Definition resolution_of (args : ModelParams) (orig_w orig_h : Z)
    (resolution_scale : float) (p : Process) : Result (Z * Z) * Process :=
  if int_in (resolution args) [1; 2; 4; 8]%Z then
    (r <- float_of_int (resolution args) ;;
     let divisor := float_mul resolution_scale r in
     rw <- rounded_side orig_w divisor ;;
     rh <- rounded_side orig_h divisor ;;
     Ok (rw, rh), p)
  else
    let '(gd, p') := global_down_of args orig_w p in
    (global_down <- gd ;;
     g <- to_float global_down ;;
     let scale := float_mul g resolution_scale in
     rw <- truncated_side orig_w scale ;;
     rh <- truncated_side orig_h scale ;;
     Ok (rw, rh), p').

(** [loadCam], lines 23-59 *)
Definition loadCam (w : World) (args : ModelParams) (id : Z) (cam_info : CameraInfo)
    (resolution_scale : float) (p : Process) : Result Camera * Process :=
  match Image_open_size w (image_path cam_info) with
  | Err e => (Err e, p)
  | Ok (orig_w, orig_h) =>
      let '(res, p') := resolution_of args orig_w orig_h resolution_scale p in
      (resolution <- res ;;
       Ok {| colmap_id := uid cam_info;
             cam_R := R_ cam_info;
             cam_T := T_ cam_info;
             FoVx := FovX cam_info;
             FoVy := FovY cam_info;
             cam_resolution := resolution;
             cam_image_path := image_path cam_info;
             cam_depth_cam_path := depth_cam_path cam_info;
             cam_depth_est_path := depth_est_path cam_info;
             cam_image_name := image_name cam_info;
             cam_uid := id;
             cam_data_device := data_device args |}, p')
  end.

(** One call of [loadCam], with the world it runs in. *)
Record LoadCall : Type := {
  call_world : World;
  call_args : ModelParams;
  call_id : Z;
  call_cam_info : CameraInfo;
  call_resolution_scale : float
}.

Definition do_call (c : LoadCall) : Process -> Result Camera * Process :=
  loadCam (call_world c) (call_args c) (call_id c) (call_cam_info c)
          (call_resolution_scale c).

(** A sequence of calls in one process; a call that raises leaves the
    process state as it was when it raised. *)
Fixpoint run_calls (cs : list LoadCall) (p : Process) : list (Result Camera) * Process :=
  match cs with
  | [] => ([], p)
  | c :: rest =>
      let '(r, p') := do_call c p in
      let '(rs, p'') := run_calls rest p' in
      (r :: rs, p'')
  end.

(** The list comprehension of [cameraList_from_camInfos], line 65. *)
Fixpoint load_all (w : World) (args : ModelParams) (resolution_scale : float)
    (id : Z) (cam_infos : list CameraInfo) (p : Process)
  : Result (list Camera) * Process :=
  match cam_infos with
  | [] => (Ok [], p)
  | c :: rest =>
      match loadCam w args id c resolution_scale p with
      | (Err e, p') => (Err e, p')
      | (Ok cam, p') =>
          match load_all w args resolution_scale (id + 1) rest p' with
          | (Err e, p'') => (Err e, p'')
          | (Ok cams, p'') => (Ok (cam :: cams), p'')
          end
      end
  end.

(** [cameraList_from_camInfos], lines 61-67; the class attribute
    [Camera.preload] it sets belongs to [scene.cameras] and is not part of
    the process state modelled here. *)
Definition cameraList_from_camInfos (w : World) (cam_infos : list CameraInfo)
    (resolution_scale : float) (args : ModelParams) (p : Process)
  : Result (list Camera) * Process :=
  let p := print ("gt image preload: " ++ (if preload args then "True" else "False")) p in
  let p := print "This would affect the time taken to load the images" p in
  load_all w args resolution_scale 0 cam_infos p.

(** How often the oversized-image warning was printed. *)
Definition warnings (p : Process) : nat :=
  count_occ string_dec (stdout p) large_image_warning.

(** The trigger of the warning in a call: the image opens, [resolution] is
    [-1] and the image is wider than 1600 pixels. *)
Definition warning_due (w : World) (args : ModelParams) (cam_info : CameraInfo) : bool :=
  match Image_open_size w (image_path cam_info) with
  | Ok (orig_w, _) => (resolution args =? -1)%Z && (1600 <? orig_w)%Z
  | Err _ => false
  end.

(** What every process state reached from [initial] satisfies: the warning
    is printed only together with setting [WARNED]. *)
Definition warn_invariant (p : Process) : Prop :=
  (WARNED p = false -> warnings p = 0%nat) /\ (warnings p <= 1)%nat.

(** The dict [camera_to_JSON] returns. *)
Record CameraEntry : Type := {
  entry_id : Z;
  img_name : string;
  entry_width : Z;
  entry_height : Z;
  position : vec3;
  rotation : mat3;
  fy : R;
  fx : R
}.

(** Lines 70-73: [Rt], composed from the stored rotation and translation. *)
Definition Rt_of (R : mat3) (T : vec3) : mat4 := homogeneous (transpose R) T.

Section WithExternals.
Context {E : Externals}.

(** [camera_to_JSON], lines 69-89.  The attributes it reads ([R], [T],
    [image_name], [width], [height], [FovY], [FovX]) are those of a
    [CameraInfo]. *)
Definition camera_to_JSON (id : Z) (camera : CameraInfo) : Result CameraEntry :=
  let Rt := Rt_of (R_ camera) (T_ camera) in
  W2C <- inv Rt ;;
  let pos := col3 W2C in
  let rot := block33 W2C in
  Ok {| entry_id := id;
        img_name := image_name camera;
        entry_width := width camera;
        entry_height := height camera;
        position := pos;
        rotation := rot;
        fy := fov2focal (FovY camera) (height camera);
        fx := fov2focal (FovX camera) (width camera) |}.
End WithExternals.

End CameraUtils.

(* ================================================================= *)
(** ** The statements of the specification, and worked inputs *)

Module SpecModel.
Open Scope R_scope.

(** Modelled from the spec: [graphics_utils.focal2fov] is not among the
    source files; the spec gives [focalToFov(focal, pixelExtent)] as
    [2.atan(pixelExtent / (2.focal))]. *)
Definition focalToFov (focal : R) (pixelExtent : Z) : R :=
  2 * atan (IZR pixelExtent / (2 * focal)).

(** Modelled from the spec: [graphics_utils.fov2focal] is not among the
    source files; the spec gives [fovToFocal] as the inverse of
    [focalToFov], undefined only where [tan(fov/2)] is zero. *)
Definition fovToFocal (fov : R) (pixelExtent : Z) : R :=
  IZR pixelExtent / (2 * tan (fov / 2)).

(** The Euclidean distance of the Scene Normalizer. *)
Definition distance (p c : vec3) : R :=
  sqrt ((get3 p 0 - get3 c 0) * (get3 p 0 - get3 c 0)
        + (get3 p 1 - get3 c 1) * (get3 p 1 - get3 c 1)
        + (get3 p 2 - get3 c 2) * (get3 p 2 - get3 c 2)).

(** [c] is the centroid of the positions [ps]: [n.c] is their sum. *)
Definition is_centroid (c : vec3) (ps : list vec3) : Prop :=
  forall i, (i < 3)%nat ->
    INR (List.length ps) * get3 c i = fold_right Rplus 0 (map (fun p => get3 p i) ps).

(** [d] is the maximum distance from [c] to a position of [ps]. *)
Definition is_max_distance (d : R) (c : vec3) (ps : list vec3) : Prop :=
  (exists p, In p ps /\ distance p c = d) /\
  (forall p, In p ps -> distance p c <= d).

(** [M . M^T = I], entry by entry: the rows of [M] are orthonormal. *)
Definition rows_orthonormal (M : mat3) : Prop :=
  forall i j, (i < 3)%nat -> (j < 3)%nat ->
    at3 M i 0 * at3 M j 0 + at3 M i 1 * at3 M j 1 + at3 M i 2 * at3 M j 2
    = (if Nat.eqb i j then 1 else 0).

(** [p] is the world position of the camera with world-to-view matrix
    [W2C]: the translation column of the inverse of [W2C]. *)
Definition is_world_position (W2C : mat4) (p : vec3) : Prop :=
  exists C2W : mat4,
    mmul4 W2C C2W = I4 /\ mmul4 C2W W2C = I4 /\
    let '((_, _, _, x), (_, _, _, y), (_, _, _, z), _) := C2W in p = (x, y, z).

(** The composition the spec writes [[R^T, -R^T.T],[0,1]]. *)
Definition spec_worldToView (R : mat3) (T : vec3) : mat4 :=
  homogeneous (transpose R) (vneg (mvmul3 (transpose R) T)).

End SpecModel.

Module Examples.
Import OsPath DatasetReaders CameraUtils SpecModel.
Open Scope string_scope.
Open Scope R_scope.

(** The rotation of a unit quaternion [(w, x, y, z)], as the reconstruction
    tool defines it; it stands for [qvec2rotmat] in the worked inputs. *)
Definition quaternion_rotation (q : vec4) : mat3 :=
  let '(w, x, y, z) := q in
  ((1 - 2 * y * y - 2 * z * z, 2 * x * y - 2 * w * z, 2 * z * x + 2 * w * y),
   (2 * x * y + 2 * w * z, 1 - 2 * x * x - 2 * z * z, 2 * y * z - 2 * w * x),
   (2 * z * x - 2 * w * y, 2 * y * z + 2 * w * x, 1 - 2 * x * x - 2 * y * y)).

(** The collaborators used in the worked inputs: the field-of-view maps of
    the spec, the view matrix composed as [camera_to_JSON] composes [Rt],
    exact casts, and a generator that always draws the centre of the unit
    cube. *)
#[local] Instance example_externals : Externals := {|
  qvec2rotmat := quaternion_rotation;
  getWorld2View2 := Rt_of;
  focal2fov := focalToFov;
  fov2focal := fovToFocal;
  SH2RGB := fun sh => mk3 (fun i => get3 sh i * 0.28209479177387814 + 0.5);
  f4 := fun x => x;
  u1 := fun x => Int_part x;
  np_random := fun _ n => repeat (0.5, 0.5, 0.5) (Z.to_nat n)
|}.

Definition files (l : list (string * File)) (r : N) : World :=
  {| fs := fun p => assoc p l; rng := r |}.

Definition translation (t : vec3) : mat4 := homogeneous I3 t.

(** A free-capture scene with two frames: [a] at the origin, found as
    [a.jpg], and [b] at [(2,0,0)], found as [b.png]; [a] is a training
    view and [b] a test view; the point cloud is cached. *)
Definition desk_manifest : Manifest :=
  {| camera_angle_x := 0.6911;
     frames := [ {| file_path := "./images/a"; transform_matrix := I4 |};
                 {| file_path := "./images/b";
                    transform_matrix := translation (2, 0, 0) |} ] |}.

Definition desk_ply : list PlyVertex :=
  [ {| v_pos := (0, 0, 0); v_normal := (0, 0, 0); v_rgb := (255, 0, 51)%Z |} ].

Definition desk_world : World :=
  files [ ("/desk/transforms_full.json", FJson desk_manifest);
          ("/desk/images/a.jpg", FImage (800, 800)%Z);
          ("/desk/images/b.png", FImage (800, 600)%Z);
          ("/desk/points3d.ply", FPly desk_ply);
          ("/desk/split.yml", FYaml [("train", ["a"]); ("test", ["b"])]) ] 0.

Definition desk_load : SceneLoad :=
  ToyDesk "/desk" None false true ".jpg" (Some "split.yml").

Definition desk_cam_a : CameraInfo :=
  {| uid := 0; R_ := transpose (block33 I4); T_ := col3 I4;
     FovY := focalToFov (fovToFocal 0.6911 800) 800; FovX := 0.6911;
     depth_cam_path := None; depth_est_path := None;
     image_path := "/desk/images/a.jpg"; image_name := "a";
     width := 800; height := 800 |}.

Definition desk_cam_b : CameraInfo :=
  {| uid := 1; R_ := transpose (block33 (translation (-2, 0, 0)));
     T_ := col3 (translation (-2, 0, 0));
     FovY := focalToFov (fovToFocal 0.6911 800) 600; FovX := 0.6911;
     depth_cam_path := None; depth_est_path := None;
     image_path := "/desk/images/b.png"; image_name := "b";
     width := 800; height := 600 |}.

(** A reconstruction with three views [a], [b], [c] sharing one pinhole
    camera; the split lists [a] for training and [b] for testing. *)
Definition view (i : Z) (n : string) (t : vec3) : Z * ColmapImage :=
  (i, {| im_id := i; qvec := (1, 0, 0, 0); tvec := t; camera_id := 1; name := n |}).

Definition pinhole : ColmapCamera :=
  {| id := 1; model := "PINHOLE"; cam_width := 800; cam_height := 600;
     params := [1000; 1000; 400; 300] |}.

Definition opencv : ColmapCamera :=
  {| id := 2; model := "OPENCV"; cam_width := 800; cam_height := 600;
     params := [1000; 1000; 400; 300; 0; 0; 0; 0] |}.

Definition colmap_views : list (Z * ColmapImage) :=
  [view 1 "c.jpg" (0, 0, 1); view 2 "a.jpg" (0, 0, 0); view 3 "b.jpg" (2, 0, 0)].

Definition colmap_world : World :=
  files [ ("/scene/sparse/images.bin", FImagesBin colmap_views);
          ("/scene/sparse/cameras.bin", FCamerasBin [(1%Z, pinhole)]);
          ("/scene/images/a.jpg", FImage (800, 600)%Z);
          ("/scene/images/b.png", FImage (800, 600)%Z);
          ("/scene/images/c.jpg", FImage (800, 600)%Z);
          ("/scene/sparse/points3D.ply", FPly desk_ply);
          ("/scene/split.yml", FYaml [("train", ["a"]); ("test", ["b"])]);
          ("/scene/overlap.yml", FYaml [("train", ["a"; "b"; "c"]); ("test", ["a"])]) ] 0.

Definition colmap_load : SceneLoad :=
  Colmap "/scene" None true (Some "split.yml").

Definition overlap_load : SceneLoad :=
  Colmap "/scene" None true (Some "overlap.yml").

Definition colmap_cam (n ip : string) (t : vec3) : CameraInfo :=
  {| uid := 1; R_ := transpose (quaternion_rotation (1, 0, 0, 0)); T_ := t;
     FovY := focalToFov 1000 600; FovX := focalToFov 1000 800;
     depth_cam_path := None; depth_est_path := None;
     image_path := ip; image_name := n;
     width := 800; height := 600 |}.

(** The same reconstruction with a second view that uses a distorted
    camera model. *)
Definition distorted_view : Z * ColmapImage :=
  (2%Z, {| im_id := 2; qvec := (1, 0, 0, 0); tvec := (1, 0, 0);
           camera_id := 2; name := "b.jpg" |}).

Definition distorted_world : World :=
  files [ ("/scene/sparse/images.bin",
           FImagesBin [view 1 "a.jpg" (0, 0, 0); distorted_view]);
          ("/scene/sparse/cameras.bin", FCamerasBin [(1%Z, pinhole); (2%Z, opencv)]);
          ("/scene/images/a.jpg", FImage (800, 600)%Z);
          ("/scene/images/b.jpg", FImage (800, 600)%Z);
          ("/scene/sparse/points3D.ply", FPly desk_ply) ] 0.

(** A synthetic scene as the end-to-end property describes it: a shared
    horizontal field of view of [0.6911], one frame with the identity
    transform, an image of 800 by 800 pixels. *)
Definition lego_manifest : Manifest :=
  {| camera_angle_x := 0.6911;
     frames := [ {| file_path := "./train/r_0"; transform_matrix := I4 |} ] |}.

Definition lego_world : World :=
  files [ ("/lego/transforms_train.json", FJson lego_manifest);
          ("/lego/transforms_test.json", FJson lego_manifest);
          ("/lego/train/r_0.png", FImage (800, 800)%Z) ] 0.

Definition lego_load : SceneLoad := Blender "/lego" false false ".png".

(** A record whose rotation is a quarter turn. *)
Definition turned_cam : CameraInfo :=
  {| uid := 0; R_ := ((0, -1, 0), (1, 0, 0), (0, 0, 1)); T_ := (1, 0, 0);
     FovY := 0.6911; FovX := 0.6911;
     depth_cam_path := None; depth_est_path := None;
     image_path := "/desk/images/a.jpg"; image_name := "a";
     width := 800; height := 800 |}.

(** A quarter turn about the third axis, and a translation. *)
Definition quarter_turn : mat3 := ((0, -1, 0), (1, 0, 0), (0, 0, 1)).
Definition unit_x : vec3 := (1, 0, 0).

End Examples.

(* ================================================================= *)
(** ** Notions used to state further properties of the code *)

Module Derived.
Import OsPath DatasetReaders Float64 CameraUtils.
Open Scope string_scope.
Open Scope R_scope.

(** [w'] differs from [w] at most in the file at [p] and in draws made
    from the random generator; no file of [w] is missing in [w']. *)
Definition touches_only (p : string) (w w' : World) : Prop :=
  (forall q, q <> p -> fs w' q = fs w q) /\
  (forall q, path_exists w q = true -> path_exists w' q = true) /\
  (rng w <= rng w')%N.

(** The order of [sorted(..., key = lambda x : x.image_name)]. *)
Definition name_le (c d : CameraInfo) : Prop :=
  String.leb (image_name c) (image_name d) = true.

(** The character [ch] occurs in [s]. *)
Fixpoint has_char (ch : ascii) (s : string) : bool :=
  match s with
  | EmptyString => false
  | String a rest => Ascii.eqb a ch || has_char ch rest
  end.

(** [diag(1, -1, -1, 1) @ M]: the second and third rows of [M] negated. *)
Definition negate_rows_1_2 (M : mat4) : mat4 :=
  build4 (fun i j => if ((1 <=? i)%nat && (i <? 3)%nat)%bool then - at4 M i j else at4 M i j).

(** The second and third columns of a rotation negated, and the second and
    third components of a vector negated. *)
Definition negate_cols_1_2 (A : mat3) : mat3 :=
  build3 (fun i j => if (1 <=? j)%nat then - at3 A i j else at3 A i j).
Definition negate_comps_1_2 (v : vec3) : vec3 :=
  mk3 (fun i => if (1 <=? i)%nat then - get3 v i else get3 v i).

(** Every component of a row drawn by [np.random.random] lies in [[0, 1)]. *)
Definition in_unit_cube (p : vec3) : Prop :=
  forall i, (i < 3)%nat -> 0 <= get3 p i < 1.

(** [p] lies in the cube of half-side [h] around [c]. *)
Definition in_cube (c : vec3) (h : R) (p : vec3) : Prop :=
  forall i, (i < 3)%nat -> Rabs (get3 p i - get3 c i) <= h.

(** Every component of the colour [c] truncates to an integer of
    [0..255]. *)
Definition fits_byte (c : vec3) : Prop :=
  forall i, (i < 3)%nat -> -1 < get3 c i < 256.

(** The positions and colours [fetchPly] returns for the rows [storePly]
    writes for [xyz] and [rgb]. *)
Definition stored_cloud {E : Externals} (xyz rgb : list vec3) : BasicPointCloud :=
  {| points := map (fun p => mk3 (fun i => f4 (get3 p i))) xyz;
     colors := map (fun c => (IZR (u1 (get3 c 0)) / 255.0,
                              IZR (u1 (get3 c 1)) / 255.0,
                              IZR (u1 (get3 c 2)) / 255.0)) rgb;
     normals := None |}.

(** The rows [storePly] writes. *)
Definition stored_rows {E : Externals} (xyz rgb : list vec3) : list PlyVertex :=
  map (fun pc => ply_row (fst pc) (snd pc)) (combine xyz rgb).

(** The integers [a], [a + 1], ..., [a + n - 1]. *)
Fixpoint range (a : Z) (n : nat) : list Z :=
  match n with
  | O => []
  | S k => a :: range (a + 1) k
  end.

(** For a width above 1600 with [resolution = -1] and
    [resolution_scale = 1.0]: the scale of line 43 is a finite float of
    moderate exponent, and the width of the resolution of line 44 is 1600
    or 1599. *)
Definition wide_width_ok (orig_w : Z) : bool :=
  match int_truediv orig_w 1600 with
  | Ok g =>
      match float_mul g float_one with
      | S754_finite s m e =>
          (-100 <=? e)%Z && (e <=? 100)%Z &&
          match truncated_side orig_w (S754_finite s m e) with
          | Ok 1600%Z | Ok 1599%Z => true
          | _ => false
          end
      | _ => false
      end
  | Err _ => false
  end.

(** Some call of a sequence triggers the warning. *)
Definition some_call_due (cs : list LoadCall) : bool :=
  existsb (fun c => warning_due (call_world c) (call_args c) (call_cam_info c)) cs.

End Derived.

(** ** Further worked inputs *)

Module MoreExamples.
Import OsPath DatasetReaders CameraUtils SpecModel Examples.
Open Scope string_scope.
Open Scope R_scope.

(** A reconstruction that has not been loaded yet: the sparse points are
    there, the cache file is not. *)
Definition fresh_world : World :=
  files [ ("/scene/sparse/points3D.bin",
           FPoints3DBin [(0, 0, 0); (1, 2, 3)]
             [(Byte.xff, Byte.x00, Byte.x33); (Byte.x00, Byte.x80, Byte.xff)]) ] 0.

(** The worked reconstruction with a split whose [train] list names none of
    its views. *)
Definition unlisted_world : World :=
  write_file colmap_world "/scene/none.yml" (FYaml [("train", ["z"]); ("test", ["a"])]).

(** Two images, of 3200 by 2000 and of 1601 by 1200 pixels, and a record
    for the first. *)
Definition wide_world : World :=
  files [ ("/wide/images/a.jpg", FImage (3200, 2000)%Z);
          ("/wide/images/b.jpg", FImage (1601, 1200)%Z) ] 0.

Definition wide_cam : CameraInfo :=
  {| uid := 7; R_ := I3; T_ := (0, 0, 0);
     FovY := 0.5; FovX := 0.6911;
     depth_cam_path := None; depth_est_path := None;
     image_path := "/wide/images/a.jpg"; image_name := "a";
     width := 3200; height := 2000 |}.

(** [--resolution 1], the default [--resolution -1], and [--resolution 0]. *)
Definition full_args : ModelParams :=
  {| resolution := 1; data_device := "cuda"; preload := false |}.
Definition default_args : ModelParams :=
  {| resolution := -1; data_device := "cuda"; preload := false |}.
Definition zero_args : ModelParams :=
  {| resolution := 0; data_device := "cuda"; preload := false |}.

(** The worked reconstruction with a folder of camera depths. *)
Definition depth_world : World :=
  write_file colmap_world "/scene/depths_cam" FDir.

(** The free-capture scene under the relative scene path [desk]: one frame
    with the identity transform, its image [desk/images/a.jpg], and a
    cached point cloud. *)
Definition relative_frame : Frame :=
  {| file_path := "./images/a"; transform_matrix := I4 |}.

Definition relative_world : World :=
  files [ ("desk/transforms_full.json",
           FJson {| camera_angle_x := 0.6911; frames := [relative_frame] |});
          ("desk/images/a.jpg", FImage (800, 800)%Z);
          ("desk/points3d.ply", FPly desk_ply) ] 0.

(** A pose whose rotation is not symmetric: a third of a turn about the
    diagonal, the rotation of the quaternion [(1/2, 1/2, 1/2, 1/2)]. *)
Definition cycle : mat3 := ((0, 0, 1), (1, 0, 0), (0, 1, 0)).

(** A record for the second image of [wide_world], with that pose. *)
Definition narrow_cam : CameraInfo :=
  {| uid := 9; R_ := cycle; T_ := (1, 2, 3);
     FovY := 0.4; FovX := 0.5;
     depth_cam_path := None; depth_est_path := None;
     image_path := "/wide/images/b.jpg"; image_name := "b";
     width := 1601; height := 1200 |}.

Definition turned_views : list (Z * ColmapImage) :=
  [ (1%Z, {| im_id := 1; qvec := (1 / 2, 1 / 2, 1 / 2, 1 / 2); tvec := (1, 2, 3);
             camera_id := 1; name := "a.jpg" |}) ].

Definition turned_frame : Frame :=
  {| file_path := "./images/a"; transform_matrix := homogeneous cycle (1, 2, 3) |}.

Definition turned_world : World :=
  files [ ("/turned/transforms_full.json",
           FJson {| camera_angle_x := 0.6911; frames := [turned_frame] |});
          ("/turned/images/a.jpg", FImage (800, 800)%Z) ] 0.

End MoreExamples.

(* ================================================================= *)
(** * Properties *)

(** ** Arrays *)

Ltac destruct_arrays :=
  repeat match goal with
         | x : mat4 |- _ => destruct x as [[[? ?] ?] ?]
         | x : vec4 |- _ => destruct x as [[[? ?] ?] ?]
         | x : mat3 |- _ => destruct x as [[? ?] ?]
         | x : vec3 |- _ => destruct x as [[? ?] ?]
         end.

Ltac array_unfold :=
  cbv [mmul4 mmul3 build4 build3 mk4 mk3 at4 at3 get4 get3 I4 I3 transpose Nat.eqb
       adjugate4 cofactor4 minor4 det4 det3 det3f skip Nat.ltb Nat.leb Nat.even Nat.add
       homogeneous block33 col3 vneg vadd vsub mvmul3 vdiv vzero].

Ltac split_tuples :=
  repeat match goal with |- (_, _) = (_, _) => apply f_equal2 end.

Section ArrayFacts.
Open Scope R_scope.

Lemma det4_mmul4 (A B : mat4) : det4 (mmul4 A B) = det4 A * det4 B.
Proof. destruct_arrays. array_unfold. ring. Qed.

Lemma mmul4_assoc (A B C : mat4) : mmul4 (mmul4 A B) C = mmul4 A (mmul4 B C).
Proof. destruct_arrays. array_unfold. split_tuples; ring. Qed.

Lemma mmul4_I4_l (M : mat4) : mmul4 I4 M = M.
Proof. destruct_arrays. array_unfold. split_tuples; ring. Qed.

Lemma mmul4_I4_r (M : mat4) : mmul4 M I4 = M.
Proof. destruct_arrays. array_unfold. split_tuples; ring. Qed.

Lemma det4_I4 : det4 I4 = 1.
Proof. array_unfold. ring. Qed.

Lemma adjugate_left (M : mat4) :
  det4 M <> 0 ->
  mmul4 (build4 (fun i j => at4 (adjugate4 M) i j / det4 M)) M = I4.
Proof.
  intros H. destruct_arrays. revert H. array_unfold. intros H.
  split_tuples; field; intro Hc; apply H; rewrite <- Hc; ring.
Qed.

(** A right inverse is the inverse [np.linalg.inv] returns. *)
Lemma inv_unique (M N : mat4) : mmul4 M N = I4 -> inv M = Ok N.
Proof.
  intros H.
  assert (Hd : det4 M <> 0).
  { intro Hd. pose proof (det4_mmul4 M N) as D.
    rewrite H, det4_I4, Hd in D. lra. }
  unfold inv. destruct (Req_dec_T (det4 M) 0) as [e|_]; [contradiction|].
  f_equal.
  rewrite <- (mmul4_I4_r (build4 _)), <- H, <- mmul4_assoc, adjugate_left by exact Hd.
  apply mmul4_I4_l.
Qed.

Lemma inv_left (M N : mat4) : inv M = Ok N -> mmul4 N M = I4.
Proof.
  unfold inv. destruct (Req_dec_T (det4 M) 0) as [e|n]; [discriminate|].
  intros [= <-]. now apply adjugate_left.
Qed.

Lemma transpose_involutive (M : mat3) : transpose (transpose M) = M.
Proof. destruct_arrays. reflexivity. Qed.

(** Orthonormal rows give orthonormal columns. *)
Lemma orthonormal_transpose (M : mat3) : orthonormal M -> orthonormal (transpose M).
Proof.
  unfold orthonormal. intros H. destruct_arrays. revert H. array_unfold. intros H.
  injection H as H1 H2 H3 H4 H5 H6 H7 H8 H9.
  split_tuples; nsatz.
Qed.

Lemma inv_I4 : inv I4 = Ok I4.
Proof. apply inv_unique, mmul4_I4_l. Qed.

(** The inverse of a rigid motion whose rotation block has orthonormal
    columns. *)
Lemma inv_homogeneous (A : mat3) (t : vec3) :
  mmul3 A (transpose A) = I3 ->
  inv (homogeneous A t) = Ok (homogeneous (transpose A) (vneg (mvmul3 (transpose A) t))).
Proof.
  intros H. apply inv_unique. destruct_arrays. revert H. array_unfold.
  intros H. injection H as H1 H2 H3 H4 H5 H6 H7 H8 H9.
  split_tuples; try ring; try assumption; nsatz.
Qed.

End ArrayFacts.

(** ** Loops *)

Section LoopFacts.
Context {A B : Type}.
Variable body : Z -> A -> Result B.

(** A loop that returns has produced one record per element, in order. *)
Lemma for_enumerate_ok (l : list A) :
  forall idx bs,
    for_enumerate body idx l = Ok bs ->
    Forall2 (fun x b => exists i, body i x = Ok b) l bs.
Proof.
  induction l as [|x rest IH]; intros idx bs H; simpl in H.
  - injection H as <-. constructor.
  - destruct (body idx x) as [b|e] eqn:Hb; simpl in H; [|discriminate].
    destruct (for_enumerate body (idx + 1) rest) as [bs'|e] eqn:Hr; simpl in H;
      [|discriminate].
    injection H as <-. constructor; eauto.
Qed.

(** A loop over a list with an element on which the body always raises
    raises. *)
Lemma for_enumerate_err (l : list A) (x : A) :
  In x l ->
  (forall i, exists e, body i x = Err e) ->
  forall idx, exists e, for_enumerate body idx l = Err e.
Proof.
  intros Hin Hx. induction l as [|y rest IH]; intros idx; [destruct Hin|].
  simpl. destruct Hin as [->|Hin].
  - destruct (Hx idx) as [e ->]. simpl. eauto.
  - destruct (body idx y) as [b|e]; simpl; [|eauto].
    destruct (IH Hin (idx + 1)%Z) as [e ->]. simpl. eauto.
Qed.

Lemma for_enumerate_length (l : list A) :
  forall idx bs, for_enumerate body idx l = Ok bs -> List.length bs = List.length l.
Proof.
  intros idx bs H. apply for_enumerate_ok in H.
  symmetry. eapply Forall2_length, H.
Qed.

End LoopFacts.

(** ** The oversized-image warning of [loadCam] *)

Section WarnOnce.
Import DatasetReaders CameraUtils.
Open Scope R_scope.

Lemma warnings_print_warning (p : Process) :
  warnings (print large_image_warning p) = S (warnings p).
Proof.
  unfold warnings, print. simpl. rewrite count_occ_app. simpl.
  destruct (string_dec large_image_warning large_image_warning); [lia|congruence].
Qed.

Lemma global_down_of_invariant (args : ModelParams) (orig_w : Z) (p : Process) :
  warn_invariant p -> warn_invariant (snd (global_down_of args orig_w p)).
Proof.
  intros H. unfold global_down_of.
  destruct (resolution args =? -1)%Z; [|exact H].
  destruct (1600 <? orig_w)%Z; [|exact H].
  destruct (WARNED p) eqn:W; [exact H|].
  destruct H as [H0 H1]. cbn [negb snd].
  unfold warn_invariant. cbn [WARNED].
  change (warnings {| WARNED := true;
                      stdout := stdout (print large_image_warning p) |})
    with (warnings (print large_image_warning p)).
  rewrite warnings_print_warning, (H0 W). split; [discriminate|lia].
Qed.

Lemma resolution_of_invariant args orig_w orig_h resolution_scale (p : Process) :
  warn_invariant p ->
  warn_invariant (snd (resolution_of args orig_w orig_h resolution_scale p)).
Proof.
  intros H. unfold resolution_of.
  destruct (int_in (resolution args) [1; 2; 4; 8]%Z); [exact H|].
  pose proof (global_down_of_invariant args orig_w H) as G.
  destruct (global_down_of args orig_w p) as [gd p']. exact G.
Qed.

Lemma loadCam_invariant w args id cam_info resolution_scale (p : Process) :
  warn_invariant p ->
  warn_invariant (snd (loadCam w args id cam_info resolution_scale p)).
Proof.
  intros H. unfold loadCam.
  destruct (Image_open_size w (image_path cam_info)) as [[orig_w orig_h]|e]; [|exact H].
  pose proof (resolution_of_invariant args orig_w orig_h resolution_scale H) as G.
  destruct (resolution_of args orig_w orig_h resolution_scale p) as [res p']. exact G.
Qed.

Lemma run_calls_invariant (cs : list LoadCall) :
  forall p, warn_invariant p -> warn_invariant (snd (run_calls cs p)).
Proof.
  induction cs as [|c rest IH]; intros p H; simpl; [exact H|].
  pose proof (loadCam_invariant (call_world c) (call_args c) (call_id c)
                (call_cam_info c) (call_resolution_scale c) H) as G.
  unfold do_call. destruct (loadCam _ _ _ _ _ p) as [r p'].
  specialize (IH p' G). destruct (run_calls rest p') as [rs p'']. exact IH.
Qed.

Lemma resolution_of_result args orig_w orig_h resolution_scale (p q : Process) :
  fst (resolution_of args orig_w orig_h resolution_scale p)
  = fst (resolution_of args orig_w orig_h resolution_scale q).
Proof.
  unfold resolution_of.
  destruct (int_in (resolution args) [1; 2; 4; 8]%Z); [reflexivity|].
  unfold global_down_of.
  destruct (resolution args =? -1)%Z; [|reflexivity].
  destruct (1600 <? orig_w)%Z; reflexivity.
Qed.

Lemma minus_one_not_listed (x : Z) :
  x = (-1)%Z -> int_in x [1; 2; 4; 8]%Z = false.
Proof. now intros ->. Qed.

(** A call prints the warning exactly when its trigger holds and [WARNED]
    is not yet set, and sets [WARNED] then. *)
Lemma loadCam_warning w args id cam_info resolution_scale (p : Process) :
  let p' := snd (loadCam w args id cam_info resolution_scale p) in
  warnings p'
  = (warnings p + (if warning_due w args cam_info && negb (WARNED p) then 1 else 0))%nat /\
  WARNED p' = WARNED p || warning_due w args cam_info.
Proof.
  unfold loadCam, warning_due.
  destruct (Image_open_size w (image_path cam_info)) as [[orig_w orig_h]|e];
    cbn [snd andb];
    [|split; [lia|now rewrite orb_false_r]].
  unfold resolution_of, global_down_of.
  destruct (Z.eqb_spec (resolution args) (-1)) as [Hr|Hr].
  - rewrite (minus_one_not_listed Hr).
    destruct (1600 <? orig_w)%Z; cbn [snd andb];
      [|split; [lia|now rewrite orb_false_r]].
    destruct (WARNED p) eqn:W; cbn [snd andb negb WARNED orb];
      [split; [lia|exact W]|].
    change (warnings {| WARNED := true;
                        stdout := stdout (print large_image_warning p) |})
      with (warnings (print large_image_warning p)).
    rewrite warnings_print_warning. split; [lia|reflexivity].
  - destruct (int_in (resolution args) [1; 2; 4; 8]%Z); cbn [snd andb];
      (split; [lia|now rewrite orb_false_r]).
Qed.

(** C10. Over every sequence of [loadCam] calls in a process that starts
    with [WARNED = False], the oversized-image warning is printed at most
    once; a call prints it exactly when [resolution] is [-1], the image is
    wider than 1600 pixels and [WARNED] is not yet set; and the camera a
    call returns (or the exception it raises) does not depend on the process
    state, hence not on whether the warning has fired. *)
Theorem warning_printed_at_most_once :
  (forall cs : list LoadCall, (warnings (snd (run_calls cs initial)) <= 1)%nat) /\
  (forall w args id cam_info resolution_scale (p : Process),
      warnings (snd (loadCam w args id cam_info resolution_scale p))
      = (warnings p
         + (if warning_due w args cam_info && negb (WARNED p) then 1 else 0))%nat) /\
  (forall w args id cam_info resolution_scale (p q : Process),
      fst (loadCam w args id cam_info resolution_scale p)
      = fst (loadCam w args id cam_info resolution_scale q)).
Proof.
  split; [|split].
  - intros cs. apply run_calls_invariant. split; [reflexivity|].
    unfold warnings; simpl; lia.
  - intros. apply loadCam_warning.
  - intros. unfold loadCam.
    destruct (Image_open_size w (image_path cam_info)) as [[orig_w orig_h]|e];
      [|reflexivity].
    pose proof (resolution_of_result args orig_w orig_h resolution_scale p q) as G.
    destruct (resolution_of args orig_w orig_h resolution_scale p) as [r1 p1].
    destruct (resolution_of args orig_w orig_h resolution_scale q) as [r2 q1].
    simpl in G. subst r2. reflexivity.
Qed.

End WarnOnce.

(** ** The scene loaders, step by step *)

Section LoaderFacts.
Import OsPath DatasetReaders.
Context {E : Externals}.
Open Scope string_scope.

Lemma fetchPly_exists (w : World) (p : string) (pcd : BasicPointCloud) :
  fetchPly w p = Ok pcd -> path_exists w p = true.
Proof.
  unfold fetchPly, PlyData_read, read_with, path_exists.
  destruct (fs w p); [reflexivity|discriminate].
Qed.

(** A load that finds the cache file reads it and leaves the world as it
    is. *)
Lemma colmap_point_cloud_hit (path : string) (w : World) :
  path_exists w (join path "sparse/points3D.ply") = true ->
  colmap_point_cloud path w = (fetchPly w (join path "sparse/points3D.ply"), w).
Proof.
  intros H. unfold colmap_point_cloud, bindM, getM, retM, readM. rewrite H. simpl.
  reflexivity.
Qed.

Lemma synthetic_point_cloud_hit (ply : string) (w : World) :
  path_exists w ply = true ->
  synthetic_point_cloud ply w = (fetchPly w ply, w).
Proof.
  intros H. unfold synthetic_point_cloud, bindM, getM, retM, readM. rewrite H. simpl.
  reflexivity.
Qed.

Lemma toydesk_point_cloud_hit (ply : string) (r : R) (c : vec3) (w : World) :
  path_exists w ply = true ->
  toydesk_point_cloud ply r c w = (fetchPly w ply, w).
Proof.
  intros H. unfold toydesk_point_cloud, bindM, getM, retM, readM. rewrite H. simpl.
  reflexivity.
Qed.

(** The point cloud a load returns is the one the cache file holds when
    the load ends. *)
Lemma colmap_point_cloud_ok (path : string) (w w' : World) (pcd : BasicPointCloud) :
  colmap_point_cloud path w = (Ok pcd, w') ->
  fetchPly w' (join path "sparse/points3D.ply") = Ok pcd.
Proof.
  unfold colmap_point_cloud, bindM, getM, retM, readM.
  destruct (path_exists w (join path "sparse/points3D.ply")); simpl.
  - intros [= H <-]. exact H.
  - destruct (try_except _ _) as [pts|e]; [|discriminate].
    destruct (storePly _ _ _ w) as [[u|e] w1]; [|discriminate].
    intros [= H <-]. exact H.
Qed.

Lemma synthetic_point_cloud_ok (ply : string) (w w' : World) (pcd : BasicPointCloud) :
  synthetic_point_cloud ply w = (Ok pcd, w') -> fetchPly w' ply = Ok pcd.
Proof.
  unfold synthetic_point_cloud, bindM, getM, retM, readM, np_random_random.
  destruct (path_exists w ply); simpl.
  - intros [= H <-]. exact H.
  - destruct (storePly _ _ _ _) as [[u|e] w1]; [|discriminate].
    intros [= H <-]. exact H.
Qed.

Lemma toydesk_point_cloud_ok (ply : string) (r : R) (c : vec3) (w w' : World)
    (pcd : BasicPointCloud) :
  toydesk_point_cloud ply r c w = (Ok pcd, w') -> fetchPly w' ply = Ok pcd.
Proof.
  unfold toydesk_point_cloud, bindM, getM, retM, readM, np_random_random.
  destruct (path_exists w ply); simpl.
  - intros [= H <-]. exact H.
  - destruct (storePly _ _ _ _) as [[u|e] w1]; [|discriminate].
    intros [= H <-]. exact H.
Qed.

(** The steps of a [readColmapSceneInfo] that returns. *)
Lemma readColmapSceneInfo_ok path images is_eval split_yml_name (w w' : World)
    (scene : SceneInfo) :
  readColmapSceneInfo path images is_eval split_yml_name w = (Ok scene, w') ->
  exists cam_infos train test nrm pcd,
    colmap_cam_infos w path images = Ok cam_infos /\
    split_cameras path is_eval split_yml_name cam_infos w = Ok (train, test) /\
    getNerfppNorm train = Ok nrm /\
    colmap_point_cloud path w = (Ok pcd, w') /\
    scene = {| point_cloud := pcd; train_cameras := train; test_cameras := test;
               nerf_normalization := nrm;
               ply_path := join path "sparse/points3D.ply" |}.
Proof.
  unfold readColmapSceneInfo, bindM, readM, retM.
  destruct (colmap_cam_infos w path images) as [cams|e] eqn:H1; [|discriminate].
  destruct (split_cameras path is_eval split_yml_name cams w) as [[tr te]|e] eqn:H2;
    [|discriminate].
  destruct (getNerfppNorm tr) as [nrm|e] eqn:H3; [|discriminate].
  destruct (colmap_point_cloud path w) as [[pcd|e] w1] eqn:H4; [|discriminate].
  intros [= <- <-]. exists cams, tr, te, nrm, pcd.
  repeat split; reflexivity || assumption.
Qed.

(** The steps of a [readToyDeskSceneInfo] that returns. *)
Lemma readToyDeskSceneInfo_ok path images white_background is_eval extension
    split_yml_name (w w' : World) (scene : SceneInfo) :
  readToyDeskSceneInfo path images white_background is_eval extension split_yml_name w
  = (Ok scene, w') ->
  exists cam_infos nrm r c pcd train test,
    toydesk_cam_infos w path images white_background extension = Ok cam_infos /\
    getNerfppNorm cam_infos = Ok nrm /\
    cam_centers_box cam_infos = Ok (r, c) /\
    toydesk_point_cloud (join path "points3d.ply") r c w = (Ok pcd, w') /\
    split_cameras path is_eval split_yml_name cam_infos w' = Ok (train, test) /\
    scene = {| point_cloud := pcd; train_cameras := train; test_cameras := test;
               nerf_normalization := nrm; ply_path := join path "points3d.ply" |}.
Proof.
  unfold readToyDeskSceneInfo, bindM, readM, retM.
  destruct (toydesk_cam_infos w _ _ _ _) as [cams|e] eqn:H1; [|discriminate].
  destruct (getNerfppNorm cams) as [nrm|e] eqn:H2; [|discriminate].
  destruct (cam_centers_box cams) as [[r c]|e] eqn:H3; [|discriminate].
  destruct (toydesk_point_cloud _ r c w) as [[pcd|e] w1] eqn:H4; [|discriminate].
  destruct (split_cameras path is_eval split_yml_name cams w1) as [[tr te]|e] eqn:Hs;
    [|discriminate].
  intros [= <- <-]. exists cams, nrm, r, c, pcd, tr, te.
  repeat split; reflexivity || assumption.
Qed.

(** The call in [readNerfSyntheticInfo] leaves the required parameter
    [white_background] without an argument. *)
Lemma synthetic_call_does_not_bind (w : World) (path transformsfile : string)
    (white_background : bool) (extension : string) :
  call_readCamerasFromTransforms w
    [VStr path; VStr transformsfile; VBool white_background]
    [("isOpenGL", VBool true); ("extension", VStr extension)] = Err TypeError.
Proof. reflexivity. Qed.

Lemma readNerfSyntheticInfo_raises path white_background is_eval extension (w : World) :
  readNerfSyntheticInfo path white_background is_eval extension w = (Err TypeError, w).
Proof.
  unfold readNerfSyntheticInfo, bindM, readM.
  rewrite synthetic_call_does_not_bind. reflexivity.
Qed.

(** The split of an evaluation load: both lists are read from the split
    file and filter the loaded cameras. *)
Lemma split_cameras_eval path yml cam_infos (w : World) train test :
  split_cameras path true (Some yml) cam_infos w = Ok (train, test) ->
  exists doc train_list test_list,
    yaml_safe_load w (join path yml) = Ok doc /\
    dict_get "train" doc = Ok train_list /\
    dict_get "test" doc = Ok test_list /\
    train = filter (fun c => str_in (image_name c) train_list) cam_infos /\
    test = filter (fun c => str_in (image_name c) test_list) cam_infos.
Proof.
  unfold split_cameras. simpl.
  destruct (path_exists w (join path yml)); simpl; [|discriminate].
  destruct (yaml_safe_load w (join path yml)) as [doc|e]; simpl; [|discriminate].
  destruct (dict_get "train" doc) as [trl|e] eqn:H1; simpl; [|discriminate].
  destruct (dict_get "test" doc) as [tel|e] eqn:H2; simpl; [|discriminate].
  intros [= <- <-]. exists doc, trl, tel. repeat split; reflexivity || assumption.
Qed.

Lemma str_in_In (n : string) (l : list string) : str_in n l = true <-> In n l.
Proof.
  unfold str_in. rewrite existsb_exists. split.
  - intros [x [Hin Heq]]. apply String.eqb_eq in Heq. now subst.
  - intros H. exists n. split; [exact H|apply String.eqb_refl].
Qed.

Lemma sorted_by_name_length (l : list CameraInfo) :
  List.length (sorted_by_name l) = List.length l.
Proof.
  assert (Hins : forall c m, List.length (insert_by_name c m) = S (List.length m)).
  { intros c m. induction m as [|d rest IH]; simpl; [reflexivity|].
    destruct (String.ltb (image_name d) (image_name c)); simpl; [now rewrite IH|reflexivity]. }
  induction l as [|c rest IH]; simpl; [reflexivity|]. now rewrite Hins, IH.
Qed.

End LoaderFacts.

(** ** The point-cloud cache *)

Section Cache.
Import OsPath DatasetReaders.
Context {E : Externals}.
Open Scope string_scope.

(** A load that returns has read its point cloud from the cache file as
    the load leaves it. *)
Lemma load_returns_cached (c : SceneLoad) (w w' : World) (scene : SceneInfo) :
  sceneLoadTypeCallbacks c w = (Ok scene, w') ->
  ply_path scene = cache_path c /\
  fetchPly w' (cache_path c) = Ok (point_cloud scene).
Proof.
  destruct c as [path images ev yml|path wb ev ext|path images wb ev ext yml];
    cbn [sceneLoadTypeCallbacks cache_path].
  - intros H. apply readColmapSceneInfo_ok in H.
    destruct H as (cams & tr & te & nrm & pcd & _ & _ & _ & Hp & ->). simpl.
    split; [reflexivity|]. now apply colmap_point_cloud_ok in Hp.
  - rewrite (readNerfSyntheticInfo_raises path wb ev ext w). discriminate.
  - intros H. apply readToyDeskSceneInfo_ok in H.
    destruct H as (cams & nrm & r & cc & pcd & tr & te & _ & _ & _ & Hp & _ & ->).
    simpl. split; [reflexivity|]. now apply toydesk_point_cloud_ok in Hp.
Qed.

(** A load that finds the cache file leaves the world as it is, whether it
    returns or raises. *)
Lemma load_hit_world (c : SceneLoad) (w : World) :
  path_exists w (cache_path c) = true ->
  snd (sceneLoadTypeCallbacks c w) = w.
Proof.
  destruct c as [path images ev yml|path wb ev ext|path images wb ev ext yml];
    cbn [sceneLoadTypeCallbacks cache_path]; intros H.
  - unfold readColmapSceneInfo, bindM, readM, retM.
    destruct (colmap_cam_infos w path images) as [cams|e]; [|reflexivity].
    destruct (split_cameras path ev yml cams w) as [[tr te]|e]; [|reflexivity].
    destruct (getNerfppNorm tr) as [nrm|e]; [|reflexivity].
    rewrite (colmap_point_cloud_hit path w H).
    destruct (fetchPly w _); reflexivity.
  - now rewrite (readNerfSyntheticInfo_raises path wb ev ext w).
  - unfold readToyDeskSceneInfo, bindM, readM, retM.
    destruct (toydesk_cam_infos w _ _ _ _) as [cams|e]; [|reflexivity].
    destruct (getNerfppNorm cams) as [nrm|e]; [|reflexivity].
    destruct (cam_centers_box cams) as [[r cc]|e]; [|reflexivity].
    rewrite (toydesk_point_cloud_hit _ r cc w H).
    destruct (fetchPly w _); [|reflexivity].
    destruct (split_cameras path ev yml cams w) as [[tr te]|e]; reflexivity.
Qed.

(** C9. A load that finds the point-cloud cache file at its canonical path
    leaves the world unchanged, whether it returns or raises: nothing is
    written and no random point is drawn.  When it returns, its point cloud
    is the one [fetchPly] reads from that file.  Hence a second load after
    a load that returned changes nothing and returns the same point
    cloud. *)
Theorem cache_hit_reads_only (c : SceneLoad) (w : World) :
  (path_exists w (cache_path c) = true ->
     snd (sceneLoadTypeCallbacks c w) = w /\
     (forall scene, fst (sceneLoadTypeCallbacks c w) = Ok scene ->
        ply_path scene = cache_path c /\
        fetchPly w (cache_path c) = Ok (point_cloud scene))) /\
  (forall s1 w1 s2 w2,
     sceneLoadTypeCallbacks c w = (Ok s1, w1) ->
     sceneLoadTypeCallbacks c w1 = (Ok s2, w2) ->
     w2 = w1 /\ point_cloud s2 = point_cloud s1).
Proof.
  assert (Hit : forall w0, path_exists w0 (cache_path c) = true ->
     snd (sceneLoadTypeCallbacks c w0) = w0 /\
     (forall scene, fst (sceneLoadTypeCallbacks c w0) = Ok scene ->
        ply_path scene = cache_path c /\
        fetchPly w0 (cache_path c) = Ok (point_cloud scene))).
  { intros w0 H. pose proof (load_hit_world c w0 H) as Hw. split; [exact Hw|].
    intros scene Hs.
    destruct (sceneLoadTypeCallbacks c w0) as [r w'] eqn:L. simpl in *. subst.
    now apply load_returns_cached in L. }
  split; [apply Hit|].
  intros s1 w1 s2 w2 L1 L2.
  apply load_returns_cached in L1. destruct L1 as [_ F1].
  destruct (Hit w1 (fetchPly_exists _ _ F1)) as [Hw Hs].
  rewrite L2 in Hw, Hs. simpl in Hw, Hs. subst w2. split; [reflexivity|].
  destruct (Hs s2 eq_refl) as [_ F2]. congruence.
Qed.

End Cache.

(** ** The scene normalizer *)

Section Normalizer.
Import DatasetReaders SpecModel.
Context {E : Externals}.
Open Scope R_scope.

Lemma cam_centers_of_length (cams : list CameraInfo) :
  forall ps, cam_centers_of cams = Ok ps -> List.length ps = List.length cams.
Proof.
  induction cams as [|cam rest IH]; simpl; intros ps H.
  - now injection H as <-.
  - destruct (cam_center cam) as [c|e]; simpl in H; [|discriminate].
    destruct (cam_centers_of rest) as [cs|e]; simpl in H; [|discriminate].
    injection H as <-. simpl. now rewrite (IH cs eq_refl).
Qed.

Lemma get3_vsum_from (l : list vec3) :
  forall acc i, (i < 3)%nat ->
    get3 (fold_left vadd l acc) i
    = get3 acc i + fold_right Rplus 0 (map (fun p => get3 p i) l).
Proof.
  induction l as [|p rest IH]; intros acc i Hi; simpl.
  - ring.
  - rewrite (IH _ i Hi).
    assert (Hadd : get3 (vadd acc p) i = get3 acc i + get3 p i).
    { destruct_arrays.
      destruct i as [|[|[|i]]]; try reflexivity; lia. }
    rewrite Hadd. ring.
Qed.

Lemma get3_vdiv (u : vec3) (k : R) (i : nat) :
  (i < 3)%nat -> get3 (vdiv u k) i = get3 u i / k.
Proof.
  intros Hi. destruct_arrays. destruct i as [|[|[|i]]]; try reflexivity; lia.
Qed.

Lemma norm_vsub (p c : vec3) : norm (vsub p c) = distance p c.
Proof. destruct_arrays. reflexivity. Qed.

(** [np.max] returns an element of the sequence that bounds the others. *)
Lemma np_max_spec (xs : list R) :
  forall x, In (np_max x xs) (x :: xs) /\ (forall y, In y (x :: xs) -> y <= np_max x xs).
Proof.
  unfold np_max. induction xs as [|z rest IH]; intros x; simpl.
  - split; [now left|]. intros y [->|[]]. lra.
  - destruct (IH (Rmax x z)) as [Hin Hub]. split.
    + destruct Hin as [Hm|Hm]; [|now right; right].
      rewrite <- Hm. unfold Rmax. destruct (Rle_dec x z); [right; now left|now left].
    + intros y [->|[->|Hy]].
      * eapply Rle_trans; [apply (Rmax_l _ z)|]. apply Hub. now left.
      * eapply Rle_trans; [apply (Rmax_r x)|]. apply Hub. now left.
      * apply Hub. now right.
Qed.

(** The centre and the diagonal of a non-empty list of positions. *)
Lemma get_center_and_diag_spec (ps : list vec3) :
  ps <> [] ->
  exists c d, get_center_and_diag ps = Ok (c, d) /\
              is_centroid c ps /\ is_max_distance d c ps.
Proof.
  destruct ps as [|p0 rest]; [congruence|]. intros _.
  eexists. eexists. split; [reflexivity|].
  set (ps := p0 :: rest).
  set (c := vdiv (vsum ps) (INR (List.length ps))).
  assert (Hn : INR (List.length ps) <> 0).
  { apply not_0_INR. discriminate. }
  split.
  - intros i Hi. unfold c. rewrite get3_vdiv by exact Hi.
    unfold vsum. rewrite get3_vsum_from by exact Hi.
    replace (get3 vzero i) with 0
      by (destruct i as [|[|[|i]]]; try reflexivity; lia).
    field. exact Hn.
  - destruct (np_max_spec (map (fun q => norm (vsub q c)) rest) (norm (vsub p0 c)))
      as [Hin Hub].
    split.
    + destruct Hin as [Hm|Hm].
      * exists p0. split; [now left|]. now rewrite <- norm_vsub.
      * apply in_map_iff in Hm. destruct Hm as [q [Hq Hin]].
        exists q. split; [now right|]. now rewrite <- norm_vsub.
    + intros p [<-|Hp]; rewrite <- norm_vsub; apply Hub; [now left|].
      right. apply in_map_iff. now exists p.
Qed.

(** The centre the code computes for a record is the position the spec
    describes: the translation column of the inverse of the world-to-view
    matrix. *)
Lemma cam_center_world_position (cam : CameraInfo) (p : vec3) :
  is_world_position (getWorld2View2 (R_ cam) (T_ cam)) p -> cam_center cam = Ok p.
Proof.
  intros (C2W & Hr & _ & Hp). unfold cam_center.
  rewrite (inv_unique Hr). simpl. f_equal.
  destruct C2W as [[[[[[? ?] ?] x] [[[? ?] ?] y]] [[[? ?] ?] z]] ?]. now subst p.
Qed.

Lemma cam_centers_world_positions (cams : list CameraInfo) (ps : list vec3) :
  Forall2 (fun cam p => is_world_position (getWorld2View2 (R_ cam) (T_ cam)) p) cams ps ->
  cam_centers_of cams = Ok ps.
Proof.
  induction 1 as [|cam p cams ps Hp _ IH]; simpl; [reflexivity|].
  now rewrite (@cam_center_world_position cam p Hp), IH.
Qed.

(** C4. For every non-empty list of camera records, with [ps] the world
    positions of the cameras, each the translation column of the inverse of
    the record's world-to-view matrix [getWorld2View2(R, T)], the normalizer
    returns [translate = -c] and [radius = 1.1 . d], where [c] is the
    centroid of [ps] and [d] the maximum Euclidean distance from [c] to a
    position of [ps]; for a single camera at position [p] it returns
    [translate = -p] and [radius = 0]. *)
Theorem normalizer_centroid_and_radius :
  (forall (cams : list CameraInfo) (ps : list vec3),
      cams <> [] ->
      Forall2 (fun cam p => is_world_position (getWorld2View2 (R_ cam) (T_ cam)) p)
              cams ps ->
      exists c d,
        getNerfppNorm cams = Ok {| translate := vneg c; radius := 1.1 * d |} /\
        (forall i, (i < 3)%nat -> get3 (vneg c) i = - get3 c i) /\
        is_centroid c ps /\ is_max_distance d c ps) /\
  (forall (cam : CameraInfo) (p : vec3),
      is_world_position (getWorld2View2 (R_ cam) (T_ cam)) p ->
      getNerfppNorm [cam] = Ok {| translate := vneg p; radius := 0 |}).
Proof.
  split.
  - intros cams ps Hne Hpos.
    pose proof (cam_centers_world_positions Hpos) as Hps.
    assert (Hps' : ps <> []).
    { intros ->. apply cam_centers_of_length in Hps. destruct cams; [congruence|discriminate]. }
    destruct (get_center_and_diag_spec Hps') as (c & d & Hcd & Hc & Hd).
    exists c, d. split; [|split; [|split; assumption]].
    + unfold getNerfppNorm. rewrite Hps. simpl. rewrite Hcd. simpl.
      do 2 f_equal. ring.
    + intros i Hi. destruct_arrays. destruct i as [|[|[|i]]]; try lia; reflexivity.
  - intros cam p Hpos. pose proof (@cam_center_world_position cam p Hpos) as Hp.
    unfold getNerfppNorm. simpl. rewrite Hp. simpl.
    assert (Hc : vdiv (vsum [p]) 1 = p).
    { destruct_arrays. unfold vsum. simpl. array_unfold. split_tuples; field. }
    rewrite Hc. do 2 f_equal.
    unfold np_max. simpl. rewrite norm_vsub. unfold distance.
    replace ((get3 p 0 - get3 p 0) * (get3 p 0 - get3 p 0)
             + (get3 p 1 - get3 p 1) * (get3 p 1 - get3 p 1)
             + (get3 p 2 - get3 p 2) * (get3 p 2 - get3 p 2)) with 0 by ring.
    rewrite sqrt_0. ring.
Qed.

End Normalizer.

(** ** Loads that return *)

Section LoadsThatReturn.
Import OsPath DatasetReaders.
Context {E : Externals}.
Open Scope string_scope.

Lemma readColmapSceneInfo_returns path images is_eval split_yml_name (w : World)
    cam_infos train test nrm pcd :
  colmap_cam_infos w path images = Ok cam_infos ->
  split_cameras path is_eval split_yml_name cam_infos w = Ok (train, test) ->
  getNerfppNorm train = Ok nrm ->
  path_exists w (join path "sparse/points3D.ply") = true ->
  fetchPly w (join path "sparse/points3D.ply") = Ok pcd ->
  readColmapSceneInfo path images is_eval split_yml_name w
  = (Ok {| point_cloud := pcd; train_cameras := train; test_cameras := test;
           nerf_normalization := nrm;
           ply_path := join path "sparse/points3D.ply" |}, w).
Proof.
  intros H1 H2 H3 H4 H5. unfold readColmapSceneInfo, bindM, readM, retM.
  rewrite H1, H2, H3, (colmap_point_cloud_hit path w H4), H5. reflexivity.
Qed.

Lemma readToyDeskSceneInfo_returns path images white_background is_eval extension
    split_yml_name (w : World) cam_infos nrm r c pcd train test :
  toydesk_cam_infos w path images white_background extension = Ok cam_infos ->
  getNerfppNorm cam_infos = Ok nrm ->
  cam_centers_box cam_infos = Ok (r, c) ->
  path_exists w (join path "points3d.ply") = true ->
  fetchPly w (join path "points3d.ply") = Ok pcd ->
  split_cameras path is_eval split_yml_name cam_infos w = Ok (train, test) ->
  readToyDeskSceneInfo path images white_background is_eval extension split_yml_name w
  = (Ok {| point_cloud := pcd; train_cameras := train; test_cameras := test;
           nerf_normalization := nrm; ply_path := join path "points3d.ply" |}, w).
Proof.
  intros H1 H2 H3 H4 H5 H6. unfold readToyDeskSceneInfo, bindM, readM, retM.
  rewrite H1, H2, H3, (toydesk_point_cloud_hit _ r c w H4), H5, H6. reflexivity.
Qed.

End LoadsThatReturn.

(** ** The worked inputs *)

Section WorkedInputs.
Import OsPath DatasetReaders CameraUtils SpecModel Examples.
Open Scope string_scope.
Open Scope R_scope.

Existing Instance example_externals.

Lemma col3_homogeneous (A : mat3) (t : vec3) : col3 (homogeneous A t) = t.
Proof. destruct_arrays. reflexivity. Qed.

Lemma block33_homogeneous (A : mat3) (t : vec3) : block33 (homogeneous A t) = A.
Proof. destruct_arrays. reflexivity. Qed.

(** With the view matrix composed as [Rt], the centre of a record with an
    orthonormal rotation is [-R.T]. *)
Lemma example_cam_center (cam : CameraInfo) :
  orthonormal (R_ cam) ->
  cam_center cam = Ok (vneg (mvmul3 (R_ cam) (T_ cam))).
Proof.
  intros H. unfold cam_center. simpl. unfold Rt_of.
  rewrite inv_homogeneous by (apply orthonormal_transpose, H).
  simpl. now rewrite col3_homogeneous, transpose_involutive.
Qed.

Lemma inv_translation (t s : vec3) :
  vadd t s = vzero -> inv (translation t) = Ok (translation s).
Proof.
  intros H. apply inv_unique. destruct_arrays. revert H. unfold translation.
  array_unfold. intros [= H1 H2 H3].
  split_tuples; try ring; lra.
Qed.

Lemma desk_cam_infos :
  toydesk_cam_infos desk_world "/desk" None false ".jpg" = Ok [desk_cam_a; desk_cam_b].
Proof.
  assert (Ha : frame_w2c false {| file_path := "./images/a"; transform_matrix := I4 |}
               = Ok I4) by apply inv_I4.
  assert (Hb : frame_w2c false {| file_path := "./images/b";
                                  transform_matrix := translation (2, 0, 0) |}
               = Ok (translation (-2, 0, 0))).
  { unfold frame_w2c. simpl. apply inv_translation.
    array_unfold. split_tuples; ring. }
  cbv [toydesk_cam_infos call_readCamerasFromTransforms]. cbn.
  rewrite Ha, Hb. reflexivity.
Qed.

Lemma I3_like_orthonormal (t : vec3) :
  orthonormal (transpose (block33 (translation t))).
Proof. unfold orthonormal. destruct_arrays. unfold translation. array_unfold. split_tuples; ring. Qed.

Lemma desk_centers :
  cam_centers_of [desk_cam_a; desk_cam_b]
  = Ok [vneg (mvmul3 (R_ desk_cam_a) (T_ desk_cam_a));
        vneg (mvmul3 (R_ desk_cam_b) (T_ desk_cam_b))].
Proof.
  simpl cam_centers_of.
  rewrite (example_cam_center desk_cam_a), (example_cam_center desk_cam_b).
  - reflexivity.
  - apply I3_like_orthonormal.
  - change (R_ desk_cam_a) with (transpose (block33 (translation vzero))).
    apply I3_like_orthonormal.
Qed.

End WorkedInputs.

(** ** Which cameras the normalization sees *)

Section NormalizationInput.
Import OsPath DatasetReaders CameraUtils SpecModel Examples.
Open Scope string_scope.
Open Scope R_scope.

(** A reconstruction load normalizes over its training cameras. *)
Lemma colmap_normalization_from_train {E : Externals} path images is_eval split_yml_name
    (w w' : World) (scene : SceneInfo) :
  readColmapSceneInfo path images is_eval split_yml_name w = (Ok scene, w') ->
  getNerfppNorm (train_cameras scene) = Ok (nerf_normalization scene).
Proof.
  intros H. apply readColmapSceneInfo_ok in H.
  destruct H as (cams & tr & te & nrm & pcd & _ & _ & Hn & _ & ->). exact Hn.
Qed.

(** A free-capture load normalizes over every camera of the manifest,
    before the split is applied. *)
Lemma toydesk_normalization_from_all {E : Externals} path images white_background
    is_eval extension split_yml_name (w w' : World) (scene : SceneInfo) :
  readToyDeskSceneInfo path images white_background is_eval extension split_yml_name w
  = (Ok scene, w') ->
  exists cam_infos,
    split_cameras path is_eval split_yml_name cam_infos w'
    = Ok (train_cameras scene, test_cameras scene) /\
    getNerfppNorm cam_infos = Ok (nerf_normalization scene).
Proof.
  intros H. apply readToyDeskSceneInfo_ok in H.
  destruct H as (cams & nrm & r & c & pcd & tr & te & _ & Hn & _ & _ & Hs & ->).
  exists cams. split; assumption.
Qed.

Existing Instance example_externals.

Lemma desk_norm_all :
  exists nrm, getNerfppNorm [desk_cam_a; desk_cam_b] = Ok nrm /\
              get3 (translate nrm) 0 = -1.
Proof.
  unfold getNerfppNorm. rewrite desk_centers. eexists. split; [reflexivity|].
  unfold desk_cam_a, desk_cam_b, translation. simpl. array_unfold. simpl. lra.
Qed.

Lemma desk_norm_train :
  exists nrm, getNerfppNorm [desk_cam_a] = Ok nrm /\
              get3 (translate nrm) 0 = 0.
Proof.
  unfold getNerfppNorm. simpl cam_centers_of.
  rewrite (example_cam_center desk_cam_a)
    by (change (R_ desk_cam_a) with (transpose (block33 (translation vzero)));
        apply I3_like_orthonormal).
  eexists. split; [reflexivity|].
  unfold desk_cam_a. simpl. array_unfold. simpl. lra.
Qed.

(** The worked free-capture scene loads; its normalization is the one of
    both views. *)
Lemma desk_load_returns :
  exists nrm pcd,
    getNerfppNorm [desk_cam_a; desk_cam_b] = Ok nrm /\
    get3 (translate nrm) 0 = -1 /\
    sceneLoadTypeCallbacks desk_load desk_world
    = (Ok {| point_cloud := pcd;
             train_cameras := [desk_cam_a];
             test_cameras := [desk_cam_b];
             nerf_normalization := nrm;
             ply_path := "/desk/points3d.ply" |}, desk_world).
Proof.
  destruct desk_norm_all as (nrm & Hall & Hx).
  assert (Hbox : exists r c, cam_centers_box [desk_cam_a; desk_cam_b] = Ok (r, c))
    by (eexists; eexists; reflexivity).
  destruct Hbox as (r & c & Hbox).
  assert (Hply : exists pcd, fetchPly desk_world (join "/desk" "points3d.ply") = Ok pcd)
    by (eexists; reflexivity).
  destruct Hply as (pcd & Hply).
  assert (Hsplit : split_cameras "/desk" true (Some "split.yml")
                     [desk_cam_a; desk_cam_b] desk_world
                   = Ok ([desk_cam_a], [desk_cam_b])) by reflexivity.
  exists nrm, pcd. split; [exact Hall|]. split; [exact Hx|].
  exact (readToyDeskSceneInfo_returns "/desk" None false true ".jpg"
           (Some "split.yml") desk_world desk_cam_infos Hall Hbox eq_refl Hply Hsplit).
Qed.

(** C1 (the code departs from it). On the worked free-capture scene, loaded
    with an evaluation split that puts view [a] in the training set and
    view [b] in the test set, the load returns a normalization whose
    [translate] has first coordinate [-1], the negated centroid of both
    views, whereas the training set alone normalizes to a [translate] with
    first coordinate [0]: the test camera has moved the result. *)
Theorem toydesk_normalization_sees_test_camera :
  exists scene nrm_train,
    sceneLoadTypeCallbacks desk_load desk_world = (Ok scene, desk_world) /\
    train_cameras scene = [desk_cam_a] /\
    test_cameras scene = [desk_cam_b] /\
    getNerfppNorm (train_cameras scene) = Ok nrm_train /\
    get3 (translate nrm_train) 0 = 0 /\
    get3 (translate (nerf_normalization scene)) 0 = -1 /\
    nerf_normalization scene <> nrm_train.
Proof.
  destruct desk_load_returns as (nrm & pcd & _ & Hx & Hl).
  destruct desk_norm_train as (nt & Htrain & Hy).
  eexists. exists nt. split; [exact Hl|].
  simpl. repeat split; try assumption.
  intros Heq. rewrite Heq in Hx. lra.
Qed.

End NormalizationInput.

(** ** The train/test split *)

Section Split.
Import OsPath DatasetReaders CameraUtils SpecModel Examples.
Open Scope string_scope.

(** The split of an evaluation load is a partition of the loaded cameras
    when every camera is listed and no name is listed twice. *)
Lemma split_cameras_partition {E : Externals} path yml (cam_infos : list CameraInfo)
    (w : World) doc train_list test_list train test :
  yaml_safe_load w (join path yml) = Ok doc ->
  dict_get "train" doc = Ok train_list ->
  dict_get "test" doc = Ok test_list ->
  (forall c, In c cam_infos ->
             In (image_name c) train_list \/ In (image_name c) test_list) ->
  (forall n, In n train_list -> In n test_list -> False) ->
  split_cameras path true (Some yml) cam_infos w = Ok (train, test) ->
  (List.length train + List.length test = List.length cam_infos)%nat /\
  (forall c1 c2, In c1 train -> In c2 test -> image_name c1 <> image_name c2).
Proof.
  intros Hy Htr Hte Hcov Hdis Hs.
  apply split_cameras_eval in Hs.
  destruct Hs as (doc' & trl & tel & Hy' & Htr' & Hte' & -> & ->).
  rewrite Hy in Hy'. injection Hy' as <-.
  rewrite Htr in Htr'. injection Htr' as <-.
  rewrite Hte in Hte'. injection Hte' as <-.
  split.
  - rewrite <- (filter_length (fun c => str_in (image_name c) train_list) cam_infos).
    f_equal. f_equal. apply filter_ext_in. intros c Hc.
    destruct (str_in (image_name c) train_list) eqn:Ht,
             (str_in (image_name c) test_list) eqn:Hu; try reflexivity.
    + apply str_in_In in Ht, Hu. destruct (Hdis _ Ht Hu).
    + destruct (Hcov c Hc) as [H|H]; apply str_in_In in H; congruence.
  - intros c1 c2 H1 H2 Heq.
    apply filter_In in H1, H2. destruct H1 as [_ H1]. destruct H2 as [_ H2].
    apply str_in_In in H1, H2. rewrite Heq in H1. exact (Hdis _ H1 H2).
Qed.

(** C5, as amended. When an evaluation split is supplied in which no name
    is listed both for training and for testing, and every loaded camera's
    image name is listed, the assembled scene has
    [len(train) + len(test) = len(all loaded cameras)] and no image name
    occurs in both sets; for a reconstruction load and for a free-capture
    load. *)
Theorem split_is_partition_when_all_listed {E : Externals} :
  (forall path images yml (w w' : World) cam_infos doc train_list test_list scene,
      colmap_cam_infos w path images = Ok cam_infos ->
      yaml_safe_load w (join path yml) = Ok doc ->
      dict_get "train" doc = Ok train_list ->
      dict_get "test" doc = Ok test_list ->
      (forall c, In c cam_infos ->
                 In (image_name c) train_list \/ In (image_name c) test_list) ->
      (forall n, In n train_list -> In n test_list -> False) ->
      readColmapSceneInfo path images true (Some yml) w = (Ok scene, w') ->
      (List.length (train_cameras scene) + List.length (test_cameras scene)
       = List.length cam_infos)%nat /\
      (forall c1 c2, In c1 (train_cameras scene) -> In c2 (test_cameras scene) ->
                     image_name c1 <> image_name c2)) /\
  (forall path images white_background extension yml (w w' : World)
          cam_infos doc train_list test_list scene,
      toydesk_cam_infos w path images white_background extension = Ok cam_infos ->
      yaml_safe_load w' (join path yml) = Ok doc ->
      dict_get "train" doc = Ok train_list ->
      dict_get "test" doc = Ok test_list ->
      (forall c, In c cam_infos ->
                 In (image_name c) train_list \/ In (image_name c) test_list) ->
      (forall n, In n train_list -> In n test_list -> False) ->
      readToyDeskSceneInfo path images white_background true extension (Some yml) w
      = (Ok scene, w') ->
      (List.length (train_cameras scene) + List.length (test_cameras scene)
       = List.length cam_infos)%nat /\
      (forall c1 c2, In c1 (train_cameras scene) -> In c2 (test_cameras scene) ->
                     image_name c1 <> image_name c2)).
Proof.
  split.
  - intros path images yml w w' cams doc trl tel scene Hc Hy Htr Hte Hcov Hdis H.
    apply readColmapSceneInfo_ok in H.
    destruct H as (cams' & tr & te & nrm & pcd & Hc' & Hs & _ & _ & ->).
    rewrite Hc in Hc'. injection Hc' as <-. simpl.
    exact (split_cameras_partition _ _ _ _ Hy Htr Hte Hcov Hdis Hs).
  - intros path images wb ext yml w w' cams doc trl tel scene Hc Hy Htr Hte Hcov Hdis H.
    apply readToyDeskSceneInfo_ok in H.
    destruct H as (cams' & nrm & r & c & pcd & tr & te & Hc' & _ & _ & _ & Hs & ->).
    rewrite Hc in Hc'. injection Hc' as <-. simpl.
    exact (split_cameras_partition _ _ _ _ Hy Htr Hte Hcov Hdis Hs).
Qed.

Existing Instance example_externals.

Lemma colmap_cams_sorted :
  colmap_cam_infos colmap_world "/scene" None
  = Ok [colmap_cam "a" "/scene/images/a.jpg" (0, 0, 0)%R;
        colmap_cam "b" "/scene/images/b.png" (2, 0, 0)%R;
        colmap_cam "c" "/scene/images/c.jpg" (0, 0, 1)%R].
Proof. vm_compute. reflexivity. Qed.

Lemma colmap_cam_orthonormal n ip t : orthonormal (R_ (colmap_cam n ip t)).
Proof.
  unfold orthonormal, colmap_cam, quaternion_rotation. simpl. array_unfold.
  split_tuples; ring.
Qed.

Lemma orthonormal_cams_norm (cams : list CameraInfo) :
  cams <> [] ->
  Forall (fun cam => orthonormal (R_ cam)) cams ->
  exists nrm, getNerfppNorm cams = Ok nrm.
Proof.
  intros Hne Hall.
  assert (Hc : exists ps, cam_centers_of cams = Ok ps).
  { clear Hne. induction Hall as [|cam rest Hcam _ IH]; [eexists; reflexivity|].
    simpl. rewrite (example_cam_center cam Hcam). destruct IH as (ps & ->).
    eexists. reflexivity. }
  destruct Hc as (ps & Hps).
  assert (Hps' : ps <> []).
  { intros ->. apply cam_centers_of_length in Hps.
    destruct cams; [congruence|discriminate]. }
  destruct (get_center_and_diag_spec Hps') as (c & d & Hcd & _).
  unfold getNerfppNorm. rewrite Hps. simpl. rewrite Hcd. eexists. reflexivity.
Qed.

Lemma colmap_train_norm n ip t :
  exists nrm, getNerfppNorm [colmap_cam n ip t] = Ok nrm.
Proof.
  apply orthonormal_cams_norm; [discriminate|].
  repeat constructor. apply colmap_cam_orthonormal.
Qed.

(** The worked reconstruction loads, with [a] for training and [b] for
    testing; view [c] is in neither list. *)
Lemma colmap_load_returns :
  exists nrm pcd,
    sceneLoadTypeCallbacks colmap_load colmap_world
    = (Ok {| point_cloud := pcd;
             train_cameras := [colmap_cam "a" "/scene/images/a.jpg" (0, 0, 0)%R];
             test_cameras := [colmap_cam "b" "/scene/images/b.png" (2, 0, 0)%R];
             nerf_normalization := nrm;
             ply_path := "/scene/sparse/points3D.ply" |}, colmap_world).
Proof.
  destruct (colmap_train_norm "a" "/scene/images/a.jpg" (0, 0, 0)%R) as (nrm & Hn).
  assert (Hply : exists pcd,
             fetchPly colmap_world (join "/scene" "sparse/points3D.ply") = Ok pcd)
    by (eexists; reflexivity).
  destruct Hply as (pcd & Hply).
  exists nrm, pcd.
  refine (readColmapSceneInfo_returns "/scene" None true (Some "split.yml") colmap_world
            colmap_cams_sorted _ Hn eq_refl Hply).
  reflexivity.
Qed.

(** The same reconstruction with a split that lists every view for
    training and [a] for testing as well. *)
Lemma overlap_load_returns :
  exists nrm pcd,
    sceneLoadTypeCallbacks overlap_load colmap_world
    = (Ok {| point_cloud := pcd;
             train_cameras := [colmap_cam "a" "/scene/images/a.jpg" (0, 0, 0)%R;
                               colmap_cam "b" "/scene/images/b.png" (2, 0, 0)%R;
                               colmap_cam "c" "/scene/images/c.jpg" (0, 0, 1)%R];
             test_cameras := [colmap_cam "a" "/scene/images/a.jpg" (0, 0, 0)%R];
             nerf_normalization := nrm;
             ply_path := "/scene/sparse/points3D.ply" |}, colmap_world).
Proof.
  assert (Hn : exists nrm,
             getNerfppNorm [colmap_cam "a" "/scene/images/a.jpg" (0, 0, 0)%R;
                            colmap_cam "b" "/scene/images/b.png" (2, 0, 0)%R;
                            colmap_cam "c" "/scene/images/c.jpg" (0, 0, 1)%R] = Ok nrm).
  { apply orthonormal_cams_norm; [discriminate|].
    repeat constructor; apply colmap_cam_orthonormal. }
  destruct Hn as (nrm & Hn).
  assert (Hply : exists pcd,
             fetchPly colmap_world (join "/scene" "sparse/points3D.ply") = Ok pcd)
    by (eexists; reflexivity).
  destruct Hply as (pcd & Hply).
  exists nrm, pcd.
  refine (readColmapSceneInfo_returns "/scene" None true (Some "overlap.yml") colmap_world
            colmap_cams_sorted _ Hn eq_refl Hply).
  reflexivity.
Qed.

(** C5 as stated fails.  In the first load every name the split lists
    matches a loaded camera, yet the scene holds two of the three loaded
    cameras.  In the second every listed name matches a loaded camera, yet
    the image name [a] occurs in the training and in the test set. *)
Lemma split_may_drop_or_repeat_cameras :
  (exists scene cam_infos doc train_list test_list,
    colmap_cam_infos colmap_world "/scene" None = Ok cam_infos /\
    yaml_safe_load colmap_world (join "/scene" "split.yml") = Ok doc /\
    dict_get "train" doc = Ok train_list /\
    dict_get "test" doc = Ok test_list /\
    (forall n, In n train_list \/ In n test_list ->
               exists c, In c cam_infos /\ image_name c = n) /\
    fst (sceneLoadTypeCallbacks colmap_load colmap_world) = Ok scene /\
    (List.length (train_cameras scene) + List.length (test_cameras scene))%nat
    <> List.length cam_infos) /\
  (exists scene cam_infos doc train_list test_list,
    colmap_cam_infos colmap_world "/scene" None = Ok cam_infos /\
    yaml_safe_load colmap_world (join "/scene" "overlap.yml") = Ok doc /\
    dict_get "train" doc = Ok train_list /\
    dict_get "test" doc = Ok test_list /\
    (forall n, In n train_list \/ In n test_list ->
               exists c, In c cam_infos /\ image_name c = n) /\
    fst (sceneLoadTypeCallbacks overlap_load colmap_world) = Ok scene /\
    exists c1 c2, In c1 (train_cameras scene) /\ In c2 (test_cameras scene) /\
                  image_name c1 = image_name c2).
Proof.
  split.
  - destruct colmap_load_returns as (nrm & pcd & Hl).
    eexists. eexists. exists [("train", ["a"]); ("test", ["b"])], ["a"], ["b"].
    split; [exact colmap_cams_sorted|].
    split; [reflexivity|]. split; [reflexivity|]. split; [reflexivity|].
    split.
    + intros n [[<-|[]]|[<-|[]]].
      * eexists. split; [left; reflexivity|reflexivity].
      * eexists. split; [right; left; reflexivity|reflexivity].
    + rewrite Hl. split; [reflexivity|]. simpl. discriminate.
  - destruct overlap_load_returns as (nrm & pcd & Hl).
    eexists. eexists.
    exists [("train", ["a"; "b"; "c"]); ("test", ["a"])], ["a"; "b"; "c"], ["a"].
    split; [exact colmap_cams_sorted|].
    split; [reflexivity|]. split; [reflexivity|]. split; [reflexivity|].
    split.
    + intros n [[<-|[<-|[<-|[]]]]|[<-|[]]].
      * eexists. split; [left; reflexivity|reflexivity].
      * eexists. split; [right; left; reflexivity|reflexivity].
      * eexists. split; [right; right; left; reflexivity|reflexivity].
      * eexists. split; [left; reflexivity|reflexivity].
    + rewrite Hl. split; [reflexivity|]. simpl.
      eexists. eexists. split; [left; reflexivity|]. split; [left; reflexivity|].
      reflexivity.
Qed.

(** On the worked free-capture scene every view is listed once, and the
    split is a partition. *)
Lemma split_is_partition_when_all_listed_witness :
  exists scene,
    sceneLoadTypeCallbacks desk_load desk_world = (Ok scene, desk_world) /\
    (List.length (train_cameras scene) + List.length (test_cameras scene) = 2)%nat /\
    (forall c1 c2, In c1 (train_cameras scene) -> In c2 (test_cameras scene) ->
                   image_name c1 <> image_name c2).
Proof.
  destruct desk_load_returns as (nrm & pcd & _ & _ & Hl).
  eexists. split; [exact Hl|].
  refine (proj2 (@split_is_partition_when_all_listed example_externals)
            "/desk" None false ".jpg" "split.yml" desk_world desk_world
            [desk_cam_a; desk_cam_b] [("train", ["a"]); ("test", ["b"])] ["a"] ["b"] _
            desk_cam_infos eq_refl eq_refl eq_refl _ _ Hl).
  - intros c [<-|[<-|[]]]; [left|right]; left; reflexivity.
  - intros n [<-|[]] [H|[]]. discriminate.
Defined.

End Split.

(** ** The fields of view of a synthetic scene *)

Section FieldOfView.
Import OsPath DatasetReaders CameraUtils SpecModel Examples.
Open Scope string_scope.
Open Scope R_scope.

(** The round trip of the spec: [focalToFov(fovToFocal(f, w), w) = f] for
    [0 < f < pi] and [w > 0]. *)
Lemma fov_round_trip (f : R) (w : Z) :
  0 < f < PI -> (0 < w)%Z -> focalToFov (fovToFocal f w) w = f.
Proof.
  intros [Hf0 Hf1] Hw. unfold focalToFov, fovToFocal.
  assert (Hw' : 0 < IZR w) by now apply IZR_lt.
  assert (Ht : 0 < tan (f / 2)) by (apply tan_gt_0; lra).
  replace (IZR w / (2 * (IZR w / (2 * tan (f / 2))))) with (tan (f / 2))
    by (field; lra).
  rewrite atan_tan by lra. lra.
Qed.

(** Every record of the transforms adapter carries the shared horizontal
    field of view, and a vertical one derived from it and the image size. *)
Lemma transforms_fov {E : Externals} (w : World) path images_dir transformsfile
    d1 d2 isOpenGL extension cams :
  readCamerasFromTransforms w path images_dir transformsfile d1 d2 isOpenGL extension
  = Ok cams ->
  exists contents,
    json_load w (join path transformsfile) = Ok contents /\
    Forall (fun cam =>
              FovX cam = camera_angle_x contents /\
              FovY cam = focal2fov (fov2focal (FovX cam) (width cam)) (height cam))
           cams.
Proof.
  unfold readCamerasFromTransforms.
  destruct (json_load w (join path transformsfile)) as [contents|e]; simpl;
    [|discriminate].
  intros H. exists contents. split; [reflexivity|].
  apply for_enumerate_ok in H.
  induction H as [|frame cam fs cs [i Hi] _ IH]; constructor; [|exact IH].
  unfold readCameraFromTransforms in Hi.
  destruct (transforms_cam_name _ _ _ _) as [cn|e]; simpl in Hi; [|discriminate].
  destruct (frame_w2c _ _) as [m|e]; simpl in Hi; [|discriminate].
  destruct (Image_open_size _ _) as [size|e]; simpl in Hi; [|discriminate].
  injection Hi as <-. simpl. split; reflexivity.
Qed.

Existing Instance example_externals.

Lemma inv_opengl_flip_I4 : frame_w2c true {| file_path := "./train/r_0";
                                             transform_matrix := I4 |}
                           = Ok (opengl_flip I4).
Proof.
  unfold frame_w2c. simpl. apply inv_unique. unfold opengl_flip.
  array_unfold. simpl. split_tuples; ring.
Qed.

(** Called with an argument for each of its four required parameters, the
    adapter reads the worked synthetic scene into one record with both
    fields of view equal to [0.6911]. *)
Lemma lego_adapter_fov :
  exists cam,
    call_readCamerasFromTransforms lego_world
      [VStr "/lego"; VStr "/lego/train"; VStr "transforms_train.json"; VBool false]
      [("isOpenGL", VBool true); ("extension", VStr ".png")] = Ok [cam] /\
    FovX cam = 0.6911 /\ FovY cam = 0.6911 /\ width cam = 800%Z /\ height cam = 800%Z.
Proof.
  eexists. split.
  - cbv [call_readCamerasFromTransforms]. cbn. rewrite inv_opengl_flip_I4. reflexivity.
  - simpl. repeat split.
    apply fov_round_trip; [|reflexivity].
    pose proof PI2_1. lra.
Qed.

(** C2 (the code departs from it). Every load of a synthetic scene raises
    [TypeError] when it calls the adapter, before a manifest is read, and
    leaves the world as it is: the call passes three positional arguments
    for the four required parameters.  No camera record is produced, in
    particular none for the worked scene with [camera_angle_x = 0.6911]. *)
Theorem synthetic_load_raises_type_error :
  (forall (E : Externals) path white_background is_eval extension (w : World),
      sceneLoadTypeCallbacks (Blender path white_background is_eval extension) w
      = (Err TypeError, w)) /\
  sceneLoadTypeCallbacks lego_load lego_world = (Err TypeError, lego_world).
Proof.
  split.
  - intros. apply readNerfSyntheticInfo_raises.
  - apply readNerfSyntheticInfo_raises.
Qed.

End FieldOfView.

(** ** The pose of a camera record *)

Section Pose.
Import OsPath DatasetReaders CameraUtils SpecModel Examples.
Open Scope string_scope.
Open Scope R_scope.

Lemma transposed_orthonormal (raw : mat3) :
  orthonormal raw -> mmul3 (transpose raw) (transpose (transpose raw)) = I3.
Proof. intros H. exact (orthonormal_transpose H). Qed.

Lemma at3_transpose (M : mat3) (i j : nat) :
  (i < 3)%nat -> (j < 3)%nat -> at3 (transpose M) i j = at3 M j i.
Proof.
  intros Hi Hj. destruct_arrays.
  destruct i as [|[|[|i]]], j as [|[|[|j]]]; try lia; reflexivity.
Qed.

Lemma at3_block33 (M : mat4) (i j : nat) :
  (i < 3)%nat -> (j < 3)%nat -> at3 (block33 M) i j = at4 M i j.
Proof.
  intros Hi Hj. destruct_arrays.
  destruct i as [|[|[|i]]], j as [|[|[|j]]]; try lia; reflexivity.
Qed.

Lemma get3_col3 (M : mat4) (i : nat) : (i < 3)%nat -> get3 (col3 M) i = at4 M i 3.
Proof. intros Hi. destruct_arrays. destruct i as [|[|[|i]]]; try lia; reflexivity. Qed.

Lemma rows_orthonormal_iff (M : mat3) : rows_orthonormal M <-> orthonormal M.
Proof.
  unfold rows_orthonormal, orthonormal. destruct_arrays. split.
  - intros H.
    pose proof (H 0%nat 0%nat) as H00. pose proof (H 0%nat 1%nat) as H01.
    pose proof (H 0%nat 2%nat) as H02. pose proof (H 1%nat 0%nat) as H10.
    pose proof (H 1%nat 1%nat) as H11. pose proof (H 1%nat 2%nat) as H12.
    pose proof (H 2%nat 0%nat) as H20. pose proof (H 2%nat 1%nat) as H21.
    pose proof (H 2%nat 2%nat) as H22. clear H.
    revert H00 H01 H02 H10 H11 H12 H20 H21 H22. array_unfold. intros.
    split_tuples; auto with arith.
  - array_unfold. intros H. injection H as H1 H2 H3 H4 H5 H6 H7 H8 H9.
    intros i j Hi Hj.
    destruct i as [|[|[|i]]], j as [|[|[|j]]]; try lia; cbv [at3 get3 Nat.eqb];
      assumption.
Qed.

(** C3. Every record the reconstruction adapter returns stores the
    transpose of the raw rotation [qvec2rotmat(qvec)], entry [(i, j)] of the
    stored rotation being entry [(j, i)] of the raw one, and the raw
    translation [tvec] unchanged.  Every record the transforms adapter
    returns stores the transpose of the rotation block and the translation
    column of the world-to-camera matrix of its frame, which is the inverse
    of the frame's (optionally axis-flipped) matrix.  When the raw rotation
    is orthonormal, the stored rotation [R] satisfies [R . R^T = I]. *)
Theorem stored_pose_is_transposed_raw {E : Externals} :
  (forall (w : World) cam_extrinsics cam_intrinsics images_folder d1 d2 cams,
      readColmapCameras w cam_extrinsics cam_intrinsics images_folder d1 d2 = Ok cams ->
      Forall2 (fun entry cam =>
                 let raw := qvec2rotmat (qvec (snd entry)) in
                 R_ cam = transpose raw /\
                 (forall i j, (i < 3)%nat -> (j < 3)%nat ->
                              at3 (R_ cam) i j = at3 raw j i) /\
                 T_ cam = tvec (snd entry) /\
                 (orthonormal raw -> mmul3 (R_ cam) (transpose (R_ cam)) = I3) /\
                 (rows_orthonormal raw -> rows_orthonormal (R_ cam)))
              cam_extrinsics cams) /\
  (forall (w : World) path images_dir transformsfile d1 d2 isOpenGL extension cams,
      readCamerasFromTransforms w path images_dir transformsfile d1 d2 isOpenGL extension
      = Ok cams ->
      exists contents,
        json_load w (join path transformsfile) = Ok contents /\
        Forall2 (fun frame cam =>
                   exists w2c,
                     frame_w2c isOpenGL frame = Ok w2c /\
                     mmul4 w2c (if isOpenGL then opengl_flip (transform_matrix frame)
                                else transform_matrix frame) = I4 /\
                     R_ cam = transpose (block33 w2c) /\
                     (forall i j, (i < 3)%nat -> (j < 3)%nat ->
                                  at3 (R_ cam) i j = at4 w2c j i) /\
                     T_ cam = col3 w2c /\
                     (forall i, (i < 3)%nat -> get3 (T_ cam) i = at4 w2c i 3) /\
                     (orthonormal (block33 w2c) ->
                      mmul3 (R_ cam) (transpose (R_ cam)) = I3) /\
                     (rows_orthonormal (block33 w2c) -> rows_orthonormal (R_ cam)))
                (frames contents) cams).
Proof.
  split.
  - intros w extr intr folder d1 d2 cams H. unfold readColmapCameras in H.
    apply for_enumerate_ok in H.
    induction H as [|entry cam es cs [i Hi] _ IH]; constructor; [|exact IH].
    unfold readColmapCamera in Hi.
    destruct (zdict_get _ _) as [c|e]; simpl in Hi; [|discriminate].
    destruct (colmap_fov c) as [[fy fx]|e]; simpl in Hi; [|discriminate].
    destruct (colmap_image_path _ _ _) as [ip|e]; simpl in Hi; [|discriminate].
    injection Hi as <-. simpl.
    split; [reflexivity|]. split; [apply at3_transpose|]. split; [reflexivity|].
    split; [apply transposed_orthonormal|].
    intros Hr. apply rows_orthonormal_iff, orthonormal_transpose, rows_orthonormal_iff, Hr.
  - intros w path dir tf d1 d2 gl ext cams H. unfold readCamerasFromTransforms in H.
    destruct (json_load w (join path tf)) as [contents|e]; simpl in H; [|discriminate].
    exists contents. split; [reflexivity|].
    apply for_enumerate_ok in H.
    induction H as [|frame cam fs cs [i Hi] _ IH]; constructor; [|exact IH].
    unfold readCameraFromTransforms in Hi.
    destruct (transforms_cam_name _ _ _ _) as [cn|e]; simpl in Hi; [|discriminate].
    destruct (frame_w2c gl frame) as [m|e] eqn:Hm; simpl in Hi; [|discriminate].
    destruct (Image_open_size _ _) as [size|e]; simpl in Hi; [|discriminate].
    injection Hi as <-. simpl. exists m.
    split; [reflexivity|].
    split; [unfold frame_w2c in Hm; apply inv_left in Hm; exact Hm|].
    split; [reflexivity|].
    split; [intros a b Ha Hb; now rewrite at3_transpose, at3_block33|].
    split; [reflexivity|]. split; [apply get3_col3|].
    split; [apply transposed_orthonormal|].
    intros Hr. apply rows_orthonormal_iff, orthonormal_transpose, rows_orthonormal_iff, Hr.
Qed.

Existing Instance example_externals.

Lemma desk_adapter_returns :
  readCamerasFromTransforms desk_world "/desk" "/desk/images" "transforms_full.json"
    None None false ".jpg" = Ok [desk_cam_a; desk_cam_b].
Proof. exact desk_cam_infos. Qed.

Import MoreExamples.

Lemma cycle_orthonormal : orthonormal cycle.
Proof. unfold orthonormal, cycle. array_unfold. split_tuples; ring. Qed.

Lemma third_turn_is_cycle : quaternion_rotation (1 / 2, 1 / 2, 1 / 2, 1 / 2) = cycle.
Proof. unfold quaternion_rotation, cycle. split_tuples; field. Qed.

Lemma turned_frame_w2c :
  frame_w2c false turned_frame
  = Ok (homogeneous (transpose cycle) (vneg (mvmul3 (transpose cycle) (1, 2, 3)))).
Proof. unfold frame_w2c. simpl. apply inv_homogeneous, cycle_orthonormal. Qed.

Lemma turned_adapter_returns :
  exists cam,
    readCamerasFromTransforms turned_world "/turned" "/turned/images"
      "transforms_full.json" None None false ".jpg" = Ok [cam].
Proof.
  cbv [readCamerasFromTransforms readCameraFromTransforms]. cbn.
  rewrite turned_frame_w2c. eexists. reflexivity.
Qed.

(** Both adapters on a pose with the rotation [cycle], which is not
    symmetric: the record of the reconstruction stores its transpose, and
    the record of the frame stores [cycle] itself, the transpose of the
    rotation of the inverted frame matrix. *)
Lemma stored_pose_is_transposed_raw_witness :
  (exists cam,
      readColmapCameras colmap_world turned_views [(1%Z, pinhole)] "/scene/images"
        None None = Ok [cam] /\
      Forall2 (fun entry cam =>
                 let raw := quaternion_rotation (qvec (snd entry)) in
                 R_ cam = transpose raw /\
                 (forall i j, (i < 3)%nat -> (j < 3)%nat ->
                              at3 (R_ cam) i j = at3 raw j i) /\
                 T_ cam = tvec (snd entry) /\
                 (orthonormal raw -> mmul3 (R_ cam) (transpose (R_ cam)) = I3) /\
                 (rows_orthonormal raw -> rows_orthonormal (R_ cam)))
              turned_views [cam] /\
      at3 (R_ cam) 0 1 = 1 /\ at3 (R_ cam) 1 0 = 0 /\ T_ cam = (1, 2, 3)) /\
  (exists cam contents,
      readCamerasFromTransforms turned_world "/turned" "/turned/images"
        "transforms_full.json" None None false ".jpg" = Ok [cam] /\
      json_load turned_world (join "/turned" "transforms_full.json") = Ok contents /\
      Forall2 (fun frame cam =>
                 exists w2c,
                   frame_w2c false frame = Ok w2c /\
                   mmul4 w2c (transform_matrix frame) = I4 /\
                   R_ cam = transpose (block33 w2c) /\
                   (forall i j, (i < 3)%nat -> (j < 3)%nat ->
                                at3 (R_ cam) i j = at4 w2c j i) /\
                   T_ cam = col3 w2c /\
                   (forall i, (i < 3)%nat -> get3 (T_ cam) i = at4 w2c i 3) /\
                   (orthonormal (block33 w2c) ->
                    mmul3 (R_ cam) (transpose (R_ cam)) = I3) /\
                   (rows_orthonormal (block33 w2c) -> rows_orthonormal (R_ cam)))
              (frames contents) [cam]).
Proof.
  split.
  - assert (Hread : exists cam,
               readColmapCameras colmap_world turned_views [(1%Z, pinhole)]
                 "/scene/images" None None = Ok [cam])
      by (eexists; vm_compute; reflexivity).
    destruct Hread as [cam Hread]. exists cam. split; [exact Hread|].
    pose proof (proj1 (@stored_pose_is_transposed_raw example_externals)
                  colmap_world turned_views [(1%Z, pinhole)] "/scene/images"
                  None None [cam] Hread) as F.
    split; [exact F|].
    inversion F as [|entry c es cs (HR & _ & HT & _) _]; subst.
    cbv zeta in HR. cbn [snd qvec tvec qvec2rotmat example_externals] in HR, HT.
    rewrite third_turn_is_cycle in HR.
    rewrite HR, HT. repeat split; reflexivity.
  - destruct turned_adapter_returns as [cam Hread]. exists cam.
    destruct (proj2 (@stored_pose_is_transposed_raw example_externals)
                turned_world "/turned" "/turned/images" "transforms_full.json" None None
                false ".jpg" [cam] Hread) as (contents & Hj & F).
    exists contents. split; [exact Hread|]. split; [exact Hj|]. exact F.
Defined.

End Pose.

(** ** Unsupported camera models *)

Section UnsupportedModel.
Import OsPath DatasetReaders CameraUtils SpecModel Examples.
Open Scope string_scope.

Lemma colmap_fov_unsupported {E : Externals} (c : ColmapCamera) :
  model c <> "SIMPLE_PINHOLE" -> model c <> "PINHOLE" ->
  colmap_fov c = Err (AssertionError model_not_handled).
Proof.
  intros H1 H2. unfold colmap_fov.
  destruct (String.eqb_spec (model c) "SIMPLE_PINHOLE"); [contradiction|].
  destruct (String.eqb_spec (model c) "PINHOLE"); [contradiction|]. reflexivity.
Qed.

(** C6. When the stores of a reconstruction hold a view whose camera has a
    model other than [SIMPLE_PINHOLE] and [PINHOLE], the loop body raises
    the assertion error on that view wherever it meets it, the adapter
    returns no list of records, and the scene load raises, leaving the
    world as it is. *)
Theorem unsupported_model_aborts_load {E : Externals} (w : World) path images is_eval
    split_yml_name cam_extrinsics cam_intrinsics key extr c :
  read_colmap_stores w path = Ok (cam_extrinsics, cam_intrinsics) ->
  In (key, extr) cam_extrinsics ->
  zassoc (camera_id extr) cam_intrinsics = Some c ->
  model c <> "SIMPLE_PINHOLE" ->
  model c <> "PINHOLE" ->
  (forall images_folder d1 d2 idx,
      readColmapCamera w cam_intrinsics images_folder d1 d2 idx (key, extr)
      = Err (AssertionError model_not_handled)) /\
  (forall images_folder d1 d2,
      exists e, readColmapCameras w cam_extrinsics cam_intrinsics images_folder d1 d2
                = Err e) /\
  (exists e, sceneLoadTypeCallbacks (Colmap path images is_eval split_yml_name) w
             = (Err e, w)).
Proof.
  intros Hs Hin Hc H1 H2.
  assert (Hbody : forall images_folder d1 d2 idx,
             readColmapCamera w cam_intrinsics images_folder d1 d2 idx (key, extr)
             = Err (AssertionError model_not_handled)).
  { intros. unfold readColmapCamera, zdict_get. simpl. rewrite Hc. simpl.
    rewrite (colmap_fov_unsupported c H1 H2). reflexivity. }
  assert (Hloop : forall images_folder d1 d2,
             exists e, readColmapCameras w cam_extrinsics cam_intrinsics
                         images_folder d1 d2 = Err e).
  { intros. unfold readColmapCameras.
    apply (for_enumerate_err _ _ _ Hin). intros i. eexists. apply Hbody. }
  split; [exact Hbody|]. split; [exact Hloop|].
  simpl. unfold readColmapSceneInfo, bindM, readM, colmap_cam_infos.
  rewrite Hs. simpl.
  destruct (Hloop (join path (match images with None => "images" | Some i => i end))
              (optional_folder w (join path "depths_cam"))
              (optional_folder w (join path "depths_est"))) as [e He].
  rewrite He. simpl. eauto.
Qed.

Existing Instance example_externals.

(** The worked reconstruction with a distorted second camera. *)
Lemma unsupported_model_aborts_load_witness :
  (forall images_folder d1 d2 idx,
      readColmapCamera distorted_world [(1%Z, pinhole); (2%Z, opencv)]
        images_folder d1 d2 idx distorted_view
      = Err (AssertionError model_not_handled)) /\
  (forall images_folder d1 d2,
      exists e, readColmapCameras distorted_world
                  [view 1 "a.jpg" (0, 0, 0)%R; distorted_view]
                  [(1%Z, pinhole); (2%Z, opencv)] images_folder d1 d2 = Err e) /\
  (exists e, sceneLoadTypeCallbacks (Colmap "/scene" None false None) distorted_world
             = (Err e, distorted_world)).
Proof.
  apply (@unsupported_model_aborts_load example_externals distorted_world "/scene"
           None false None [view 1 "a.jpg" (0, 0, 0)%R; distorted_view]
           [(1%Z, pinhole); (2%Z, opencv)] 2%Z (snd distorted_view) opencv).
  - reflexivity.
  - right. left. reflexivity.
  - reflexivity.
  - discriminate.
  - discriminate.
Defined.

End UnsupportedModel.

(** ** Probing for the image of an entry *)

Section ImageProbe.
Import OsPath DatasetReaders CameraUtils SpecModel Examples.
Open Scope string_scope.

Lemma colmap_image_path_cases {E : Externals} (w : World)
    (images_folder extr_name : string) :
  let image_path := join images_folder (basename extr_name) in
  let png := rsplit1_head dot image_path ++ ".png" in
  colmap_image_path w images_folder extr_name
  = if path_exists w image_path then Ok image_path
    else if path_exists w png then Ok png
    else Err (FileNotFoundError ("Image file not found at " ++ png)).
Proof.
  intros image_path png. unfold colmap_image_path. fold image_path.
  destruct (path_exists w image_path) eqn:H1; simpl.
  - rewrite H1. reflexivity.
  - fold png. destruct (path_exists w png); reflexivity.
Qed.

Lemma transforms_cam_name_cases {E : Externals} (w : World)
    (images_dir frame_file_path extension last : string) :
  rsplit1_tail slash frame_file_path = Ok last ->
  let cam_name := join images_dir last in
  transforms_cam_name w images_dir frame_file_path extension
  = if path_exists w (cam_name ++ extension) then Ok (cam_name ++ extension)
    else if path_exists w (cam_name ++ ".png") then Ok (cam_name ++ ".png")
    else Err (FileNotFoundError ("Image file not found at " ++ cam_name ++ ".png")).
Proof.
  intros Hl cam_name. unfold transforms_cam_name. rewrite Hl. simpl. fold cam_name.
  destruct (path_exists w (cam_name ++ extension)) eqn:H1; simpl.
  - rewrite H1. reflexivity.
  - destruct (path_exists w (cam_name ++ ".png")); reflexivity.
Qed.

(** The transforms adapter opens the image at [os.path.join(path, cam_name)]:
    the probed file itself when [cam_name] is absolute, a path with the
    scene directory joined in twice when it is relative. *)
Lemma join_absolute (a b : string) : starts_with slash b = true -> join a b = b.
Proof. unfold join. now intros ->. Qed.

Lemma join_relative_scene :
  join "desk" (join (join "desk" "images") "a" ++ ".jpg") = "desk/desk/images/a.jpg".
Proof. reflexivity. Qed.

(** In the reconstruction adapter an entry whose image is absent at
    [images_folder/basename(name)] is retried at the same path with the
    extension [.png]; in the transforms adapter an entry is probed at
    [images_dir/last + extension] and then at [images_dir/last + ".png"].
    In both the probe raises the file-not-found error if and only if
    neither file exists, and otherwise yields the first of the two that
    exists.  The reconstruction adapter, which does not open the image,
    turns an entry whose intrinsics are found and supported into a record
    if and only if one of the two files exists. *)
Lemma image_probe_cases {E : Externals} :
  (forall (w : World) images_folder extr_name,
      let image_path := join images_folder (basename extr_name) in
      let png := rsplit1_head dot image_path ++ ".png" in
      ((exists msg, colmap_image_path w images_folder extr_name
                    = Err (FileNotFoundError msg))
       <-> path_exists w image_path = false /\ path_exists w png = false) /\
      (path_exists w image_path = true ->
       colmap_image_path w images_folder extr_name = Ok image_path) /\
      (path_exists w image_path = false -> path_exists w png = true ->
       colmap_image_path w images_folder extr_name = Ok png)) /\
  (forall (w : World) images_dir frame_file_path extension last,
      rsplit1_tail slash frame_file_path = Ok last ->
      let cam_name := join images_dir last in
      ((exists msg, transforms_cam_name w images_dir frame_file_path extension
                    = Err (FileNotFoundError msg))
       <-> path_exists w (cam_name ++ extension) = false /\
           path_exists w (cam_name ++ ".png") = false) /\
      (path_exists w (cam_name ++ extension) = true ->
       transforms_cam_name w images_dir frame_file_path extension
       = Ok (cam_name ++ extension)) /\
      (path_exists w (cam_name ++ extension) = false ->
       path_exists w (cam_name ++ ".png") = true ->
       transforms_cam_name w images_dir frame_file_path extension
       = Ok (cam_name ++ ".png"))) /\
  (forall (w : World) cam_intrinsics images_folder d1 d2 idx entry intr fov,
      zdict_get (camera_id (snd entry)) cam_intrinsics = Ok intr ->
      colmap_fov intr = Ok fov ->
      let image_path := join images_folder (basename (name (snd entry))) in
      let png := rsplit1_head dot image_path ++ ".png" in
      (is_ok (readColmapCamera w cam_intrinsics images_folder d1 d2 idx entry) = true
       <-> path_exists w image_path = true \/ path_exists w png = true)).
Proof.
  split; [|split].
  - intros w folder nm image_path png.
    pose proof (colmap_image_path_cases w folder nm) as C. cbv zeta in C.
    fold image_path png in C. rewrite C.
    destruct (path_exists w image_path), (path_exists w png);
      (split; [split|split]);
      try solve [intros [msg Hm]; discriminate | intros [? ?]; discriminate
                | reflexivity | discriminate | eauto].
  - intros w dir fp ext last Hl cam_name.
    pose proof (transforms_cam_name_cases w dir fp ext Hl) as C. cbv zeta in C.
    fold cam_name in C. rewrite C.
    destruct (path_exists w (cam_name ++ ext)), (path_exists w (cam_name ++ ".png"));
      (split; [split|split]);
      try solve [intros [msg Hm]; discriminate | intros [? ?]; discriminate
                | reflexivity | discriminate | eauto].
  - intros w intrs folder d1 d2 idx entry intr [fy fx] Hi Hf image_path png.
    unfold readColmapCamera. rewrite Hi. simpl. rewrite Hf. simpl.
    pose proof (colmap_image_path_cases w folder (name (snd entry))) as C.
    cbv zeta in C. fold image_path png in C. rewrite C.
    destruct (path_exists w image_path), (path_exists w png); simpl;
      split; auto; intros [?|?]; discriminate.
Qed.

(** The transforms adapter does not open the file its probe found but the
    file at [os.path.join(path, cam_name)] (line 272): an entry whose probe
    succeeds and whose matrix inverts raises what opening that path
    raises. *)
Lemma transforms_image_opened_at_joined_path {E : Externals} (w : World)
    path images_dir fovx d1 d2 isOpenGL extension idx frame cam_name e :
  transforms_cam_name w images_dir (file_path frame) extension = Ok cam_name ->
  is_ok (frame_w2c isOpenGL frame) = true ->
  Image_open_size w (join path cam_name) = Err e ->
  readCameraFromTransforms w path images_dir fovx d1 d2 isOpenGL extension idx frame
  = Err e.
Proof.
  intros Hn Hw He. unfold readCameraFromTransforms. rewrite Hn. simpl.
  destruct (frame_w2c isOpenGL frame); [|discriminate]. simpl. now rewrite He.
Qed.

Existing Instance example_externals.
Import MoreExamples.

Lemma relative_cam_infos :
  toydesk_cam_infos relative_world "desk" None false ".jpg"
  = Err (FileNotFoundError "desk/desk/images/a.jpg").
Proof.
  assert (Ha : frame_w2c false relative_frame = Ok I4) by apply inv_I4.
  cbv [toydesk_cam_infos call_readCamerasFromTransforms]. cbn.
  rewrite Ha. reflexivity.
Qed.

(** C8 (the code departs from it). For the free-capture scene under the
    relative scene path [desk], the probe of the transforms adapter finds
    the image of frame [a] with its original extension, at
    [desk/images/a.jpg], which exists; the adapter then opens
    [os.path.join(path, cam_name)], that is [desk/desk/images/a.jpg], with
    the scene path joined in a second time, and the entry and the whole
    load raise the file-not-found error although the image exists.  The
    same scene under the absolute path [/desk] loads. *)
Theorem probed_image_not_opened_for_relative_scene :
  path_exists relative_world "desk/images/a.jpg" = true /\
  transforms_cam_name relative_world (join "desk" "images") (file_path relative_frame)
    ".jpg" = Ok "desk/images/a.jpg" /\
  join "desk" "desk/images/a.jpg" = "desk/desk/images/a.jpg" /\
  (forall fovx d1 d2 idx,
      readCameraFromTransforms relative_world "desk" (join "desk" "images") fovx d1 d2
        false ".jpg" idx relative_frame
      = Err (FileNotFoundError "desk/desk/images/a.jpg")) /\
  sceneLoadTypeCallbacks (ToyDesk "desk" None false false ".jpg" None) relative_world
  = (Err (FileNotFoundError "desk/desk/images/a.jpg"), relative_world) /\
  (exists scene,
      sceneLoadTypeCallbacks desk_load desk_world = (Ok scene, desk_world) /\
      List.length (train_cameras scene) = 1%nat).
Proof.
  split; [reflexivity|]. split; [reflexivity|]. split; [reflexivity|].
  split; [|split].
  - intros fovx d1 d2 idx.
    apply (@transforms_image_opened_at_joined_path example_externals relative_world
             "desk" (join "desk" "images") fovx d1 d2 false ".jpg" idx relative_frame
             "desk/images/a.jpg").
    + reflexivity.
    + unfold frame_w2c. simpl. now rewrite inv_I4.
    + reflexivity.
  - cbn [sceneLoadTypeCallbacks]. unfold readToyDeskSceneInfo, bindM, readM.
    now rewrite relative_cam_infos.
  - destruct desk_load_returns as (nrm & pcd & _ & _ & Hl).
    eexists. split; [exact Hl|reflexivity].
Qed.

End ImageProbe.

(** ** The matrix composed from a record *)

Section ComposedMatrix.
Import OsPath DatasetReaders CameraUtils SpecModel Examples.
Open Scope string_scope.
Open Scope R_scope.

Lemma quarter_turn_orthonormal : orthonormal quarter_turn.
Proof. unfold orthonormal, quarter_turn. array_unfold. split_tuples; ring. Qed.

(** The inverse of [Rt] for an orthonormal stored rotation. *)
Lemma inv_Rt_of (R : mat3) (T : vec3) :
  orthonormal R ->
  inv (Rt_of R T) = Ok (homogeneous R (vneg (mvmul3 R T))).
Proof.
  intros H. unfold Rt_of.
  rewrite inv_homogeneous by (apply orthonormal_transpose, H).
  now rewrite transpose_involutive.
Qed.

(** C7 as stated fails. For the orthonormal quarter turn [R] and
    [T = (1,0,0)], the matrix [Rt] that [camera_to_JSON] composes is not
    [[R^T, -R^T.T],[0,1]], and neither is its inverse, which the function
    names [W2C]. *)
Lemma composed_matrix_differs_from_spec :
  orthonormal quarter_turn /\
  Rt_of quarter_turn unit_x <> spec_worldToView quarter_turn unit_x /\
  exists W2C, inv (Rt_of quarter_turn unit_x) = Ok W2C /\
              W2C <> spec_worldToView quarter_turn unit_x.
Proof.
  split; [exact quarter_turn_orthonormal|]. split.
  - unfold Rt_of, spec_worldToView, quarter_turn, unit_x. array_unfold.
    intros H. injection H as H. lra.
  - eexists. split; [apply inv_Rt_of, quarter_turn_orthonormal|].
    unfold spec_worldToView, quarter_turn, unit_x. array_unfold.
    intros H. injection H as H. lra.
Qed.

(** C7, as amended. The matrix [camera_to_JSON] composes from a record
    with rotation [R] and translation [T] is [Rt = [[R^T, T],[0,1]]]; when
    [R] is orthonormal its inverse is [[R, -R.T],[0,1]], so that the entry
    returned has [rotation = R] and [position = -R.T]. *)
Theorem composed_matrix_and_inverse {E : Externals} (id : Z) (camera : CameraInfo) :
  let R := R_ camera in
  let T := T_ camera in
  block33 (Rt_of R T) = transpose R /\
  col3 (Rt_of R T) = T /\
  get4 (Rt_of R T) 3 = (0, 0, 0, 1) /\
  (orthonormal R ->
   inv (Rt_of R T) = Ok (homogeneous R (vneg (mvmul3 R T))) /\
   exists entry, camera_to_JSON id camera = Ok entry /\
                 rotation entry = R /\
                 position entry = vneg (mvmul3 R T)).
Proof.
  intros R T. split; [apply block33_homogeneous|]. split; [apply col3_homogeneous|].
  split; [reflexivity|].
  intros H. split; [exact (inv_Rt_of T H)|].
  unfold camera_to_JSON. fold R T. rewrite (inv_Rt_of T H). simpl.
  eexists. split; [reflexivity|]. simpl.
  split; [apply block33_homogeneous|apply col3_homogeneous].
Qed.

Existing Instance example_externals.

Lemma composed_matrix_and_inverse_witness :
  orthonormal (R_ turned_cam) /\
  exists entry, camera_to_JSON 0 turned_cam = Ok entry /\
                rotation entry = R_ turned_cam /\
                position entry = vneg (mvmul3 (R_ turned_cam) (T_ turned_cam)).
Proof.
  split; [exact quarter_turn_orthonormal|].
  exact (proj2 (proj2 (proj2 (proj2
           (@composed_matrix_and_inverse example_externals 0%Z turned_cam)))
           quarter_turn_orthonormal)).
Defined.

End ComposedMatrix.

(** ** The theorems on the worked inputs *)

Section Witnesses.
Import OsPath DatasetReaders CameraUtils SpecModel Examples.
Open Scope string_scope.
Open Scope R_scope.

Existing Instance example_externals.

(** The normalizer on the two views of the worked free-capture scene, at
    the origin and at [(2,0,0)], and on a single camera turned by a quarter
    turn, whose position [(0,-1,0)] is neither its translation nor the
    negated translation. *)
Lemma desk_positions :
  Forall2 (fun cam p => is_world_position (getWorld2View2 (R_ cam) (T_ cam)) p)
          [desk_cam_a; desk_cam_b] [(0, 0, 0); (2, 0, 0)].
Proof.
  constructor; [|constructor; [|constructor]].
  - exists I4. split; [|split]; [| |reflexivity];
      cbv [getWorld2View2 example_externals Rt_of desk_cam_a R_ T_];
      array_unfold; split_tuples; ring.
  - exists (translation (2, 0, 0)). split; [|split]; [| |reflexivity];
      cbv [getWorld2View2 example_externals Rt_of desk_cam_b R_ T_ translation];
      array_unfold; split_tuples; ring.
Qed.

Lemma turned_position :
  is_world_position (getWorld2View2 (R_ turned_cam) (T_ turned_cam)) (0, -1, 0).
Proof.
  exists (homogeneous quarter_turn (0, -1, 0)). split; [|split]; [| |reflexivity];
    cbv [getWorld2View2 example_externals Rt_of turned_cam R_ T_ quarter_turn];
    array_unfold; split_tuples; ring.
Qed.

Lemma normalizer_centroid_and_radius_witness :
  (exists c d,
      getNerfppNorm [desk_cam_a; desk_cam_b]
      = Ok {| translate := vneg c; radius := 1.1 * d |} /\
      (forall i, (i < 3)%nat -> get3 (vneg c) i = - get3 c i) /\
      is_centroid c [(0, 0, 0); (2, 0, 0)] /\
      is_max_distance d c [(0, 0, 0); (2, 0, 0)]) /\
  getNerfppNorm [turned_cam] = Ok {| translate := vneg (0, -1, 0); radius := 0 |}.
Proof.
  split.
  - refine (proj1 (@normalizer_centroid_and_radius example_externals)
              [desk_cam_a; desk_cam_b] _ _ desk_positions).
    discriminate.
  - exact (proj2 (@normalizer_centroid_and_radius example_externals)
             turned_cam _ turned_position).
Defined.

(** The worked reconstruction, whose point cloud is cached: the load
    returns the cached cloud and leaves the world as it is, and so does a
    second load. *)
Lemma cache_hit_reads_only_witness :
  path_exists colmap_world (cache_path colmap_load) = true /\
  snd (sceneLoadTypeCallbacks colmap_load colmap_world) = colmap_world /\
  exists scene,
    sceneLoadTypeCallbacks colmap_load colmap_world = (Ok scene, colmap_world) /\
    ply_path scene = cache_path colmap_load /\
    fetchPly colmap_world (cache_path colmap_load) = Ok (point_cloud scene) /\
    (forall s2 w2,
        sceneLoadTypeCallbacks colmap_load colmap_world = (Ok s2, w2) ->
        w2 = colmap_world /\ point_cloud s2 = point_cloud scene).
Proof.
  pose proof (@cache_hit_reads_only example_externals colmap_load colmap_world)
    as [Hit Twice].
  destruct (Hit eq_refl) as [Hw Hs].
  split; [reflexivity|]. split; [exact Hw|].
  destruct colmap_load_returns as (nrm & pcd & Hl).
  eexists. split; [exact Hl|].
  rewrite Hl in Hs. destruct (Hs _ eq_refl) as [Hp Hf].
  split; [exact Hp|]. split; [exact Hf|].
  intros s2 w2 H2. exact (Twice _ _ _ _ Hl H2).
Defined.

End Witnesses.

(* ================================================================= *)
(** * Further properties of the code *)

(** ** Writing and reading the point-cloud file *)

Section PlyFile.
Import OsPath DatasetReaders CameraUtils Derived.
Context {E : Externals}.
Open Scope string_scope.

Lemma touches_only_refl (p : string) (w : World) : touches_only p w w.
Proof. repeat split; auto. reflexivity. Qed.

Lemma touches_only_trans (p : string) (w1 w2 w3 : World) :
  touches_only p w1 w2 -> touches_only p w2 w3 -> touches_only p w1 w3.
Proof.
  intros (A1 & B1 & C1) (A2 & B2 & C2). repeat split.
  - intros q Hq. now rewrite A2, A1.
  - auto.
  - etransitivity; eassumption.
Qed.

Lemma touches_only_write (p : string) (w : World) (f : File) :
  touches_only p w (write_file w p f).
Proof.
  repeat split; simpl.
  - intros q Hq. destruct (String.eqb_spec q p); [contradiction|reflexivity].
  - intros q. unfold path_exists. simpl. destruct (String.eqb q p); [reflexivity|auto].
  - reflexivity.
Qed.

Lemma touches_only_draw (p : string) (n : Z) (w : World) :
  touches_only p w (snd (np_random_random n w)).
Proof. repeat split; simpl; auto. lia. Qed.

Lemma storePly_cases (path : string) (xyz rgb : list vec3) (w : World) :
  storePly path xyz rgb w
  = if Nat.eqb (List.length xyz) (List.length rgb)
    then if colours_fit rgb
         then (Ok tt, write_file w path (FPly (stored_rows xyz rgb)))
         else (Err OverflowError, w)
    else (Err ValueError, w).
Proof. unfold storePly. destruct (Nat.eqb _ _), (colours_fit rgb); reflexivity. Qed.

Lemma storePly_touches_only (path : string) (xyz rgb : list vec3) (w : World) :
  touches_only path w (snd (storePly path xyz rgb w)).
Proof.
  rewrite storePly_cases. destruct (Nat.eqb _ _), (colours_fit rgb); simpl;
    try apply touches_only_refl.
  apply touches_only_write.
Qed.

Lemma storePly_rng (path : string) (xyz rgb : list vec3) (w : World) :
  rng (snd (storePly path xyz rgb w)) = rng w.
Proof.
  rewrite storePly_cases. destruct (Nat.eqb _ _), (colours_fit rgb); reflexivity.
Qed.

Lemma fits_u1_spec (x : R) : fits_u1 x = true <-> -1 < x < 256.
Proof.
  unfold fits_u1. destruct (Rlt_dec (-1) x), (Rlt_dec x 256); split;
    try discriminate; try reflexivity; try tauto; intros [? ?]; contradiction.
Qed.

Lemma colour_fits_spec (c : vec3) :
  fits_u1 (get3 c 0) && fits_u1 (get3 c 1) && fits_u1 (get3 c 2) = true <-> fits_byte c.
Proof.
  rewrite !andb_true_iff, !fits_u1_spec. unfold fits_byte. split.
  - intros [[H0 H1] H2] i Hi. destruct i as [|[|[|i]]]; try assumption; lia.
  - intros H. repeat split; apply H; lia.
Qed.

Lemma colours_fit_spec (rgb : list vec3) :
  colours_fit rgb = true <-> Forall fits_byte rgb.
Proof.
  unfold colours_fit. rewrite forallb_forall, Forall_forall. split.
  - intros H c Hc. apply colour_fits_spec, H, Hc.
  - intros H c Hc. apply colour_fits_spec, H, Hc.
Qed.


(** The colours the readers of the sparse points return fit a byte. *)
Lemma byte_colours_fit (l : list (Byte.byte * Byte.byte * Byte.byte)) :
  colours_fit (map byte_colour l) = true.
Proof.
  apply colours_fit_spec, Forall_forall. intros c Hc.
  apply in_map_iff in Hc. destruct Hc as ([[r g] b] & <- & _).
  assert (Hb : forall x : Byte.byte, -1 < byte_value x < 256).
  { intros x. unfold byte_value. pose proof (Byte.to_N_bounded x) as Hx.
    split.
    - apply Rlt_le_trans with 0; [lra|]. apply IZR_le. lia.
    - apply IZR_lt. lia. }
  intros i Hi. destruct i as [|[|[|i]]]; simpl; try apply Hb; lia.
Qed.

Lemma read_points3D_fit (w : World) (p : string) (xyz rgb : list vec3) :
  read_points3D_binary w p = Ok (xyz, rgb) \/ read_points3D_text w p = Ok (xyz, rgb) ->
  colours_fit rgb = true.
Proof.
  unfold read_points3D_binary, read_points3D_text, read_with.
  destruct (fs w p) as [[]|]; intros [H|H]; try discriminate;
    injection H as _ <-; apply byte_colours_fit.
Qed.

Lemma fetchPly_written (path : string) (xyz rgb : list vec3) (w : World) :
  List.length xyz = List.length rgb ->
  fetchPly (write_file w path (FPly (stored_rows xyz rgb))) path
  = Ok (stored_cloud xyz rgb).
Proof.
  intros Hlen. unfold fetchPly, PlyData_read, read_with, write_file. simpl.
  rewrite String.eqb_refl. simpl. unfold stored_cloud, stored_rows. f_equal.
  revert rgb Hlen. induction xyz as [|p ps IH]; intros [|c cs] Hlen;
    try discriminate; [reflexivity|].
  injection Hlen as Hlen. specialize (IH cs Hlen). simpl in *.
  injection IH as IHp IHc. rewrite IHp, IHc. reflexivity.
Qed.


End PlyFile.

(** ** What a load writes *)

Section LoadEffects.
Import OsPath DatasetReaders CameraUtils Derived Examples.
Context {E : Externals}.
Open Scope string_scope.

Lemma colmap_point_cloud_touches_only (path : string) (w : World) :
  touches_only (join path "sparse/points3D.ply") w (snd (colmap_point_cloud path w)) /\
  rng (snd (colmap_point_cloud path w)) = rng w.
Proof.
  unfold colmap_point_cloud, bindM, getM, retM, readM.
  destruct (path_exists w (join path "sparse/points3D.ply")); simpl.
  - split; [apply touches_only_refl|reflexivity].
  - destruct (try_except _ _) as [pts|e]; simpl;
      [|split; [apply touches_only_refl|reflexivity]].
    pose proof (storePly_touches_only (join path "sparse/points3D.ply")
                  (fst pts) (snd pts) w) as T.
    pose proof (storePly_rng (join path "sparse/points3D.ply")
                  (fst pts) (snd pts) w) as Hr.
    destruct (storePly _ _ _ w) as [[u|e] w1]; simpl in *.
    + split; assumption.
    + split; assumption.
Qed.

Lemma generated_point_cloud_touches_only (ply : string) (n : Z)
    (f : list vec3 -> list vec3) (g : list vec3 -> list vec3) (w : World) :
  touches_only ply w
    (snd ((r1 <~ np_random_random n ;;
           r2 <~ np_random_random n ;;
           storePly ply (f r1) (g r2)) w)).
Proof.
  unfold bindM, np_random_random. rewrite storePly_cases.
  destruct (Nat.eqb _ _); [destruct (colours_fit _)|];
    unfold touches_only, path_exists; simpl; repeat split; auto; try lia.
  - intros q Hq. destruct (String.eqb_spec q ply); [contradiction|reflexivity].
  - intros q. destruct (String.eqb q ply); [reflexivity|auto].
Qed.

Lemma toydesk_point_cloud_touches_only (ply : string) (r : R) (c : vec3) (w : World) :
  touches_only ply w (snd (toydesk_point_cloud ply r c w)).
Proof.
  unfold toydesk_point_cloud. unfold bindM at 1 2. unfold getM, retM, readM.
  destruct (path_exists w ply); simpl.
  - apply touches_only_refl.
  - match goal with
    | |- touches_only _ _ (snd (let (_, _) := ?m w in _)) =>
        pose proof (generated_point_cloud_touches_only ply 360000
          (map (fun p => mk3 (fun i => (get3 p i - 0.5) * 4 * r + get3 c i)%R))
          (fun r2 => map (fun s => scale255 (SH2RGB s))
                       (map (fun p => mk3 (fun i => (get3 p i / 255.0)%R)) r2)) w) as T;
        destruct (m w) as [[u|e] w1]
    end; simpl in *.
    + exact T.
    + exact T.
Qed.

(** X2. Whatever a scene load does, and whether it returns or raises, it
    changes no file other than its point-cloud cache file, removes no file,
    and never rewinds the random generator; a reconstruction load and a
    synthetic load draw no random number at all. *)
Theorem load_writes_only_cache (c : SceneLoad) (w : World) :
  touches_only (cache_path c) w (snd (sceneLoadTypeCallbacks c w)) /\
  (match c with
   | ToyDesk _ _ _ _ _ _ => True
   | _ => rng (snd (sceneLoadTypeCallbacks c w)) = rng w
   end).
Proof.
  destruct c as [path images ev yml|path wb ev ext|path images wb ev ext yml];
    cbn [sceneLoadTypeCallbacks cache_path].
  - unfold readColmapSceneInfo, bindM, readM, retM.
    destruct (colmap_cam_infos w path images) as [cams|e];
      [|split; [apply touches_only_refl|reflexivity]].
    destruct (split_cameras path ev yml cams w) as [[tr te]|e];
      [|split; [apply touches_only_refl|reflexivity]].
    destruct (getNerfppNorm tr) as [nrm|e];
      [|split; [apply touches_only_refl|reflexivity]].
    pose proof (colmap_point_cloud_touches_only path w) as T.
    destruct (colmap_point_cloud path w) as [[pcd|e] w1]; exact T.
  - rewrite (readNerfSyntheticInfo_raises path wb ev ext w).
    split; [apply touches_only_refl|reflexivity].
  - split; [|exact I].
    unfold readToyDeskSceneInfo, bindM, readM, retM.
    destruct (toydesk_cam_infos w _ _ _ _) as [cams|e]; [|apply touches_only_refl].
    destruct (getNerfppNorm cams) as [nrm|e]; [|apply touches_only_refl].
    destruct (cam_centers_box cams) as [[r cc]|e]; [|apply touches_only_refl].
    pose proof (toydesk_point_cloud_touches_only (join path "points3d.ply") r cc w) as T.
    destruct (toydesk_point_cloud _ r cc w) as [[pcd|e] w1]; [|exact T].
    destruct (split_cameras path ev yml cams w1) as [[tr te]|e]; exact T.
Qed.

End LoadEffects.

(** ** The first load of a reconstruction *)

Section Conversion.
Import OsPath DatasetReaders CameraUtils Derived Examples.
Context {E : Externals}.
Open Scope string_scope.

(** X3. When the cache file of a reconstruction is absent, the point-cloud
    step reads the sparse points from [points3D.bin], and from
    [points3D.txt] only when the binary store cannot be read; it writes them
    to the cache file and returns what [fetchPly] reads back from it.  When
    neither store can be read it raises the error of the text reader and
    writes nothing. *)
Theorem colmap_points_converted_on_miss (path : string) (w : World) :
  path_exists w (join path "sparse/points3D.ply") = false ->
  (forall xyz rgb,
      (read_points3D_binary w (join path "sparse/points3D.bin") = Ok (xyz, rgb) \/
       (is_ok (read_points3D_binary w (join path "sparse/points3D.bin")) = false /\
        read_points3D_text w (join path "sparse/points3D.txt") = Ok (xyz, rgb))) ->
      List.length xyz = List.length rgb ->
      colmap_point_cloud path w
      = (Ok (stored_cloud xyz rgb),
         write_file w (join path "sparse/points3D.ply") (FPly (stored_rows xyz rgb)))) /\
  (forall e,
      is_ok (read_points3D_binary w (join path "sparse/points3D.bin")) = false ->
      read_points3D_text w (join path "sparse/points3D.txt") = Err e ->
      colmap_point_cloud path w = (Err e, w)).
Proof.
  intros Hmiss. split.
  - intros xyz rgb Hsrc Hlen.
    assert (Hread : try_except (read_points3D_binary w (join path "sparse/points3D.bin"))
                      (read_points3D_text w (join path "sparse/points3D.txt"))
                    = Ok (xyz, rgb)).
    { destruct Hsrc as [-> | [Hb ->]]; [reflexivity|].
      destruct (read_points3D_binary w _); [discriminate|reflexivity]. }
    unfold colmap_point_cloud, bindM, getM, retM, readM. rewrite Hmiss.
    cbv beta iota delta [negb]. rewrite Hread. cbv beta iota delta [fst snd].
    assert (Hfit : colours_fit rgb = true).
    { destruct Hsrc as [Hb | [_ Ht]];
        [eapply read_points3D_fit; left; exact Hb
        |eapply read_points3D_fit; right; exact Ht]. }
    rewrite storePly_cases, (proj2 (Nat.eqb_eq _ _) Hlen), Hfit.
    now rewrite fetchPly_written.
  - intros e Hb Ht.
    unfold colmap_point_cloud, bindM, getM, retM, readM. rewrite Hmiss.
    cbv beta iota delta [negb]. rewrite Ht.
    destruct (read_points3D_binary w _); [discriminate|reflexivity].
Qed.

End Conversion.

(** ** The order of the cameras of a reconstruction *)

Section CameraOrder.
Import OsPath DatasetReaders CameraUtils Derived Examples.
Open Scope string_scope.

Lemma ascii_compare_refl (a : ascii) : Ascii.compare a a = Eq.
Proof. unfold Ascii.compare. apply N.compare_refl. Qed.

Lemma ascii_compare_lt_trans (a b c : ascii) :
  Ascii.compare a b = Lt -> Ascii.compare b c = Lt -> Ascii.compare a c = Lt.
Proof.
  unfold Ascii.compare. rewrite !N.compare_lt_iff. apply N.lt_trans.
Qed.

Lemma string_compare_refl (s : string) : String.compare s s = Eq.
Proof.
  induction s as [|a s IH]; simpl; [reflexivity|]. now rewrite ascii_compare_refl.
Qed.

Lemma string_compare_lt_trans (s1 : string) :
  forall s2 s3,
    String.compare s1 s2 = Lt -> String.compare s2 s3 = Lt -> String.compare s1 s3 = Lt.
Proof.
  induction s1 as [|a s1 IH]; intros [|b s2] [|c s3]; simpl; try discriminate; auto.
  destruct (Ascii.compare a b) eqn:Hab; try discriminate;
    destruct (Ascii.compare b c) eqn:Hbc; try discriminate; intros H1 H2.
  - apply Ascii.compare_eq_iff in Hab, Hbc. subst. rewrite ascii_compare_refl. eauto.
  - apply Ascii.compare_eq_iff in Hab. subst. now rewrite Hbc.
  - apply Ascii.compare_eq_iff in Hbc. subst. now rewrite Hab.
  - now rewrite (ascii_compare_lt_trans _ _ _ Hab Hbc).
Qed.

Lemma string_leb_trans (s1 s2 s3 : string) :
  String.leb s1 s2 = true -> String.leb s2 s3 = true -> String.leb s1 s3 = true.
Proof.
  unfold String.leb.
  destruct (String.compare s1 s2) eqn:H12; try discriminate;
    destruct (String.compare s2 s3) eqn:H23; try discriminate; intros _ _.
  - apply String.compare_eq_iff in H12, H23. subst. now rewrite string_compare_refl.
  - apply String.compare_eq_iff in H12. subst. now rewrite H23.
  - apply String.compare_eq_iff in H23. subst. now rewrite H12.
  - now rewrite (string_compare_lt_trans _ _ _ H12 H23).
Qed.

Lemma name_le_trans (c d e : CameraInfo) : name_le c d -> name_le d e -> name_le c e.
Proof. apply string_leb_trans. Qed.

Lemma insert_by_name_perm (c : CameraInfo) (l : list CameraInfo) :
  Permutation (c :: l) (insert_by_name c l).
Proof.
  induction l as [|d rest IH]; simpl; [reflexivity|].
  destruct (String.ltb (image_name d) (image_name c)); [|reflexivity].
  rewrite perm_swap. now constructor.
Qed.

Lemma insert_by_name_sorted (c : CameraInfo) (l : list CameraInfo) :
  StronglySorted name_le l -> StronglySorted name_le (insert_by_name c l).
Proof.
  induction 1 as [|d rest Hs IH Hd]; simpl; [repeat constructor|].
  unfold String.ltb.
  destruct (String.compare (image_name d) (image_name c)) eqn:Hc.
  - assert (Hcd : name_le c d).
    { unfold name_le, String.leb. rewrite String.compare_antisym, Hc. reflexivity. }
    constructor; [now constructor|]. constructor; [exact Hcd|].
    eapply Forall_impl; [|exact Hd]. intros e. now apply name_le_trans.
  - constructor; [exact IH|].
    eapply Permutation_Forall; [apply insert_by_name_perm|].
    constructor; [|exact Hd]. unfold name_le, String.leb. now rewrite Hc.
  - assert (Hcd : name_le c d).
    { unfold name_le, String.leb. rewrite String.compare_antisym, Hc. reflexivity. }
    constructor; [now constructor|]. constructor; [exact Hcd|].
    eapply Forall_impl; [|exact Hd]. intros e. now apply name_le_trans.
Qed.

Lemma insert_by_name_stable (n : string) (c : CameraInfo) (l : list CameraInfo) :
  filter (fun d => String.eqb (image_name d) n) (insert_by_name c l)
  = filter (fun d => String.eqb (image_name d) n) (c :: l).
Proof.
  induction l as [|d rest IH]; [reflexivity|]. simpl insert_by_name.
  unfold String.ltb.
  destruct (String.compare (image_name d) (image_name c)) eqn:Hc; try reflexivity.
  cbn [filter] in *. rewrite IH.
  destruct (String.eqb_spec (image_name c) n) as [Hn|Hn]; [|reflexivity].
  destruct (String.eqb_spec (image_name d) n) as [Hd|Hd]; [|reflexivity].
  rewrite Hn, Hd, string_compare_refl in Hc. discriminate.
Qed.

Lemma filter_sorted (f : CameraInfo -> bool) (l : list CameraInfo) :
  StronglySorted name_le l -> StronglySorted name_le (filter f l).
Proof.
  induction 1 as [|d rest Hs IH Hd]; simpl; [constructor|].
  destruct (f d); [|exact IH]. constructor; [exact IH|].
  apply Forall_forall. intros e He. apply filter_In in He.
  rewrite Forall_forall in Hd. now apply Hd.
Qed.

Lemma sorted_by_name_sorted (l : list CameraInfo) :
  Permutation l (sorted_by_name l) /\ StronglySorted name_le (sorted_by_name l).
Proof.
  induction l as [|c rest [IHp IHs]]; simpl; [split; constructor|]. split.
  - etransitivity; [|apply insert_by_name_perm]. now constructor.
  - now apply insert_by_name_sorted.
Qed.

(** X4. The cameras of a reconstruction are the adapter's records sorted by
    image name: a permutation of the records, in ascending code-point order
    of the names, with records of equal name kept in arrival order.  The
    training and the test cameras of the scene are in that order too. *)
Theorem colmap_cameras_sorted_by_name {E : Externals} :
  (forall l : list CameraInfo,
      Permutation l (sorted_by_name l) /\
      StronglySorted name_le (sorted_by_name l) /\
      (forall n, filter (fun d => String.eqb (image_name d) n) (sorted_by_name l)
                 = filter (fun d => String.eqb (image_name d) n) l)) /\
  (forall path images is_eval split_yml_name (w w' : World) scene,
      readColmapSceneInfo path images is_eval split_yml_name w = (Ok scene, w') ->
      StronglySorted name_le (train_cameras scene) /\
      StronglySorted name_le (test_cameras scene)).
Proof.
  split.
  - intros l. destruct (sorted_by_name_sorted l) as [Hp Hs].
    split; [exact Hp|]. split; [exact Hs|].
    intros n. induction l as [|c rest IH]; [reflexivity|]. simpl sorted_by_name.
    rewrite insert_by_name_stable. cbn [filter].
    rewrite IH by apply sorted_by_name_sorted. reflexivity.
  - intros path images ev yml w w' scene H.
    apply readColmapSceneInfo_ok in H.
    destruct H as (cams & tr & te & nrm & pcd & Hc & Hsp & _ & _ & ->). simpl.
    assert (Hs : StronglySorted name_le cams).
    { unfold colmap_cam_infos in Hc.
      destruct (read_colmap_stores w path) as [[ex intr]|e]; simpl in Hc; [|discriminate].
      destruct (readColmapCameras w ex intr _ _ _) as [un|e]; simpl in Hc; [|discriminate].
      injection Hc as <-. apply sorted_by_name_sorted. }
    destruct ev.
    + destruct yml as [yml|]; [|discriminate].
      apply split_cameras_eval in Hsp.
      destruct Hsp as (doc & trl & tel & _ & _ & _ & -> & ->).
      split; now apply filter_sorted.
    + injection Hsp as <- <-. split; [exact Hs|constructor].
Qed.

End CameraOrder.

(** ** The records of the two adapters *)

Section Records.
Import OsPath DatasetReaders CameraUtils Derived Examples.
Open Scope string_scope.

Lemma rsplit1_none (c : ascii) (s : string) :
  has_char c s = false -> rsplit1 c s = None.
Proof.
  induction s as [|a s IH]; simpl; [reflexivity|].
  intros H. apply orb_false_iff in H. destruct H as [Ha Hs].
  now rewrite IH, Ha by exact Hs.
Qed.

Lemma rsplit1_tail_clean (c : ascii) (s : string) :
  forall h t, rsplit1 c s = Some (h, t) -> has_char c t = false.
Proof.
  induction s as [|a s IH]; simpl; intros h t H; [discriminate|].
  destruct (rsplit1 c s) as [[h' t']|] eqn:Hr.
  - injection H as <- <-. eauto.
  - destruct (Ascii.eqb a c); [|discriminate]. injection H as <- <-.
    destruct (has_char c s) eqn:Hc; [|reflexivity].
    clear -Hr Hc. exfalso. induction s as [|b s IH]; simpl in *; [discriminate|].
    destruct (rsplit1 c s) as [[h t]|]; [discriminate|].
    destruct (Ascii.eqb b c); [discriminate|]. simpl in Hc. auto.
Qed.

Lemma rsplit1_app (c : ascii) (a b : string) :
  has_char c b = false -> rsplit1 c (a ++ String c b) = Some (a, b).
Proof.
  intros Hb. induction a as [|x a IH]; simpl.
  - now rewrite rsplit1_none, Ascii.eqb_refl by exact Hb.
  - now rewrite IH.
Qed.

Lemma ends_with_app (c : ascii) (a : string) :
  ends_with c a = true -> exists a', a = a' ++ String c "".
Proof.
  induction a as [|x a IH]; simpl; [discriminate|].
  destruct a as [|y a].
  - intros H. apply Ascii.eqb_eq in H. subst. now exists "".
  - intros H. destruct (IH H) as [a' Ha]. exists (String x a'). simpl. now rewrite Ha.
Qed.

Lemma append_snoc (a b : string) (c : ascii) :
  (a ++ String c "") ++ b = a ++ String c b.
Proof. induction a as [|x a IH]; simpl; [reflexivity|now rewrite IH]. Qed.

Lemma basename_clean (p : string) : has_char slash (basename p) = false.
Proof.
  unfold basename. destruct (rsplit1 slash p) as [[h t]|] eqn:H.
  - eapply rsplit1_tail_clean, H.
  - destruct (has_char slash p) eqn:Hc; [|reflexivity].
    exfalso. clear -H Hc. induction p as [|b s IH]; simpl in *; [discriminate|].
    destruct (rsplit1 slash s) as [[h t]|]; [discriminate|].
    destruct (Ascii.eqb b slash); [discriminate|]. simpl in Hc. auto.
Qed.

(** The last component of [os.path.join(a, b)] is [b] when [b] has no
    slash. *)
Lemma basename_join (a b : string) :
  has_char slash b = false -> basename (join a b) = b.
Proof.
  intros Hb. unfold join.
  assert (Hs : starts_with slash b = false).
  { destruct b as [|x b]; [reflexivity|]. simpl in *.
    now apply orb_false_iff in Hb. }
  rewrite Hs. unfold basename.
  destruct (String.eqb_spec a "") as [->|Ha]; simpl.
  - now rewrite rsplit1_none by exact Hb.
  - destruct (ends_with slash a) eqn:He.
    + apply ends_with_app in He. destruct He as [a' ->].
      rewrite append_snoc. now rewrite rsplit1_app by exact Hb.
    + change (a ++ String "/" b) with (a ++ String slash b).
      now rewrite rsplit1_app by exact Hb.
Qed.

Lemma split_head_clean (c d : ascii) (s : string) :
  has_char d s = false ->
  has_char c (split_head c s) = false /\ has_char d (split_head c s) = false.
Proof.
  induction s as [|a s IH]; simpl; [auto|]. intros H.
  apply orb_false_iff in H. destruct H as [Ha Hs].
  destruct (Ascii.eqb a c) eqn:Hac; simpl; [auto|].
  rewrite Hac, Ha. simpl. auto.
Qed.

(** The index of [enumerate] reaches the body: the [i]-th record comes from
    the [i]-th element, with counter [idx + i]. *)
Lemma for_enumerate_nth {A B} (body : Z -> A -> Result B) (l : list A) :
  forall idx bs,
    for_enumerate body idx l = Ok bs ->
    forall i b, nth_error bs i = Some b ->
                exists x, nth_error l i = Some x /\ body (idx + Z.of_nat i)%Z x = Ok b.
Proof.
  induction l as [|x rest IH]; intros idx bs H i b Hb; simpl in H.
  - injection H as <-. destruct i; discriminate.
  - destruct (body idx x) as [b0|e] eqn:H0; simpl in H; [|discriminate].
    destruct (for_enumerate body (idx + 1) rest) as [bs'|e] eqn:Hr; simpl in H;
      [|discriminate].
    injection H as <-. destruct i as [|i]; simpl in Hb.
    + injection Hb as <-. exists x. split; [reflexivity|].
      now replace (idx + Z.of_nat 0)%Z with idx by lia.
    + destruct (IH _ _ Hr i b Hb) as (y & Hy & Hbody). exists y. split; [exact Hy|].
      now replace (idx + Z.of_nat (S i))%Z with (idx + 1 + Z.of_nat i)%Z by lia.
Qed.

Lemma colmap_image_path_exists {E : Externals} (w : World) folder nm ip :
  colmap_image_path w folder nm = Ok ip -> path_exists w ip = true.
Proof.
  intros H. pose proof (colmap_image_path_cases w folder nm) as C. cbv zeta in C.
  rewrite C in H. clear C.
  destruct (path_exists w (join folder (basename nm))) eqn:H1.
  - injection H as <-. exact H1.
  - match type of H with
    | (if path_exists w ?p then _ else _) = _ => destruct (path_exists w p) eqn:H2
    end; [|discriminate].
    injection H as <-. exact H2.
Qed.

(** X5. The reconstruction adapter returns one record per view, in the order
    of the views.  The record of a view takes [uid], [width] and [height]
    from the intrinsics the view refers to, and does not open the image; its
    image path exists; and its image name is the part of the view's file
    name after the last slash and before the first dot, so that it contains
    neither a slash nor a dot. *)
Theorem colmap_records_of_views {E : Externals} (w : World) cam_extrinsics cam_intrinsics
    images_folder d1 d2 cams :
  readColmapCameras w cam_extrinsics cam_intrinsics images_folder d1 d2 = Ok cams ->
  Forall2 (fun entry cam =>
             exists intr,
               zassoc (camera_id (snd entry)) cam_intrinsics = Some intr /\
               uid cam = id intr /\
               width cam = cam_width intr /\
               height cam = cam_height intr /\
               path_exists w (image_path cam) = true /\
               image_name cam = split_head dot (basename (name (snd entry))) /\
               has_char dot (image_name cam) = false /\
               has_char slash (image_name cam) = false /\
               depth_cam_path cam = depth_path d1 (image_name cam) /\
               depth_est_path cam = depth_path d2 (image_name cam))
          cam_extrinsics cams.
Proof.
  intros H. unfold readColmapCameras in H. apply for_enumerate_ok in H.
  induction H as [|entry cam es cs [i Hi] _ IH]; constructor; [|exact IH].
  unfold readColmapCamera, zdict_get in Hi.
  destruct (zassoc (camera_id (snd entry)) cam_intrinsics) as [intr|] eqn:Hz;
    simpl in Hi; [|discriminate].
  destruct (colmap_fov intr) as [[fy fx]|e]; simpl in Hi; [|discriminate].
  destruct (colmap_image_path w images_folder (name (snd entry))) as [ip|e] eqn:Hp;
    simpl in Hi; [|discriminate].
  injection Hi as <-. simpl. exists intr.
  rewrite basename_join by apply basename_clean.
  destruct (@split_head_clean dot slash (basename (name (snd entry)))
              (basename_clean (name (snd entry)))) as [Hd Hs].
  repeat split; auto. eapply colmap_image_path_exists, Hp.
Qed.

(** X6. The transforms adapter returns one record per frame of the manifest,
    in manifest order, with [uid] the position of the frame; the record's
    size is the size of the image opened at its image path, which is
    [os.path.join(path, cam_name)] for the probed file [cam_name], and its
    image name is the stem of that file. *)
Theorem transforms_records_in_manifest_order {E : Externals} (w : World)
    path images_dir transformsfile d1 d2 isOpenGL extension cams :
  readCamerasFromTransforms w path images_dir transformsfile d1 d2 isOpenGL extension
  = Ok cams ->
  exists contents,
    json_load w (join path transformsfile) = Ok contents /\
    List.length cams = List.length (frames contents) /\
    forall i cam,
      nth_error cams i = Some cam ->
      exists frame cam_name,
        nth_error (frames contents) i = Some frame /\
        uid cam = Z.of_nat i /\
        transforms_cam_name w images_dir (file_path frame) extension = Ok cam_name /\
        path_exists w cam_name = true /\
        image_path cam = join path cam_name /\
        image_name cam = stem cam_name /\
        Image_open_size w (image_path cam) = Ok (width cam, height cam).
Proof.
  unfold readCamerasFromTransforms.
  destruct (json_load w (join path transformsfile)) as [contents|e]; simpl;
    [|discriminate].
  intros H. exists contents. split; [reflexivity|].
  split; [eapply for_enumerate_length, H|].
  intros i cam Hc.
  destruct (@for_enumerate_nth _ _ _ _ _ _ H i cam Hc) as (frame & Hf & Hb).
  unfold readCameraFromTransforms in Hb.
  destruct (transforms_cam_name w images_dir (file_path frame) extension)
    as [cn|e] eqn:Hn; simpl in Hb; [|discriminate].
  destruct (frame_w2c isOpenGL frame) as [m|e]; simpl in Hb; [|discriminate].
  destruct (Image_open_size w (join path cn)) as [size|e] eqn:Hs; simpl in Hb;
    [|discriminate].
  injection Hb as <-. simpl. exists frame, cn.
  repeat split; auto.
  - unfold transforms_cam_name in Hn.
    destruct (rsplit1_tail slash (file_path frame)) as [last|e]; simpl in Hn;
      [|discriminate].
    destruct (path_exists w (join images_dir last ++ extension)) eqn:H1.
    + rewrite H1 in Hn. simpl in Hn. now injection Hn as <-.
    + destruct (path_exists w (join images_dir last ++ ".png")) eqn:H2;
        simpl in Hn; [now injection Hn as <-|discriminate].
  - rewrite Hs. now destruct size.
Qed.

End Records.

(** ** The split, when it is off, missing or empty *)

Section SplitEdges.
Import OsPath DatasetReaders CameraUtils Derived Examples.
Context {E : Externals}.
Open Scope string_scope.

Lemma read_with_exists {A} (parse : File -> option A) (w : World) (p : string) (a : A) :
  read_with parse w p = Ok a -> path_exists w p = true.
Proof.
  unfold read_with, path_exists. destruct (fs w p); [reflexivity|discriminate].
Qed.

(** X7. With evaluation off no split is consulted: the load does not depend
    on [split_yml_name], and a load that returns has every loaded camera in
    its training set and an empty test set; for a reconstruction load and
    for a free-capture load. *)
Theorem evaluation_off_trains_on_every_camera :
  (forall path images yml (w : World),
      readColmapSceneInfo path images false yml w
      = readColmapSceneInfo path images false None w) /\
  (forall path images yml (w w' : World) scene,
      readColmapSceneInfo path images false yml w = (Ok scene, w') ->
      colmap_cam_infos w path images = Ok (train_cameras scene) /\
      test_cameras scene = []) /\
  (forall path images white_background extension yml (w : World),
      readToyDeskSceneInfo path images white_background false extension yml w
      = readToyDeskSceneInfo path images white_background false extension None w) /\
  (forall path images white_background extension yml (w w' : World) scene,
      readToyDeskSceneInfo path images white_background false extension yml w
      = (Ok scene, w') ->
      toydesk_cam_infos w path images white_background extension
      = Ok (train_cameras scene) /\
      test_cameras scene = []).
Proof.
  split; [|split; [|split]].
  - reflexivity.
  - intros path images yml w w' scene H. apply readColmapSceneInfo_ok in H.
    destruct H as (cams & tr & te & nrm & pcd & Hc & Hs & _ & _ & ->).
    injection Hs as <- <-. simpl. split; [exact Hc|reflexivity].
  - reflexivity.
  - intros path images wb ext yml w w' scene H. apply readToyDeskSceneInfo_ok in H.
    destruct H as (cams & nrm & r & c & pcd & tr & te & Hc & _ & _ & _ & Hs & ->).
    injection Hs as <- <-. simpl. split; [exact Hc|reflexivity].
Qed.

(** X8. With evaluation on and the cameras read, a reconstruction load whose
    split file is absent raises the split-file error, and one without a split
    file name raises [TypeError]; both before the normalization and the
    point cloud, leaving the world as it is.  A free-capture load looks for
    the split file last: when its other steps succeed it raises the same
    error only after the point cloud has been read or generated, so that the
    cache file exists when the load fails. *)
Theorem missing_split_file_aborts :
  (forall path images yml (w : World) cams,
      colmap_cam_infos w path images = Ok cams ->
      path_exists w (join path yml) = false ->
      readColmapSceneInfo path images true (Some yml) w
      = (Err (FileNotFoundError ("Split file not found at " ++ join path yml)), w)) /\
  (forall path images (w : World) cams,
      colmap_cam_infos w path images = Ok cams ->
      readColmapSceneInfo path images true None w = (Err TypeError, w)) /\
  (forall path images white_background extension yml (w w1 : World) cams nrm r c pcd,
      toydesk_cam_infos w path images white_background extension = Ok cams ->
      getNerfppNorm cams = Ok nrm ->
      cam_centers_box cams = Ok (r, c) ->
      toydesk_point_cloud (join path "points3d.ply") r c w = (Ok pcd, w1) ->
      path_exists w (join path yml) = false ->
      join path yml <> join path "points3d.ply" ->
      readToyDeskSceneInfo path images white_background true extension (Some yml) w
      = (Err (FileNotFoundError ("Split file not found at " ++ join path yml)), w1) /\
      path_exists w1 (join path "points3d.ply") = true).
Proof.
  split; [|split].
  - intros path images yml w cams Hc Hm.
    unfold readColmapSceneInfo, bindM, readM. rewrite Hc.
    unfold split_cameras. simpl. rewrite Hm. reflexivity.
  - intros path images w cams Hc.
    unfold readColmapSceneInfo, bindM, readM. rewrite Hc. reflexivity.
  - intros path images wb ext yml w w1 cams nrm r c pcd Hc Hn Hb Hp Hm Hne.
    pose proof (toydesk_point_cloud_touches_only (join path "points3d.ply") r c w) as T.
    rewrite Hp in T. simpl in T. destruct T as (Hfs & _ & _).
    assert (Hm1 : path_exists w1 (join path yml) = false).
    { unfold path_exists in *. now rewrite (Hfs _ Hne). }
    split.
    + unfold readToyDeskSceneInfo, bindM, readM. rewrite Hc, Hn, Hb, Hp.
      unfold split_cameras. simpl. rewrite Hm1. reflexivity.
    + eapply fetchPly_exists, toydesk_point_cloud_ok, Hp.
Qed.

(** X9. A reconstruction load whose training set comes out empty raises
    [ValueError] (from [np.hstack] of an empty list in the normalizer) and
    writes nothing: when the split's [train] list names none of the loaded
    cameras, and, with evaluation off, when there is no view at all. *)
Theorem empty_training_set_aborts :
  (forall path images yml (w : World) cams doc train_list test_list,
      colmap_cam_infos w path images = Ok cams ->
      yaml_safe_load w (join path yml) = Ok doc ->
      dict_get "train" doc = Ok train_list ->
      dict_get "test" doc = Ok test_list ->
      (forall c, In c cams -> ~ In (image_name c) train_list) ->
      readColmapSceneInfo path images true (Some yml) w = (Err ValueError, w)) /\
  (forall path images yml (w : World),
      colmap_cam_infos w path images = Ok [] ->
      readColmapSceneInfo path images false yml w = (Err ValueError, w)).
Proof.
  split.
  - intros path images yml w cams doc trl tel Hc Hy Htr Hte Hnone.
    unfold readColmapSceneInfo, bindM, readM. rewrite Hc.
    unfold split_cameras. simpl.
    rewrite (read_with_exists _ _ _ Hy). simpl. rewrite Hy. simpl.
    rewrite Htr, Hte. simpl.
    assert (Hf : filter (fun c => str_in (image_name c) trl) cams = []).
    { clear -Hnone. induction cams as [|c rest IH]; [reflexivity|]. simpl.
      destruct (str_in (image_name c) trl) eqn:Hs.
      - apply str_in_In in Hs. exfalso. apply (Hnone c); [now left|exact Hs].
      - apply IH. intros d Hd. apply Hnone. now right. }
    rewrite Hf. reflexivity.
  - intros path images yml w Hc.
    unfold readColmapSceneInfo, bindM, readM. rewrite Hc. reflexivity.
Qed.

End SplitEdges.

(** ** More on the scene normalizer *)

Section NormalizerMore.
Import OsPath DatasetReaders CameraUtils Derived SpecModel Examples.
Context {E : Externals}.
Open Scope R_scope.

Lemma vec3_ext (u v : vec3) :
  (forall i, (i < 3)%nat -> get3 u i = get3 v i) -> u = v.
Proof.
  intros H. destruct_arrays.
  pose proof (H 0%nat ltac:(lia)) as H0. pose proof (H 1%nat ltac:(lia)) as H1.
  pose proof (H 2%nat ltac:(lia)) as H2. simpl in *. now subst.
Qed.

Lemma cam_center_error (cam : CameraInfo) (e : PyError) :
  cam_center cam = Err e -> e = LinAlgError.
Proof.
  unfold cam_center, inv. destruct (Req_dec_T _ _); simpl; [|discriminate].
  now intros [= <-].
Qed.

(** The loop of the normalizer returns the centre of every camera, or raises
    [LinAlgError] when the view matrix of some camera is singular. *)
Lemma cam_centers_of_cases (cams : list CameraInfo) :
  (Forall (fun cam => is_ok (cam_center cam) = true) cams /\
   cam_centers_of cams
   = Ok (map (fun cam => match cam_center cam with Ok p => p | Err _ => vzero end) cams)) \/
  (Exists (fun cam => is_ok (cam_center cam) = false) cams /\
   cam_centers_of cams = Err LinAlgError).
Proof.
  induction cams as [|cam rest IH]; simpl; [left; split; [constructor|reflexivity]|].
  destruct (cam_center cam) as [p|e] eqn:Hc; simpl.
  - destruct IH as [[Hall ->]|[Hex ->]]; simpl.
    + left. split; [constructor; [now rewrite Hc|exact Hall]|reflexivity].
    + right. split; [now constructor 2|reflexivity].
  - right. split; [constructor 1; now rewrite Hc|].
    now rewrite (cam_center_error _ Hc).
Qed.

Lemma sum_permutation (xs ys : list R) :
  Permutation xs ys -> fold_right Rplus 0 xs = fold_right Rplus 0 ys.
Proof. induction 1; simpl; lra. Qed.

Lemma vsum_permutation (ps qs : list vec3) :
  Permutation ps qs -> vsum ps = vsum qs.
Proof.
  intros H. apply vec3_ext. intros i Hi. unfold vsum.
  rewrite !get3_vsum_from by exact Hi. f_equal.
  apply sum_permutation. now apply Permutation_map.
Qed.

Lemma get_center_and_diag_permutation (ps qs : list vec3) :
  Permutation ps qs -> get_center_and_diag ps = get_center_and_diag qs.
Proof.
  intros H. destruct ps as [|p0 ps], qs as [|q0 qs].
  - reflexivity.
  - apply Permutation_nil in H. discriminate.
  - symmetry in H. apply Permutation_nil in H. discriminate.
  - unfold get_center_and_diag.
    rewrite (vsum_permutation H), (Permutation_length H).
    set (c := vdiv (vsum (q0 :: qs)) (INR (List.length (q0 :: qs)))).
    do 2 f_equal.
    destruct (np_max_spec (map (fun q => norm (vsub q c)) ps) (norm (vsub p0 c)))
      as [Hin1 Hub1].
    destruct (np_max_spec (map (fun q => norm (vsub q c)) qs) (norm (vsub q0 c)))
      as [Hin2 Hub2].
    assert (Hp : Permutation (norm (vsub p0 c) :: map (fun q => norm (vsub q c)) ps)
                   (norm (vsub q0 c) :: map (fun q => norm (vsub q c)) qs)).
    { exact (Permutation_map (fun q => norm (vsub q c)) H). }
    apply Rle_antisym.
    + apply Hub2. eapply Permutation_in; [exact Hp|exact Hin1].
    + apply Hub1. eapply Permutation_in; [symmetry; exact Hp|exact Hin2].
Qed.

(** X10. The normalization does not depend on the order of the cameras: two
    lists that are permutations of each other give the same result, the same
    translate and radius or the same exception. *)
Theorem normalization_ignores_camera_order (cams cams' : list CameraInfo) :
  Permutation cams cams' -> getNerfppNorm cams = getNerfppNorm cams'.
Proof.
  intros H. unfold getNerfppNorm.
  destruct (cam_centers_of_cases cams) as [[Hall ->]|[Hex ->]];
    destruct (cam_centers_of_cases cams') as [[Hall' ->]|[Hex' ->]]; simpl.
  - rewrite (get_center_and_diag_permutation (Permutation_map _ H)). reflexivity.
  - exfalso. apply Exists_exists in Hex'. destruct Hex' as (cam & Hin & Hk).
    rewrite Forall_forall in Hall. symmetry in H.
    rewrite (Hall cam (Permutation_in _ H Hin)) in Hk. discriminate.
  - exfalso. apply Exists_exists in Hex. destruct Hex as (cam & Hin & Hk).
    rewrite Forall_forall in Hall'.
    rewrite (Hall' cam (Permutation_in _ H Hin)) in Hk. discriminate.
  - reflexivity.
Qed.

Lemma distance_nonneg (p c : vec3) : 0 <= distance p c.
Proof. unfold distance. apply sqrt_pos. Qed.

Lemma vneg_involutive (v : vec3) : vneg (vneg v) = v.
Proof. destruct_arrays. array_unfold. split_tuples; ring. Qed.

(** X11. The sphere the normalizer returns contains every camera: when
    [getNerfppNorm] returns, the radius is not negative and every camera
    centre lies within [radius] of the point [-translate]; an empty list
    raises [ValueError] and a camera with a singular view matrix
    [LinAlgError]. *)
Theorem normalization_sphere_contains_cameras :
  (forall (cams : list CameraInfo) (nrm : NerfNorm),
      getNerfppNorm cams = Ok nrm ->
      0 <= radius nrm /\
      exists ps, cam_centers_of cams = Ok ps /\
                 List.length ps = List.length cams /\
                 forall p, In p ps -> distance p (vneg (translate nrm)) <= radius nrm) /\
  getNerfppNorm [] = Err ValueError /\
  (forall cams, Exists (fun cam => is_ok (cam_center cam) = false) cams ->
                getNerfppNorm cams = Err LinAlgError).
Proof.
  split; [|split].
  - intros cams nrm H. unfold getNerfppNorm in H.
    destruct (cam_centers_of cams) as [ps|e] eqn:Hps; simpl in H; [|discriminate].
    assert (Hne : ps <> []).
    { intros ->. simpl in H. discriminate. }
    destruct (get_center_and_diag_spec Hne) as (c & d & Hcd & _ & (Hatt & Hub)).
    rewrite Hcd in H. simpl in H. injection H as <-. simpl.
    destruct Hatt as (p0 & _ & Hp0).
    assert (Hd : 0 <= d) by (rewrite <- Hp0; apply distance_nonneg).
    split; [lra|]. exists ps. split; [reflexivity|].
    split; [now apply cam_centers_of_length|].
    intros p Hp. rewrite vneg_involutive. specialize (Hub p Hp). lra.
  - reflexivity.
  - intros cams Hex. unfold getNerfppNorm.
    destruct (cam_centers_of_cases cams) as [[Hall _]|[_ ->]]; [|reflexivity].
    exfalso. apply Exists_exists in Hex. destruct Hex as (cam & Hin & Hk).
    rewrite Forall_forall in Hall. rewrite (Hall cam Hin) in Hk. discriminate.
Qed.

Lemma abs_le_norm (v : vec3) (i : nat) : (i < 3)%nat -> Rabs (get3 v i) <= norm v.
Proof.
  intros Hi. unfold norm. rewrite <- sqrt_Rsqr_abs. apply sqrt_le_1_alt.
  unfold Rsqr. destruct_arrays. simpl.
  destruct i as [|[|[|i]]]; simpl; try lia; nra.
Qed.

Lemma fold_vmin_le (ts : list vec3) :
  forall t0 t i, (i < 3)%nat -> In t (t0 :: ts) ->
                 get3 (fold_left vmin ts t0) i <= get3 t i.
Proof.
  assert (Hmin : forall u v i, (i < 3)%nat ->
             get3 (vmin u v) i = Rmin (get3 u i) (get3 v i)).
  { intros u v i Hi. destruct_arrays. destruct i as [|[|[|i]]]; try reflexivity; lia. }
  assert (Hacc : forall ts t0 i, (i < 3)%nat ->
             get3 (fold_left vmin ts t0) i <= get3 t0 i).
  { induction ts0 as [|s ts0 IH]; intros t0 i Hi; simpl; [lra|].
    eapply Rle_trans; [apply IH, Hi|]. rewrite Hmin by exact Hi. apply Rmin_l. }
  induction ts as [|s ts IH]; intros t0 t i Hi Hin; simpl.
  - destruct Hin as [<-|[]]. lra.
  - destruct Hin as [<-|Hin].
    + eapply Rle_trans; [apply Hacc, Hi|]. rewrite Hmin by exact Hi. apply Rmin_l.
    + destruct Hin as [<-|Hin].
      * eapply Rle_trans; [apply Hacc, Hi|]. rewrite Hmin by exact Hi. apply Rmin_r.
      * apply IH; [exact Hi|now right].
Qed.

Lemma fold_vmax_ge (ts : list vec3) :
  forall t0 t i, (i < 3)%nat -> In t (t0 :: ts) ->
                 get3 t i <= get3 (fold_left vmax ts t0) i.
Proof.
  assert (Hmax : forall u v i, (i < 3)%nat ->
             get3 (vmax u v) i = Rmax (get3 u i) (get3 v i)).
  { intros u v i Hi. destruct_arrays. destruct i as [|[|[|i]]]; try reflexivity; lia. }
  assert (Hacc : forall ts t0 i, (i < 3)%nat ->
             get3 t0 i <= get3 (fold_left vmax ts t0) i).
  { induction ts0 as [|s ts0 IH]; intros t0 i Hi; simpl; [lra|].
    eapply Rle_trans; [|apply IH, Hi]. rewrite Hmax by exact Hi. apply Rmax_l. }
  induction ts as [|s ts IH]; intros t0 t i Hi Hin; simpl.
  - destruct Hin as [<-|[]]. lra.
  - destruct Hin as [<-|Hin].
    + eapply Rle_trans; [|apply Hacc, Hi]. rewrite Hmax by exact Hi. apply Rmax_l.
    + destruct Hin as [<-|Hin].
      * eapply Rle_trans; [|apply Hacc, Hi]. rewrite Hmax by exact Hi. apply Rmax_r.
      * apply IH; [exact Hi|now right].
Qed.

Lemma get3_vsub (u v : vec3) (i : nat) :
  (i < 3)%nat -> get3 (vsub u v) i = get3 u i - get3 v i.
Proof. intros Hi. destruct_arrays. destruct i as [|[|[|i]]]; try reflexivity; lia. Qed.

Lemma get3_vadd (u v : vec3) (i : nat) :
  (i < 3)%nat -> get3 (vadd u v) i = get3 u i + get3 v i.
Proof. intros Hi. destruct_arrays. destruct i as [|[|[|i]]]; try reflexivity; lia. Qed.

(** X12. The box a free-capture load draws its random points in is built
    from the translations [T] of the records (not from the camera centres):
    [cam_centers_radius] is not negative and every record's [T] lies in the
    cube of that half-side around [cam_centers_center]; for a single record
    the radius is [0] and the centre is its [T]; an empty list raises
    [ValueError]. *)
Theorem camera_box_contains_translations :
  (forall (cams : list CameraInfo) (r : R) (c : vec3),
      cam_centers_box cams = Ok (r, c) ->
      0 <= r /\ forall cam, In cam cams -> in_cube c r (T_ cam)) /\
  (forall cam, exists c, cam_centers_box [cam] = Ok (0, c) /\ c = T_ cam) /\
  cam_centers_box [] = Err ValueError.
Proof.
  split; [|split].
  - intros cams r c H. unfold cam_centers_box in H.
    destruct (map T_ cams) as [|t0 ts] eqn:Hm; [discriminate|].
    injection H as <- <-.
    set (lo := fold_left vmin ts t0). set (hi := fold_left vmax ts t0).
    split.
    + unfold norm. pose proof (sqrt_pos
        (get3 (vsub hi lo) 0 * get3 (vsub hi lo) 0 + get3 (vsub hi lo) 1 * get3 (vsub hi lo) 1
         + get3 (vsub hi lo) 2 * get3 (vsub hi lo) 2)) as Hs. lra.
    + intros cam Hin i Hi.
      assert (Ht : In (T_ cam) (t0 :: ts)) by (rewrite <- Hm; now apply in_map).
      pose proof (@fold_vmin_le ts t0 (T_ cam) i Hi Ht) as Hlo.
      pose proof (@fold_vmax_ge ts t0 (T_ cam) i Hi Ht) as Hhi.
      fold lo in Hlo. fold hi in Hhi.
      pose proof (@abs_le_norm (vsub hi lo) i Hi) as Hn.
      rewrite get3_vsub in Hn by exact Hi.
      rewrite get3_vdiv, get3_vadd by exact Hi.
      unfold Rabs in *.
      destruct (Rcase_abs (get3 hi i - get3 lo i));
        destruct (Rcase_abs (get3 (T_ cam) i - (get3 hi i + get3 lo i) / 2.0)); lra.
  - intros cam. eexists. split.
    + unfold cam_centers_box. simpl. do 2 f_equal.
      unfold norm. rewrite !get3_vsub by lia.
      replace ((get3 (T_ cam) 0 - get3 (T_ cam) 0) * (get3 (T_ cam) 0 - get3 (T_ cam) 0)
               + (get3 (T_ cam) 1 - get3 (T_ cam) 1) * (get3 (T_ cam) 1 - get3 (T_ cam) 1)
               + (get3 (T_ cam) 2 - get3 (T_ cam) 2) * (get3 (T_ cam) 2 - get3 (T_ cam) 2))
        with 0 by ring.
      rewrite sqrt_0. lra.
    + apply vec3_ext. intros i Hi. rewrite get3_vdiv, get3_vadd by exact Hi. lra.
  - reflexivity.
Qed.

End NormalizerMore.

(** ** Generated point clouds and the axis flip *)

Section Generated.
Import OsPath DatasetReaders CameraUtils Derived SpecModel Examples.
Context {E : Externals}.
Open Scope string_scope.
Open Scope R_scope.

(** X13. When the cache file of a free-capture scene is absent, the
    point-cloud step makes two draws of 360000 rows from the random
    generator.  It maps each row [p] of the first to the point
    [(p - 0.5) * 4 * radius + center] and each row [s] of the second to the
    colour [SH2RGB(s / 255) * 255], writes the points with these colours to
    the cache file (when every colour fits a byte) and returns what
    [fetchPly] reads back.  When the rows of the first draw lie in the unit
    cube and the radius is not negative, every generated point lies in the
    cube of half-side [2 * radius] around the centre. *)
Theorem toydesk_points_generated_in_box (ply : string) (r : R) (c : vec3) (w : World) :
  let draw1 := np_random (rng w) 360000 in
  let draw2 := np_random (rng w + 1)%N 360000 in
  let xyz := map (fun p : vec3 =>
                    let '(x, y, z) := p in
                    let '(cx, cy, cz) := c in
                    ((x - 0.5) * 4 * r + cx, (y - 0.5) * 4 * r + cy,
                     (z - 0.5) * 4 * r + cz)) draw1 in
  let rgb := map (fun s : vec3 =>
                    let '(x, y, z) := s in
                    let '(red, green, blue) := SH2RGB (x / 255.0, y / 255.0, z / 255.0) in
                    (red * 255, green * 255, blue * 255)) draw2 in
  path_exists w ply = false ->
  List.length draw1 = List.length draw2 ->
  Forall fits_byte rgb ->
  toydesk_point_cloud ply r c w
  = (Ok (stored_cloud xyz rgb),
     {| fs := fs (write_file w ply (FPly (stored_rows xyz rgb)));
        rng := (rng w + 1 + 1)%N |}) /\
  (0 <= r -> Forall in_unit_cube draw1 -> Forall (in_cube c (2 * r)) xyz).
Proof.
  intros draw1 draw2 xyz rgb Hmiss Hlen Hfit.
  assert (Hxyz : map (fun p => mk3 (fun i => (get3 p i - 0.5) * 4 * r + get3 c i)) draw1
                 = xyz).
  { unfold xyz. apply map_ext. intros p. destruct_arrays. reflexivity. }
  assert (Hrgb : map (fun s => scale255 (SH2RGB s))
                     (map (fun p => mk3 (fun i => get3 p i / 255.0)) draw2) = rgb).
  { unfold rgb. rewrite map_map. apply map_ext. intros p. destruct_arrays.
    unfold scale255. cbv [mk3 get3].
    destruct (SH2RGB (_, _, _)) as [[? ?] ?]. reflexivity. }
  assert (Hl : List.length xyz = List.length rgb).
  { unfold xyz, rgb. now rewrite !length_map. }
  split.
  - unfold toydesk_point_cloud, bindM, getM, retM, readM, np_random_random.
    rewrite Hmiss. cbn [negb fst snd rng fs].
    fold draw1. fold draw2. rewrite Hxyz, Hrgb, storePly_cases.
    destruct (Nat.eqb _ _) eqn:Hb; [|apply Nat.eqb_neq in Hb; contradiction].
    rewrite (proj2 (colours_fit_spec rgb) Hfit).
    pose proof (fetchPly_written ply xyz rgb
                  {| fs := fs w; rng := (rng w + 1 + 1)%N |} Hl) as F.
    rewrite F. reflexivity.
  - intros Hr Hunit. unfold xyz. apply Forall_forall. intros q Hq.
    apply in_map_iff in Hq. destruct Hq as (p & <- & Hp).
    rewrite Forall_forall in Hunit. specialize (Hunit p Hp).
    destruct_arrays. intros i Hi. specialize (Hunit i Hi).
    destruct i as [|[|[|i]]]; try lia; cbv [get3] in *;
      unfold Rabs; destruct (Rcase_abs _); nra.
Qed.

Lemma adjugate_right (M : mat4) :
  det4 M <> 0 ->
  mmul4 M (build4 (fun i j => at4 (adjugate4 M) i j / det4 M)) = I4.
Proof.
  intros H. destruct_arrays. revert H. array_unfold. intros H.
  split_tuples; field; intro Hc; apply H; rewrite <- Hc; ring.
Qed.

Lemma inv_right (M N : mat4) : inv M = Ok N -> mmul4 M N = I4.
Proof.
  unfold inv. destruct (Req_dec_T (det4 M) 0) as [e|n]; [discriminate|].
  intros [= <-]. now apply adjugate_right.
Qed.

Lemma opengl_flip_product (M N : mat4) :
  at4 M 3 1 = 0 -> at4 M 3 2 = 0 ->
  mmul4 (opengl_flip M) (negate_rows_1_2 N) = mmul4 M N.
Proof.
  intros H1 H2. destruct_arrays. cbv [at4 get4] in H1, H2. subst.
  cbv [opengl_flip negate_rows_1_2 mmul4 build4 mk4 at4 get4 Nat.ltb Nat.leb andb].
  split_tuples; ring.
Qed.

(** X14. The axis flip [c2w[:3, 1:3] *= -1] undoes itself when applied
    twice.  For a frame whose matrix has zeros below its second and third
    columns, the world-to-camera matrix with the flip is the one without it
    with its second and third rows negated: the stored rotation has its
    second and third columns negated and the stored translation its second
    and third components. *)
Theorem opengl_flip_negates_pose :
  (forall M : mat4, opengl_flip (opengl_flip M) = M) /\
  (forall (frame : Frame) (w2c : mat4),
      at4 (transform_matrix frame) 3 1 = 0 ->
      at4 (transform_matrix frame) 3 2 = 0 ->
      frame_w2c false frame = Ok w2c ->
      frame_w2c true frame = Ok (negate_rows_1_2 w2c) /\
      transpose (block33 (negate_rows_1_2 w2c))
      = negate_cols_1_2 (transpose (block33 w2c)) /\
      col3 (negate_rows_1_2 w2c) = negate_comps_1_2 (col3 w2c)).
Proof.
  split.
  - intros M. destruct_arrays.
    cbv [opengl_flip build4 mk4 at4 get4 Nat.ltb Nat.leb andb].
    split_tuples; ring.
  - intros frame w2c H1 H2 H. unfold frame_w2c in *. split; [|split].
    + apply inv_unique. rewrite opengl_flip_product by assumption.
      now apply inv_right.
    + destruct_arrays. reflexivity.
    + destruct_arrays. reflexivity.
Qed.

End Generated.

(** ** Python floats that hold pixel counts *)

Unset Implicit Arguments.

Section FloatFacts.
Import Float64.
Open Scope Z_scope.

Lemma digits2_pos_size (p : positive) : digits2_pos p = Pos.size p.
Proof. induction p; simpl; congruence. Qed.

Lemma Zdigits2_bound (x : Z) : 0 < x -> 2 ^ (Zdigits2 x - 1) <= x < 2 ^ Zdigits2 x.
Proof.
  destruct x as [|p|p]; try lia. intros _.
  change (Zdigits2 (Z.pos p)) with (Z.pos (digits2_pos p)). rewrite digits2_pos_size.
  pose proof (Pos.size_gt p) as Hgt. pose proof (Pos.size_le p) as Hle.
  apply Pos2Z.pos_lt_pos in Hgt. apply Pos2Z.pos_le_pos in Hle.
  rewrite Pos2Z.inj_pow in Hgt, Hle. rewrite (Pos2Z.inj_xO p) in Hle.
  assert (Hs : 2 ^ Z.pos (Pos.size p) = 2 * 2 ^ (Z.pos (Pos.size p) - 1)).
  { rewrite <- Z.pow_succ_r by lia. f_equal. lia. }
  lia.
Qed.

Lemma Zdigits2_nonneg (x : Z) : 0 <= Zdigits2 x.
Proof. destruct x; simpl; lia. Qed.

Lemma Zdigits2_le (x k : Z) : 0 <= x < 2 ^ k -> 0 <= k -> Zdigits2 x <= k.
Proof.
  intros [H0 Hk] Hk0. destruct (Z.eq_dec x 0) as [->|Hx]; [simpl; lia|].
  destruct (Zdigits2_bound x) as [Hl _]; [lia|].
  destruct (Z.le_gt_cases (Zdigits2 x) k) as [|Hgt]; [assumption|].
  assert (2 ^ k <= 2 ^ (Zdigits2 x - 1)) by (apply Z.pow_le_mono_r; lia). lia.
Qed.

Lemma Zdigits2_unique (x n : Z) : 2 ^ (n - 1) <= x < 2 ^ n -> 0 < n -> Zdigits2 x = n.
Proof.
  intros [Hl Hu] Hn.
  assert (Hx : 0 < x) by (pose proof (Z.pow_pos_nonneg 2 (n - 1)); lia).
  destruct (Zdigits2_bound x Hx) as [Hl' Hu'].
  pose proof (Zdigits2_nonneg x).
  apply Z.le_antisymm.
  - apply Zdigits2_le; lia.
  - destruct (Z.le_gt_cases n (Zdigits2 x)) as [|Hgt]; [assumption|].
    assert (2 ^ Zdigits2 x <= 2 ^ (n - 1)) by (apply Z.pow_le_mono_r; lia). lia.
Qed.

Lemma shr_m_of_loc (m : Z) (l : location) : shr_m (shr_record_of_loc m l) = m.
Proof. destruct l as [|[]]; reflexivity. Qed.

Lemma shr_1_m (r : shr_record) :
  0 <= shr_m r -> 0 <= shr_m (shr_1 r) <= shr_m r.
Proof.
  destruct r as [m r s]. simpl. destruct m as [|[p|p|]|[p|p|]]; simpl; lia.
Qed.

Lemma iter_pos_inv {A} (f : A -> A) (P : A -> Prop) :
  (forall x, P x -> P (f x)) -> forall n x, P x -> P (iter_pos f n x).
Proof. intros Hf. induction n; simpl; auto. Qed.

Lemma shr_bounds (r : shr_record) (e n : Z) :
  0 <= shr_m r ->
  0 <= shr_m (fst (shr r e n)) <= shr_m r /\
  snd (shr r e n) = (if 0 <? n then e + n else e).
Proof.
  intros H. unfold shr. destruct n as [|p|p]; simpl; try (split; [lia|reflexivity]).
  split; [|reflexivity].
  apply (iter_pos_inv shr_1 (fun x => 0 <= shr_m x <= shr_m r)); [|lia].
  intros x Hx. pose proof (shr_1_m x). lia.
Qed.

Lemma round_nearest_even_bounds (m : Z) (l : location) :
  0 <= m -> m <= round_nearest_even m l <= m + 1.
Proof.
  intros H. destruct l as [|[]]; simpl; try lia. destruct (Z.even m); lia.
Qed.

Lemma binary_round_aux_finite (sx : bool) (mx ex : Z) (lx : location) :
  0 <= mx < 2 ^ 60 -> ex <= 200 ->
  finite_or_zero (binary_round_aux prec emax sx mx ex lx).
Proof.
  intros Hm He. unfold binary_round_aux, shr_fexp.
  pose proof (shr_bounds (shr_record_of_loc mx lx) ex
                (fexp prec emax (Zdigits2 mx + ex) - ex)) as B1.
  rewrite shr_m_of_loc in B1. specialize (B1 (proj1 Hm)).
  destruct (shr (shr_record_of_loc mx lx) ex _) as [mrs' e'].
  simpl in B1. destruct B1 as [Bm1 Be1].
  pose proof (round_nearest_even_bounds (shr_m mrs') (loc_of_shr_record mrs')
                (proj1 Bm1)) as R.
  set (m2 := round_nearest_even (shr_m mrs') (loc_of_shr_record mrs')) in *.
  pose proof (shr_bounds (shr_record_of_loc m2 loc_Exact) e'
                (fexp prec emax (Zdigits2 m2 + e') - e')) as B2.
  rewrite shr_m_of_loc in B2. specialize (B2 ltac:(lia)).
  destruct (shr (shr_record_of_loc m2 loc_Exact) e' _) as [mrs'' e''].
  simpl in B2. destruct B2 as [Bm2 Be2].
  assert (D1 : Zdigits2 mx <= 60) by (apply Zdigits2_le; lia).
  assert (D2 : Zdigits2 m2 <= 61).
  { apply Zdigits2_le; [|lia]. change (2 ^ 61) with (2 * 2 ^ 60). lia. }
  pose proof (Zdigits2_nonneg mx). pose proof (Zdigits2_nonneg m2).
  unfold fexp, emin, prec, emax in *.
  assert (E1 : e' <= 207) by (destruct (0 <? _) in Be1; lia).
  assert (E2 : e'' <= 300) by (destruct (0 <? _) in Be2; lia).
  destruct (shr_m mrs'') as [|p|p]; [exact I| |lia].
  destruct (Z.leb_spec e'' (1024 - 53)); [exact I|lia].
Qed.

Lemma SFdiv_finite (s1 s2 : bool) (m1 m2 : positive) (e1 e2 : Z) :
  Z.pos m1 < 2 ^ 53 -> -100 <= e1 <= 100 -> -100 <= e2 <= 100 ->
  finite_or_zero (SFdiv prec emax (S754_finite s1 m1 e1) (S754_finite s2 m2 e2)).
Proof.
  intros Hm1 He1 He2. unfold SFdiv, SFdiv_core_binary.
  set (d1 := Zdigits2 (Z.pos m1)). set (d2 := Zdigits2 (Z.pos m2)).
  set (e' := Z.min (fexp prec emax (d1 + e1 - (d2 + e2))) (e1 - e2)).
  set (s := e1 - e2 - e').
  set (m' := match s with Z.pos _ => Z.shiftl (Z.pos m1) s | 0 => Z.pos m1
             | Z.neg _ => 0 end).
  pose proof (Z_div_mod m' (Z.pos m2) ltac:(lia)) as Hdiv.
  destruct (Z.div_eucl m' (Z.pos m2)) as [q r]. destruct Hdiv as [Hq Hr].
  apply binary_round_aux_finite; [|unfold e'; lia].
  destruct (Zdigits2_bound (Z.pos m1) ltac:(lia)) as [_ Hu1]. fold d1 in Hu1.
  destruct (Zdigits2_bound (Z.pos m2) ltac:(lia)) as [Hl2 _]. fold d2 in Hl2.
  assert (Hd1 : 0 < d1) by (unfold d1; simpl; lia).
  assert (Hd2 : 0 < d2) by (unfold d2; simpl; lia).
  assert (Hm' : 0 <= m').
  { unfold m'. destruct s; try lia. rewrite Z.shiftl_mul_pow2 by lia.
    apply Z.mul_nonneg_nonneg; [lia|]. apply Z.pow_nonneg. lia. }
  assert (Hq0 : 0 <= q) by nia.
  split; [exact Hq0|].
  assert (Hs : s <= 0 \/ (0 < s /\ s <= 53 - d1 + d2)).
  { unfold s, e', fexp, emin, prec, emax. lia. }
  destruct Hs as [Hs|[Hs0 Hs]].
  - assert (m' <= Z.pos m1) by (unfold m'; destruct s; lia).
    assert (q <= m') by nia.
    assert (2 ^ 53 < 2 ^ 60) by (apply Z.pow_lt_mono_r; lia). lia.
  - assert (Hm'eq : m' = Z.pos m1 * 2 ^ s).
    { unfold m'. destruct s; try lia. apply Z.shiftl_mul_pow2. lia. }
    assert (Hp : 2 ^ (d1 + s) = 2 ^ d1 * 2 ^ s) by (apply Z.pow_add_r; lia).
    assert (Hs2 : 0 < 2 ^ s) by (apply Z.pow_pos_nonneg; lia).
    assert (Hlt : m' < 2 ^ (d1 + s)) by (rewrite Hp, Hm'eq; nia).
    assert (Hle : 2 ^ (d1 + s) <= 2 ^ (54 + (d2 - 1))) by (apply Z.pow_le_mono_r; lia).
    assert (Hp2 : 2 ^ (54 + (d2 - 1)) = 2 ^ 54 * 2 ^ (d2 - 1))
      by (apply Z.pow_add_r; lia).
    assert (Hpos : 0 < 2 ^ (d2 - 1)) by (apply Z.pow_pos_nonneg; lia).
    assert (q < 2 ^ 54).
    { destruct (Z.lt_ge_cases q (2 ^ 54)) as [|Hge]; [assumption|].
      assert (2 ^ 54 * 2 ^ (d2 - 1) <= q * Z.pos m2)
        by (apply Z.mul_le_mono_nonneg; lia).
      lia. }
    assert (2 ^ 54 < 2 ^ 60) by (apply Z.pow_lt_mono_r; lia). lia.
Qed.


Lemma binary_round_aux_canonical (s : bool) (m : positive) (e : Z) :
  Z.pos (digits2_pos m) = 53 -> -1074 <= e <= 971 ->
  binary_round_aux prec emax s (Z.pos m) e loc_Exact = S754_finite s m e.
Proof.
  intros Hd He. unfold binary_round_aux, shr_fexp.
  change (Zdigits2 (Z.pos m)) with (Z.pos (digits2_pos m)). rewrite Hd.
  assert (H0 : fexp prec emax (53 + e) - e = 0)
    by (unfold fexp, emin, prec, emax; lia).
  rewrite H0. cbn [shr shr_record_of_loc loc_of_shr_record shr_m round_nearest_even].
  change (Zdigits2 (Z.pos m)) with (Z.pos (digits2_pos m)). rewrite Hd, H0.
  cbn [shr shr_record_of_loc shr_m].
  destruct (Z.leb_spec e (emax - prec)) as [|Hgt]; [reflexivity|].
  unfold emax, prec in Hgt. lia.
Qed.

Lemma float_of_int_holds (z : Z) :
  0 <= z < 2 ^ 53 -> exists f, float_of_int z = Ok f /\ holds z f.
Proof.
  intros [H0 Hz]. destruct z as [|p|p]; [| |lia].
  { eexists. split; [reflexivity|reflexivity]. }
  unfold float_of_int, binary_normalize, binary_round, shl_align.
  set (d := Z.pos (digits2_pos p)).
  assert (Hd : 1 <= d <= 53).
  { split; [unfold d; lia|]. apply (Zdigits2_le (Z.pos p)); lia. }
  destruct (Zdigits2_bound (Z.pos p) ltac:(lia)) as [Hl Hu].
  change (Zdigits2 (Z.pos p)) with d in Hl, Hu.
  assert (Hf : fexp prec emax (d + 0) = d - 53)
    by (unfold fexp, emin, prec, emax; lia).
  rewrite Hf.
  destruct (d - 53 - 0) as [|k|k] eqn:Hk; [|lia|].
  - assert (Hd53 : Z.pos (digits2_pos p) = 53) by (fold d; lia).
    rewrite binary_round_aux_canonical by (try exact Hd53; lia).
    eexists. split; [reflexivity|]. cbn [holds]. repeat split; try lia.
  - assert (Hs : Z.pos (Pos.iter xO p k) = Z.pos p * 2 ^ Z.pos k).
    { change (Pos.iter xO p k) with (shift_pos k p). rewrite shift_pos_correct.
      rewrite Zpower_pos_nat, Zpower_nat_Z, positive_nat_Z. lia. }
    assert (Hk' : Z.pos k = 53 - d) by lia.
    assert (Hdig : Z.pos (digits2_pos (Pos.iter xO p k)) = 53).
    { change (Z.pos (digits2_pos (Pos.iter xO p k)))
        with (Zdigits2 (Z.pos (Pos.iter xO p k))).
      apply Zdigits2_unique; [|lia]. rewrite Hs, Hk'.
      assert (Hp1 : 2 ^ (53 - 1) = 2 ^ (d - 1) * 2 ^ (53 - d))
        by (rewrite <- Z.pow_add_r by lia; f_equal; lia).
      assert (Hp2 : 2 ^ 53 = 2 ^ d * 2 ^ (53 - d))
        by (rewrite <- Z.pow_add_r by lia; f_equal; lia).
      assert (0 < 2 ^ (53 - d)) by (apply Z.pow_pos_nonneg; lia).
      rewrite Hp1, Hp2. split; nia. }
    rewrite binary_round_aux_canonical by (try exact Hdig; lia).
    eexists. split; [reflexivity|]. cbn [holds]. repeat split; try lia.
    rewrite Hs. f_equal. f_equal. lia.
Qed.

Lemma holds_small (z : Z) (f : float) :
  holds z f ->
  match f with
  | S754_zero _ => True
  | S754_finite _ m e => Z.pos m < 2 ^ 53 /\ -100 <= e <= 100
  | _ => False
  end.
Proof.
  destruct f as [| | |s m e]; simpl; auto. intros (_ & Hd & He & _).
  split; [|lia]. pose proof (Zdigits2_bound (Z.pos m) ltac:(lia)) as [_ Hu].
  change (Zdigits2 (Z.pos m)) with (Z.pos (digits2_pos m)) in Hu. now rewrite Hd in Hu.
Qed.

Lemma SFdiv_one (s : bool) (m : positive) (e : Z) :
  Z.pos (digits2_pos m) = 53 -> -52 <= e <= 0 ->
  SFdiv prec emax (S754_finite s m e) float_one = S754_finite s m e.
Proof.
  intros Hd He. unfold SFdiv, float_one, SFdiv_core_binary.
  change (Zdigits2 (Z.pos m)) with (Z.pos (digits2_pos m)). rewrite Hd.
  change (Zdigits2 4503599627370496) with 53.
  assert (He' : Z.min (fexp prec emax (53 + e - (53 + -52))) (e - -52) = e - 1)
    by (unfold fexp, emin, prec, emax; lia).
  rewrite He'.
  replace (e - -52 - (e - 1)) with 53 by lia.
  rewrite Z.shiftl_mul_pow2 by lia.
  assert (Hdiv : Z.div_eucl (Z.pos m * 2 ^ 53) 4503599627370496 = (Z.pos m~0, 0)).
  { pose proof (Z_div_mod (Z.pos m * 2 ^ 53) 4503599627370496 ltac:(lia)) as H.
    destruct (Z.div_eucl _ _) as [q r]. destruct H as [Hq Hr].
    change (2 ^ 53) with (2 * 4503599627370496) in Hq.
    assert (q = 2 * Z.pos m) by nia. assert (r = 0) by nia. subst. reflexivity. }
  rewrite Hdiv. change (new_location 4503599627370496 0) with loc_Exact.
  unfold binary_round_aux, shr_fexp.
  change (Zdigits2 (Z.pos m~0)) with (Z.pos (Pos.succ (digits2_pos m))).
  rewrite Pos2Z.inj_succ, Hd.
  assert (H1 : fexp prec emax (Z.succ 53 + (e - 1)) - (e - 1) = 1)
    by (unfold fexp, emin, prec, emax; lia).
  rewrite H1.
  cbn [shr shr_record_of_loc iter_pos shr_1 loc_of_shr_record shr_m round_nearest_even
       orb].
  change (Zdigits2 (Z.pos m)) with (Z.pos (digits2_pos m)). rewrite Hd.
  assert (H2 : fexp prec emax (53 + (e - 1 + 1)) - (e - 1 + 1) = 0)
    by (unfold fexp, emin, prec, emax; lia).
  rewrite H2. cbn [shr shr_record_of_loc shr_m].
  replace (e - 1 + 1) with e by lia. rewrite xorb_false_r.
  destruct (Z.leb_spec e (emax - prec)) as [|Hgt]; [reflexivity|].
  unfold emax, prec in Hgt. lia.
Qed.

Lemma float_truediv_one (z : Z) (f : float) :
  holds z f -> exists g, float_truediv f float_one = Ok g /\ holds z g.
Proof.
  intros H. unfold float_truediv. cbn [float_is_zero float_one].
  destruct f as [s| | |s m e]; try contradiction.
  - exists (S754_zero (xorb s false)). split; [reflexivity|exact H].
  - destruct H as (Hs & Hd & He & Hm). exists (S754_finite s m e).
    split; [|exact (conj Hs (conj Hd (conj He Hm)))].
    now rewrite SFdiv_one by assumption.
Qed.

Lemma py_int_holds (z : Z) (f : float) : holds z f -> py_int f = Ok z.
Proof.
  destruct f as [s| | |s m e]; cbn [py_int holds]; try contradiction.
  - now intros ->.
  - intros (-> & _ & He & Hm). f_equal.
    destruct (Z.leb_spec 0 e).
    + assert (e = 0) by lia. subst e. change (2 ^ (- 0)) with 1 in Hm.
      change (2 ^ 0) with 1. lia.
    + rewrite Hm. apply Z.div_mul. apply Z.pow_nonzero; lia.
Qed.

Lemma py_round_holds (z : Z) (f : float) : holds z f -> py_round f = Ok z.
Proof.
  destruct f as [s| | |s m e]; cbn [py_round holds]; try contradiction.
  - now intros ->.
  - intros (-> & _ & He & Hm). f_equal. cbv zeta.
    destruct (Z.leb_spec 0 e).
    + assert (e = 0) by lia. subst e. change (2 ^ (- 0)) with 1 in Hm.
      change (2 ^ 0) with 1. lia.
    + assert (Hp : 0 < 2 ^ (- e)) by (apply Z.pow_pos_nonneg; lia).
      rewrite Hm, Z.mod_mul, Z.div_mul by lia.
      destruct (Z.compare_spec (2 * 0) (2 ^ (- e))); lia.
Qed.

(** A quotient of floats of moderate size is a float, not an infinity. *)
Lemma float_truediv_finite (z : Z) (f g : float) :
  holds z f ->
  match g with
  | S754_finite _ m e => -100 <= e <= 100
  | _ => False
  end ->
  exists q, float_truediv f g = Ok q /\ finite_or_zero q.
Proof.
  intros Hf Hg. destruct g as [| | |s2 m2 e2]; try contradiction.
  unfold float_truediv. cbn [float_is_zero]. eexists. split; [reflexivity|].
  pose proof (holds_small z f Hf) as Hs.
  destruct f as [s| | |s m e]; try contradiction.
  - exact I.
  - apply SFdiv_finite; tauto.
Qed.

Lemma py_int_finite (q : float) : finite_or_zero q -> exists z, py_int q = Ok z.
Proof. destruct q; simpl; try contradiction; eauto. Qed.

Lemma int_truediv_finite (a b : Z) :
  Z.abs a < 2 ^ 53 -> b <> 0 ->
  exists q, int_truediv a b = Ok q /\ finite_or_zero q.
Proof.
  intros Ha Hb. unfold int_truediv.
  destruct (Z.eqb_spec b 0) as [|_]; [contradiction|].
  destruct a as [|p|p]; [eexists; split; [reflexivity|exact I]| |].
  all: match goal with
       | |- context [SFdiv prec emax ?x ?y] =>
           assert (F : finite_or_zero (SFdiv prec emax x y))
             by (apply SFdiv_finite; simpl in *; lia);
           destruct (SFdiv prec emax x y); try contradiction;
           eexists; split; try reflexivity; exact I
       end.
Qed.


Lemma float_mul_zero_r (q z : float) :
  finite_or_zero q -> float_is_zero z = true -> float_is_zero (float_mul q z) = true.
Proof.
  destruct q as [s| | |s m e]; try contradiction; intros _;
    destruct z as [t| | |t n f]; try discriminate; reflexivity.
Qed.

End FloatFacts.

Set Implicit Arguments.

(** ** More on [loadCam] and [camera_to_JSON] *)

Section CameraUtilsMore.
Import OsPath DatasetReaders Float64 CameraUtils Derived SpecModel Examples.
Open Scope string_scope.
Open Scope R_scope.

Lemma rounded_side_one (z : Z) :
  (0 <= z < 2 ^ 53)%Z -> rounded_side z float_one = Ok z.
Proof.
  intros Hz. unfold rounded_side.
  destruct (float_of_int_holds z Hz) as (f & -> & Hf). cbn [bind].
  destruct (float_truediv_one z f Hf) as (g & -> & Hg). cbn [bind].
  now apply (py_round_holds z).
Qed.

Lemma truncated_side_one (z : Z) :
  (0 <= z < 2 ^ 53)%Z -> truncated_side z float_one = Ok z.
Proof.
  intros Hz. unfold truncated_side.
  destruct (float_of_int_holds z Hz) as (f & -> & Hf). cbn [bind].
  destruct (float_truediv_one z f Hf) as (g & -> & Hg). cbn [bind].
  now apply (py_int_holds z).
Qed.

(** A side of at most 53 bits divided by a float of moderate exponent
    truncates to an integer: the quotient is no infinity. *)
Lemma truncated_side_returns (z : Z) (scale : float) :
  (0 <= z < 2 ^ 53)%Z ->
  match scale with
  | S754_finite _ _ e => (-100 <= e <= 100)%Z
  | _ => False
  end ->
  exists r, truncated_side z scale = Ok r.
Proof.
  intros Hz Hs. unfold truncated_side.
  destruct (float_of_int_holds z Hz) as (f & -> & Hf). cbn [bind].
  destruct (float_truediv_finite z f scale Hf Hs) as (q & -> & Hq). cbn [bind].
  now apply py_int_finite.
Qed.

Lemma range_forallb (f : Z -> bool) (n : nat) :
  forall a x, forallb f (range a n) = true ->
              (a <= x < a + Z.of_nat n)%Z -> f x = true.
Proof.
  induction n as [|n IH]; intros a x H Hx; [lia|].
  simpl in H. apply andb_true_iff in H. destruct H as [Ha Hrest].
  destruct (Z.eq_dec x a) as [->|Hne]; [exact Ha|].
  apply (IH (a + 1)%Z); [exact Hrest|lia].
Qed.

(** Every width from 1601 to 8000, by evaluation. *)
Lemma wide_widths_checked : forallb wide_width_ok (range 1601 (Z.to_nat 6400)) = true.
Proof. vm_compute. reflexivity. Qed.

(** X15. The resolution of the camera [loadCam] builds at
    [resolution_scale = 1.0], in float arithmetic, for an image whose sides
    are below [2^53]: with [resolution = 1], and with [resolution = -1] for
    an image at most 1600 pixels wide, it is the size of the image.  With
    [resolution = -1] for an image from 1601 to 8000 pixels wide a camera is
    built whose width is 1600 or 1599: the quotient
    [orig_w / (orig_w / 1600)] can fall just below 1600, and [int]
    truncates it. *)
Theorem loadCam_resolution (w : World) (args : ModelParams) (id : Z)
    (cam_info : CameraInfo) (p : Process) (orig_w orig_h : Z) :
  Image_open_size w (image_path cam_info) = Ok (orig_w, orig_h) ->
  (0 <= orig_w < 2 ^ 53)%Z -> (0 <= orig_h < 2 ^ 53)%Z ->
  (resolution args = 1%Z \/ (resolution args = (-1)%Z /\ (orig_w <= 1600)%Z) ->
   exists cam, fst (loadCam w args id cam_info float_one p) = Ok cam /\
               cam_resolution cam = (orig_w, orig_h)) /\
  (resolution args = (-1)%Z -> (1600 < orig_w <= 8000)%Z ->
   exists cam, fst (loadCam w args id cam_info float_one p) = Ok cam /\
               (fst (cam_resolution cam) = 1600%Z \/ fst (cam_resolution cam) = 1599%Z)).
Proof.
  intros Hsize Hw Hh. unfold loadCam. rewrite Hsize. unfold resolution_of. split.
  - intros [H1|[Hm Hle]].
    + rewrite H1. cbn [int_in existsb Z.eqb Pos.eqb orb].
      change (float_of_int 1) with (Ok float_one). cbn [bind].
      change (float_mul float_one float_one) with float_one.
      rewrite !rounded_side_one by assumption. cbn [bind fst].
      eexists. split; reflexivity.
    + rewrite (minus_one_not_listed Hm). unfold global_down_of. rewrite Hm.
      cbn [Z.eqb Pos.eqb].
      destruct (Z.ltb_spec 1600 orig_w); [lia|]. cbn [bind to_float].
      change (float_of_int 1) with (Ok float_one). cbn [bind].
      change (float_mul float_one float_one) with float_one.
      rewrite !truncated_side_one by assumption. cbn [bind fst].
      eexists. split; reflexivity.
  - intros Hm Hrange. rewrite (minus_one_not_listed Hm). unfold global_down_of.
    rewrite Hm. cbn [Z.eqb Pos.eqb].
    destruct (Z.ltb_spec 1600 orig_w); [|lia].
    pose proof (@range_forallb wide_width_ok (Z.to_nat 6400) 1601%Z orig_w
                  wide_widths_checked ltac:(lia)) as Hok.
    unfold wide_width_ok in Hok.
    destruct (int_truediv orig_w 1600) as [g|e]; [|discriminate].
    cbn [bind to_float].
    destruct (float_mul g float_one) as [| | |s m e] eqn:Hscale; try discriminate.
    apply andb_true_iff in Hok. destruct Hok as [He Hside].
    apply andb_true_iff in He. destruct He as [He1 He2].
    apply Z.leb_le in He1, He2.
    destruct (truncated_side orig_w (S754_finite s m e)) as [rw|e0]; [|discriminate].
    cbn [bind].
    destruct (@truncated_side_returns orig_h (S754_finite s m e) Hh (conj He1 He2))
      as [rh ->].
    cbn [bind fst]. eexists. split; [reflexivity|]. cbn [cam_resolution fst].
    destruct rw as [|r|r]; try discriminate.
    destruct (Pos.eq_dec r 1600) as [->|Hn1]; [now left|].
    destruct (Pos.eq_dec r 1599) as [->|Hn2]; [now right|].
    exfalso. revert Hside. clear -Hn1 Hn2.
    repeat (destruct r as [r|r|]; try discriminate; try congruence).
Qed.

(** X16. [loadCam] raises what opening the image raises, leaving the process
    state as it is.  With a readable image it raises [ZeroDivisionError]
    when [resolution] is [0], and, for an image less than [2^53] pixels
    wide, when [resolution_scale] is [0.0] or [-0.0]. *)
Theorem loadCam_errors (w : World) (args : ModelParams) (id : Z)
    (cam_info : CameraInfo) (resolution_scale : float) (p : Process) :
  (forall e, Image_open_size w (image_path cam_info) = Err e ->
             loadCam w args id cam_info resolution_scale p = (Err e, p)) /\
  (is_ok (Image_open_size w (image_path cam_info)) = true ->
   resolution args = 0%Z ->
   fst (loadCam w args id cam_info resolution_scale p) = Err ZeroDivisionError) /\
  (forall orig_w orig_h,
      Image_open_size w (image_path cam_info) = Ok (orig_w, orig_h) ->
      (0 <= orig_w < 2 ^ 53)%Z ->
      float_is_zero resolution_scale = true ->
      fst (loadCam w args id cam_info resolution_scale p) = Err ZeroDivisionError).
Proof.
  split; [|split].
  - intros e He. unfold loadCam. now rewrite He.
  - intros Hok Hz. unfold loadCam.
    destruct (Image_open_size w (image_path cam_info)) as [[ow oh]|e]; [|discriminate].
    unfold resolution_of, global_down_of. rewrite Hz. reflexivity.
  - intros ow oh Hsize Hw Hzero. unfold loadCam. rewrite Hsize.
    assert (Hside : forall scale, float_is_zero scale = true ->
                                  truncated_side ow scale = Err ZeroDivisionError).
    { intros scale Hs. unfold truncated_side.
      destruct (float_of_int_holds ow Hw) as (f & -> & _). cbn [bind].
      unfold float_truediv. now rewrite Hs. }
    unfold resolution_of.
    destruct (int_in (resolution args) [1; 2; 4; 8]%Z) eqn:Hin.
    + assert (Hdiv : exists r, float_of_int (resolution args) = Ok r /\
                               float_is_zero (float_mul resolution_scale r) = true).
      { unfold int_in in Hin. cbn [existsb] in Hin.
        repeat (apply orb_true_iff in Hin; destruct Hin as [Hin|Hin]);
          try discriminate; apply Z.eqb_eq in Hin; rewrite Hin;
          (eexists; split; [reflexivity|]);
          destruct resolution_scale; try discriminate; reflexivity. }
      destruct Hdiv as (r & -> & Hd). cbn [bind fst].
      unfold rounded_side at 1.
      destruct (float_of_int_holds ow Hw) as (f & -> & _). cbn [bind].
      unfold float_truediv. rewrite Hd. reflexivity.
    + unfold global_down_of.
      destruct (Z.eqb_spec (resolution args) (-1)) as [Hm|Hm].
      * destruct (1600 <? ow)%Z.
        -- destruct (int_truediv_finite ow 1600 ltac:(lia) ltac:(lia))
             as (q & -> & Hq).
           cbn [bind to_float fst].
           rewrite (Hside _ (float_mul_zero_r q resolution_scale Hq Hzero)).
           reflexivity.
        -- cbn [bind to_float fst].
           change (float_of_int 1) with (Ok float_one). cbn [bind].
           rewrite (Hside _ (float_mul_zero_r float_one resolution_scale I Hzero)).
           reflexivity.
      * destruct (Z.eq_dec (resolution args) 0) as [H0|H0];
          [rewrite H0; reflexivity|].
        destruct (int_truediv_finite ow (resolution args) ltac:(lia) H0)
          as (q & -> & Hq).
        cbn [bind to_float fst].
        rewrite (Hside _ (float_mul_zero_r q resolution_scale Hq Hzero)).
        reflexivity.
Qed.

Lemma run_calls_warnings (cs : list LoadCall) :
  forall p : Process,
    warnings (snd (run_calls cs p))
    = (warnings p + (if some_call_due cs && negb (WARNED p) then 1 else 0))%nat /\
    WARNED (snd (run_calls cs p)) = WARNED p || some_call_due cs.
Proof.
  induction cs as [|c rest IH]; intros p; simpl.
  - split; [lia|now rewrite orb_false_r].
  - pose proof (loadCam_warning (call_world c) (call_args c) (call_id c)
                  (call_cam_info c) (call_resolution_scale c) p) as [Hw Hf].
    unfold do_call. destruct (loadCam _ _ _ _ _ p) as [r p1]. simpl in Hw, Hf.
    specialize (IH p1). destruct (run_calls rest p1) as [rs p2]. simpl in *.
    destruct IH as [IHw IHf]. rewrite IHw, IHf, Hw, Hf.
    destruct (warning_due _ _ _), (some_call_due rest), (WARNED p); simpl;
      split; try reflexivity; lia.
Qed.

(** X17. Over a sequence of [loadCam] calls in a process that starts with
    [WARNED = False], the warning is printed exactly once when some call has
    [resolution = -1] and an image wider than 1600 pixels, and not at all
    otherwise; [WARNED] is set at the end exactly in the first case. *)
Theorem warning_printed_once_iff_due (cs : list LoadCall) :
  warnings (snd (run_calls cs initial)) = (if some_call_due cs then 1 else 0)%nat /\
  WARNED (snd (run_calls cs initial)) = some_call_due cs.
Proof.
  destruct (run_calls_warnings cs initial) as [Hw Hf]. rewrite Hw, Hf.
  simpl. rewrite andb_true_r. split; reflexivity.
Qed.

Lemma load_all_nth (w : World) (args : ModelParams) (resolution_scale : float)
    (cam_infos : list CameraInfo) :
  forall id p cams p',
    load_all w args resolution_scale id cam_infos p = (Ok cams, p') ->
    List.length cams = List.length cam_infos /\
    forall i cam, nth_error cams i = Some cam ->
      exists ci q, nth_error cam_infos i = Some ci /\
                   fst (loadCam w args (id + Z.of_nat i) ci resolution_scale q) = Ok cam.
Proof.
  induction cam_infos as [|c rest IH]; intros id p cams p' H; simpl in H.
  - injection H as <- <-. split; [reflexivity|]. intros [|i] cam Hc; discriminate.
  - destruct (loadCam w args id c resolution_scale p) as [[cam0|e] p1] eqn:H0;
      [|discriminate].
    destruct (load_all w args resolution_scale (id + 1) rest p1) as [[cams'|e] p2] eqn:Hr;
      [|discriminate].
    injection H as <- <-. destruct (IH _ _ _ _ Hr) as [Hlen Hnth].
    split; [simpl; now rewrite Hlen|].
    intros [|i] cam Hc; simpl in Hc.
    + injection Hc as <-. exists c, p. split; [reflexivity|].
      replace (id + Z.of_nat 0)%Z with id by lia. now rewrite H0.
    + destruct (Hnth i cam Hc) as (ci & q & Hci & Hq). exists ci, q.
      split; [exact Hci|].
      now replace (id + Z.of_nat (S i))%Z with (id + 1 + Z.of_nat i)%Z by lia.
Qed.

Lemma loadCam_fields (w : World) (args : ModelParams) (id : Z) (ci : CameraInfo)
    (resolution_scale : float) (q : Process) (cam : Camera) :
  fst (loadCam w args id ci resolution_scale q) = Ok cam ->
  cam_uid cam = id /\ colmap_id cam = uid ci /\
  cam_R cam = R_ ci /\ cam_T cam = T_ ci /\
  FoVx cam = FovX ci /\ FoVy cam = FovY ci /\
  cam_image_name cam = image_name ci /\ cam_image_path cam = image_path ci /\
  cam_data_device cam = data_device args.
Proof.
  unfold loadCam.
  destruct (Image_open_size w (image_path ci)) as [[ow oh]|e]; [|discriminate].
  destruct (resolution_of args ow oh resolution_scale q) as [[res|e] q']; simpl;
    [|discriminate].
  intros [= <-]. simpl. repeat split.
Qed.

(** X18. [cameraList_from_camInfos], when it returns, has built one camera
    per record, in order: the camera at position [i] has [uid = i] and
    carries the [uid] (as [colmap_id]), rotation, translation, fields of view
    and image name of the record at position [i], unchanged. *)
Theorem cameraList_keeps_order_and_pose (w : World) (cam_infos : list CameraInfo)
    (resolution_scale : float) (args : ModelParams) (p p' : Process) (cams : list Camera) :
  cameraList_from_camInfos w cam_infos resolution_scale args p = (Ok cams, p') ->
  List.length cams = List.length cam_infos /\
  forall i cam, nth_error cams i = Some cam ->
    exists ci, nth_error cam_infos i = Some ci /\
               cam_uid cam = Z.of_nat i /\ colmap_id cam = uid ci /\
               cam_R cam = R_ ci /\ cam_T cam = T_ ci /\
               FoVx cam = FovX ci /\ FoVy cam = FovY ci /\
               cam_image_name cam = image_name ci.
Proof.
  unfold cameraList_from_camInfos. intros H.
  destruct (load_all_nth _ _ _ _ _ _ H) as [Hlen Hnth]. split; [exact Hlen|].
  intros i cam Hc. destruct (Hnth i cam Hc) as (ci & q & Hci & Hq).
  exists ci. split; [exact Hci|].
  destruct (loadCam_fields _ _ _ _ _ _ Hq) as (H1 & H2 & H3 & H4 & H5 & H6 & H7 & _).
  simpl in H1. repeat split; assumption.
Qed.

Lemma det4_Rt_of (R : mat3) (T : vec3) : det4 (Rt_of R T) = det3 R.
Proof. destruct_arrays. unfold Rt_of. array_unfold. ring. Qed.

(** X19. [camera_to_JSON] raises [LinAlgError] exactly when the stored
    rotation is singular.  Otherwise the entry it returns has a rotation that
    is the inverse of the transposed stored rotation, and the position
    [-rotation . T]; its focal lengths come from the fields of view and the
    size of the record. *)
Theorem camera_to_JSON_inverts_pose {E : Externals} (id : Z) (camera : CameraInfo) :
  (det3 (R_ camera) = 0 -> camera_to_JSON id camera = Err LinAlgError) /\
  (det3 (R_ camera) <> 0 ->
   exists entry,
     camera_to_JSON id camera = Ok entry /\
     mmul3 (rotation entry) (transpose (R_ camera)) = I3 /\
     position entry = vneg (mvmul3 (rotation entry) (T_ camera)) /\
     fx entry = fov2focal (FovX camera) (width camera) /\
     fy entry = fov2focal (FovY camera) (height camera) /\
     entry_id entry = id /\ img_name entry = image_name camera).
Proof.
  unfold camera_to_JSON. split.
  - intros Hd. unfold inv. rewrite det4_Rt_of.
    destruct (Req_dec_T (det3 (R_ camera)) 0); [reflexivity|contradiction].
  - intros Hd.
    destruct (inv (Rt_of (R_ camera) (T_ camera))) as [W|e] eqn:Hi.
    + simpl. eexists. split; [reflexivity|]. simpl.
      apply inv_left in Hi. clear Hd.
      generalize dependent (T_ camera). generalize dependent (R_ camera).
      intros A t Hi. destruct_arrays.
      revert Hi. unfold Rt_of. array_unfold. intros Hi.
      injection Hi as H11 H12 H13 H14 H21 H22 H23 H24 H31 H32 H33 H34.
      repeat split; split_tuples; lra.
    + exfalso. unfold inv in Hi. rewrite det4_Rt_of in Hi.
      destruct (Req_dec_T (det3 (R_ camera)) 0); [contradiction|discriminate].
Qed.

End CameraUtilsMore.

(** ** The depth paths of the records *)

Section DepthPaths.
Import OsPath DatasetReaders CameraUtils Derived Examples.
Context {E : Externals}.
Open Scope string_scope.

(** The call of lines 347-363 binds: the free-capture loader runs the
    transforms adapter on [transforms_full.json], with the default
    [isOpenGL = False]. *)
Lemma toydesk_cam_infos_bound (w : World) (path : string) (images : option string)
    (white_background : bool) (extension : string) :
  toydesk_cam_infos w path images white_background extension
  = readCamerasFromTransforms w path
      (join path (match images with None => "images" | Some i => i end))
      "transforms_full.json"
      (optional_folder w (join path "depths"))
      (optional_folder w (join path "depths_est")) false extension.
Proof.
  unfold toydesk_cam_infos, call_readCamerasFromTransforms.
  destruct (optional_folder w (join path "depths")),
           (optional_folder w (join path "depths_est")); reflexivity.
Qed.

(** X20. The depth paths of the records a load reads follow the folders of
    the scene: a record has a depth path exactly when the folder exists,
    and the path is then [os.path.join(folder, image_name)], without a file
    extension.  A reconstruction load takes the camera depths from
    [depths_cam], a free-capture load from [depths]; both take the estimated
    depths from [depths_est]. *)
Theorem depth_paths_follow_folders :
  (forall (w : World) path images cams,
      colmap_cam_infos w path images = Ok cams ->
      Forall (fun c =>
                depth_cam_path c
                = (if path_exists w (join path "depths_cam")
                   then Some (join (join path "depths_cam") (image_name c)) else None) /\
                depth_est_path c
                = (if path_exists w (join path "depths_est")
                   then Some (join (join path "depths_est") (image_name c)) else None))
             cams) /\
  (forall (w : World) path images white_background extension cams,
      toydesk_cam_infos w path images white_background extension = Ok cams ->
      Forall (fun c =>
                depth_cam_path c
                = (if path_exists w (join path "depths")
                   then Some (join (join path "depths") (image_name c)) else None) /\
                depth_est_path c
                = (if path_exists w (join path "depths_est")
                   then Some (join (join path "depths_est") (image_name c)) else None))
             cams).
Proof.
  split.
  - intros w path images cams H. unfold colmap_cam_infos in H.
    destruct (read_colmap_stores w path) as [[ex intr]|e]; simpl in H; [|discriminate].
    match type of H with
    | bind ?m _ = _ => destruct m as [unsorted|e] eqn:Hr; simpl in H; [|discriminate]
    end.
    injection H as <-.
    eapply Permutation_Forall; [apply sorted_by_name_sorted|].
    unfold readColmapCameras in Hr. apply for_enumerate_ok in Hr.
    induction Hr as [|entry cam es cs [i Hi] _ IH]; constructor; [|exact IH].
    unfold readColmapCamera in Hi.
    destruct (zdict_get _ _) as [ci|e]; simpl in Hi; [|discriminate].
    destruct (colmap_fov ci) as [[fy fx]|e]; simpl in Hi; [|discriminate].
    destruct (colmap_image_path w _ _) as [ip|e]; simpl in Hi; [|discriminate].
    injection Hi as <-. simpl. unfold optional_folder.
    destruct (path_exists w (join path "depths_cam")),
             (path_exists w (join path "depths_est")); split; reflexivity.
  - intros w path images wb ext cams H. rewrite toydesk_cam_infos_bound in H.
    unfold readCamerasFromTransforms in H.
    destruct (json_load w _) as [contents|e]; simpl in H; [|discriminate].
    apply for_enumerate_ok in H.
    induction H as [|frame cam fs cs [i Hi] _ IH]; constructor; [|exact IH].
    unfold readCameraFromTransforms in Hi.
    destruct (transforms_cam_name w _ _ _) as [cn|e]; simpl in Hi; [|discriminate].
    destruct (frame_w2c false frame) as [m|e]; simpl in Hi; [|discriminate].
    destruct (Image_open_size w _) as [size|e]; simpl in Hi; [|discriminate].
    injection Hi as <-. simpl. unfold optional_folder.
    destruct (path_exists w (join path "depths")),
             (path_exists w (join path "depths_est")); split; reflexivity.
Qed.

End DepthPaths.

(** ** The further properties on the worked inputs *)

Section MoreWitnesses.
Import OsPath DatasetReaders Float64 CameraUtils Derived SpecModel Examples MoreExamples.
Open Scope string_scope.
Open Scope R_scope.

Existing Instance example_externals.



Lemma colmap_points_converted_on_miss_witness :
  colmap_point_cloud "/scene" fresh_world
  = (Ok (stored_cloud [(0, 0, 0); (1, 2, 3)] [(255, 0, 51); (0, 128, 255)]),
     write_file fresh_world (join "/scene" "sparse/points3D.ply")
       (FPly (stored_rows [(0, 0, 0); (1, 2, 3)] [(255, 0, 51); (0, 128, 255)]))).
Proof.
  refine (proj1 (@colmap_points_converted_on_miss example_externals "/scene" fresh_world
                   eq_refl) [(0, 0, 0); (1, 2, 3)] [(255, 0, 51); (0, 128, 255)] _ eq_refl).
  left. reflexivity.
Defined.

Lemma colmap_cameras_sorted_by_name_witness :
  exists scene,
    sceneLoadTypeCallbacks overlap_load colmap_world = (Ok scene, colmap_world) /\
    List.length (train_cameras scene) = 3%nat /\
    StronglySorted name_le (train_cameras scene) /\
    StronglySorted name_le (test_cameras scene).
Proof.
  destruct overlap_load_returns as (nrm & pcd & Hl).
  eexists. split; [exact Hl|]. split; [reflexivity|].
  exact (proj2 (@colmap_cameras_sorted_by_name example_externals)
           "/scene" None true (Some "overlap.yml") colmap_world colmap_world _ Hl).
Defined.

Lemma colmap_views_read :
  exists cams,
    readColmapCameras colmap_world colmap_views [(1%Z, pinhole)] "/scene/images"
      None None = Ok cams.
Proof. eexists. vm_compute. reflexivity. Qed.

Lemma colmap_records_of_views_witness :
  exists cams,
    readColmapCameras colmap_world colmap_views [(1%Z, pinhole)] "/scene/images"
      None None = Ok cams /\
    Forall2 (fun entry cam =>
               exists intr,
                 zassoc (camera_id (snd entry)) [(1%Z, pinhole)] = Some intr /\
                 uid cam = id intr /\
                 width cam = cam_width intr /\
                 height cam = cam_height intr /\
                 path_exists colmap_world (image_path cam) = true /\
                 image_name cam = split_head dot (basename (name (snd entry))) /\
                 has_char dot (image_name cam) = false /\
                 has_char slash (image_name cam) = false /\
                 depth_cam_path cam = depth_path None (image_name cam) /\
                 depth_est_path cam = depth_path None (image_name cam))
            colmap_views cams.
Proof.
  destruct colmap_views_read as (cams & Hc). exists cams. split; [exact Hc|].
  exact (@colmap_records_of_views example_externals colmap_world colmap_views
           [(1%Z, pinhole)] "/scene/images" None None cams Hc).
Defined.

Lemma transforms_records_in_manifest_order_witness :
  exists contents,
    json_load desk_world (join "/desk" "transforms_full.json") = Ok contents /\
    List.length [desk_cam_a; desk_cam_b] = List.length (frames contents) /\
    forall i cam,
      nth_error [desk_cam_a; desk_cam_b] i = Some cam ->
      exists frame cam_name,
        nth_error (frames contents) i = Some frame /\
        uid cam = Z.of_nat i /\
        transforms_cam_name desk_world "/desk/images" (file_path frame) ".jpg"
        = Ok cam_name /\
        path_exists desk_world cam_name = true /\
        image_path cam = join "/desk" cam_name /\
        image_name cam = stem cam_name /\
        Image_open_size desk_world (image_path cam) = Ok (width cam, height cam).
Proof.
  exact (@transforms_records_in_manifest_order example_externals desk_world "/desk"
           "/desk/images" "transforms_full.json" None None false ".jpg"
           [desk_cam_a; desk_cam_b] desk_adapter_returns).
Defined.

Lemma desk_load_without_evaluation :
  exists nrm pcd,
    readToyDeskSceneInfo "/desk" None false false ".jpg" None desk_world
    = (Ok {| point_cloud := pcd;
             train_cameras := [desk_cam_a; desk_cam_b];
             test_cameras := [];
             nerf_normalization := nrm;
             ply_path := "/desk/points3d.ply" |}, desk_world).
Proof.
  destruct desk_norm_all as (nrm & Hall & _).
  assert (Hbox : exists r c, cam_centers_box [desk_cam_a; desk_cam_b] = Ok (r, c))
    by (eexists; eexists; reflexivity).
  destruct Hbox as (r & c & Hbox).
  assert (Hply : exists pcd, fetchPly desk_world (join "/desk" "points3d.ply") = Ok pcd)
    by (eexists; reflexivity).
  destruct Hply as (pcd & Hply).
  exists nrm, pcd.
  exact (readToyDeskSceneInfo_returns "/desk" None false false ".jpg" None desk_world
           desk_cam_infos Hall Hbox eq_refl Hply eq_refl).
Qed.

Lemma evaluation_off_trains_on_every_camera_witness :
  exists scene,
    readToyDeskSceneInfo "/desk" None false false ".jpg" None desk_world
    = (Ok scene, desk_world) /\
    toydesk_cam_infos desk_world "/desk" None false ".jpg" = Ok (train_cameras scene) /\
    test_cameras scene = [].
Proof.
  destruct desk_load_without_evaluation as (nrm & pcd & Hl).
  eexists. split; [exact Hl|].
  exact (proj2 (proj2 (proj2 (@evaluation_off_trains_on_every_camera example_externals)))
           "/desk" None false ".jpg" None desk_world desk_world _ Hl).
Defined.

Lemma missing_split_file_aborts_witness :
  readColmapSceneInfo "/scene" None true (Some "nosplit.yml") colmap_world
  = (Err (FileNotFoundError ("Split file not found at " ++ join "/scene" "nosplit.yml")),
     colmap_world).
Proof.
  exact (proj1 (@missing_split_file_aborts example_externals)
           "/scene" None "nosplit.yml" colmap_world _ colmap_cams_sorted eq_refl).
Defined.

Lemma unlisted_cams :
  colmap_cam_infos unlisted_world "/scene" None
  = Ok [colmap_cam "a" "/scene/images/a.jpg" (0, 0, 0);
        colmap_cam "b" "/scene/images/b.png" (2, 0, 0);
        colmap_cam "c" "/scene/images/c.jpg" (0, 0, 1)].
Proof. vm_compute. reflexivity. Qed.

Lemma empty_training_set_aborts_witness :
  readColmapSceneInfo "/scene" None true (Some "none.yml") unlisted_world
  = (Err ValueError, unlisted_world).
Proof.
  refine (proj1 (@empty_training_set_aborts example_externals)
            "/scene" None "none.yml" unlisted_world _
            [("train", ["z"]); ("test", ["a"])] ["z"] ["a"]
            unlisted_cams eq_refl eq_refl eq_refl _).
  intros c [<-|[<-|[<-|[]]]] [H|[]]; discriminate.
Defined.

Lemma normalization_ignores_camera_order_witness :
  getNerfppNorm [desk_cam_a; desk_cam_b] = getNerfppNorm [desk_cam_b; desk_cam_a].
Proof.
  exact (@normalization_ignores_camera_order example_externals
           [desk_cam_a; desk_cam_b] [desk_cam_b; desk_cam_a] (perm_swap _ _ _)).
Defined.

Lemma normalization_sphere_contains_cameras_witness :
  exists nrm,
    getNerfppNorm [desk_cam_a; desk_cam_b] = Ok nrm /\
    0 <= radius nrm /\
    exists ps, cam_centers_of [desk_cam_a; desk_cam_b] = Ok ps /\
               List.length ps = 2%nat /\
               forall p, In p ps -> distance p (vneg (translate nrm)) <= radius nrm.
Proof.
  destruct desk_norm_all as (nrm & Hall & _). exists nrm. split; [exact Hall|].
  exact (proj1 (@normalization_sphere_contains_cameras example_externals)
           [desk_cam_a; desk_cam_b] nrm Hall).
Defined.

Lemma camera_box_contains_translations_witness :
  exists r c,
    cam_centers_box [desk_cam_a; desk_cam_b] = Ok (r, c) /\
    0 <= r /\ forall cam, In cam [desk_cam_a; desk_cam_b] -> in_cube c r (T_ cam).
Proof.
  eexists. eexists. split; [reflexivity|].
  exact (proj1 camera_box_contains_translations
           [desk_cam_a; desk_cam_b] _ _ eq_refl).
Defined.

Lemma example_draws_in_unit_cube (k : N) (n : Z) : Forall in_unit_cube (np_random k n).
Proof.
  change (np_random k n) with (repeat (0.5, 0.5, 0.5) (Z.to_nat n)).
  apply Forall_forall. intros p Hp. apply repeat_spec in Hp. subst p.
  intros i Hi. destruct i as [|[|[|i]]]; simpl; try lia; lra.
Qed.

Lemma example_colours_fit (k : N) (n : Z) :
  Forall fits_byte
    (map (fun s : vec3 =>
            let '(x, y, z) := s in
            let '(red, green, blue) := SH2RGB (x / 255.0, y / 255.0, z / 255.0) in
            (red * 255, green * 255, blue * 255)) (np_random k n)).
Proof.
  change (np_random k n) with (repeat (0.5, 0.5, 0.5) (Z.to_nat n)).
  apply Forall_forall. intros c Hc. apply in_map_iff in Hc.
  destruct Hc as (s & <- & Hs). apply repeat_spec in Hs. subst s.
  cbv [SH2RGB example_externals mk3 get3].
  intros i Hi. destruct i as [|[|[|i]]]; cbv [get3]; try lia; lra.
Qed.

Lemma toydesk_points_generated_in_box_witness :
  exists xyz rgb,
    toydesk_point_cloud "/desk/points3d.ply" 1 (0, 0, 0) fresh_world
    = (Ok (stored_cloud xyz rgb),
       {| fs := fs (write_file fresh_world "/desk/points3d.ply"
                      (FPly (stored_rows xyz rgb)));
          rng := (rng fresh_world + 1 + 1)%N |}) /\
    List.length xyz = Z.to_nat 360000 /\
    (forall p, In p xyz ->
               p = ((0.5 - 0.5) * 4 * 1 + 0, (0.5 - 0.5) * 4 * 1 + 0,
                    (0.5 - 0.5) * 4 * 1 + 0)) /\
    Forall (in_cube (0, 0, 0) (2 * 1)) xyz.
Proof.
  pose proof (@toydesk_points_generated_in_box example_externals "/desk/points3d.ply" 1
                (0, 0, 0) fresh_world eq_refl eq_refl (example_colours_fit _ _))
    as [Hload Hbox].
  eexists. eexists. split; [exact Hload|]. split; [|split].
  - rewrite length_map. apply repeat_length.
  - intros p Hp. apply in_map_iff in Hp. destruct Hp as (q & <- & Hq).
    apply repeat_spec in Hq. subst q. reflexivity.
  - apply Hbox; [lra|apply example_draws_in_unit_cube].
Defined.

Lemma opengl_flip_negates_pose_witness :
  frame_w2c true {| file_path := "./train/r_0"; transform_matrix := I4 |}
  = Ok (negate_rows_1_2 I4) /\
  transpose (block33 (negate_rows_1_2 I4)) = negate_cols_1_2 (transpose (block33 I4)) /\
  col3 (negate_rows_1_2 I4) = negate_comps_1_2 (col3 I4).
Proof.
  exact (proj2 opengl_flip_negates_pose
           {| file_path := "./train/r_0"; transform_matrix := I4 |} I4
           eq_refl eq_refl inv_I4).
Defined.

(** An image of 800 by 800 pixels keeps its size; the image of 3200 by 2000
    pixels is scaled to 1600 by 1000; the image of 1601 by 1200 pixels
    comes out 1599 pixels wide. *)
Lemma loadCam_resolution_witness :
  (exists cam,
      fst (loadCam desk_world default_args 0 desk_cam_a float_one initial) = Ok cam /\
      cam_resolution cam = (800, 800)%Z) /\
  (exists cam,
      fst (loadCam wide_world default_args 0 wide_cam float_one initial) = Ok cam /\
      (fst (cam_resolution cam) = 1600%Z \/ fst (cam_resolution cam) = 1599%Z) /\
      cam_resolution cam = (1600, 1000)%Z) /\
  (exists cam,
      fst (loadCam wide_world default_args 1 narrow_cam float_one initial) = Ok cam /\
      (fst (cam_resolution cam) = 1600%Z \/ fst (cam_resolution cam) = 1599%Z) /\
      cam_resolution cam = (1599, 1199)%Z).
Proof.
  split; [|split].
  - refine (proj1 (@loadCam_resolution desk_world default_args 0%Z desk_cam_a initial
                     800%Z 800%Z eq_refl _ _) _); try lia.
    right. split; [reflexivity|lia].
  - destruct (proj2 (@loadCam_resolution wide_world default_args 0%Z wide_cam initial
                       3200%Z 2000%Z eq_refl ltac:(lia) ltac:(lia)) eq_refl ltac:(lia))
      as (cam & Hc & Hres).
    exists cam. split; [exact Hc|]. split; [exact Hres|].
    revert Hc. clear. vm_compute. intros [= <-]. reflexivity.
  - destruct (proj2 (@loadCam_resolution wide_world default_args 1%Z narrow_cam initial
                       1601%Z 1200%Z eq_refl ltac:(lia) ltac:(lia)) eq_refl ltac:(lia))
      as (cam & Hc & Hres).
    exists cam. split; [exact Hc|]. split; [exact Hres|].
    revert Hc. clear. vm_compute. intros [= <-]. reflexivity.
Defined.

Lemma loadCam_errors_witness :
  loadCam wide_world default_args 0 desk_cam_a float_one initial
  = (Err (FileNotFoundError "/desk/images/a.jpg"), initial) /\
  fst (loadCam wide_world zero_args 0 wide_cam float_one initial)
  = Err ZeroDivisionError /\
  fst (loadCam wide_world default_args 0 wide_cam (S754_zero false) initial)
  = Err ZeroDivisionError /\
  fst (loadCam wide_world full_args 0 narrow_cam (S754_zero true) initial)
  = Err ZeroDivisionError.
Proof.
  split; [|split; [|split]].
  - exact (proj1 (@loadCam_errors wide_world default_args 0%Z desk_cam_a float_one
                    initial) _ eq_refl).
  - exact (proj1 (proj2 (@loadCam_errors wide_world zero_args 0%Z wide_cam float_one
                           initial)) eq_refl eq_refl).
  - refine (proj2 (proj2 (@loadCam_errors wide_world default_args 0%Z wide_cam
                            (S754_zero false) initial)) 3200%Z 2000%Z eq_refl _ eq_refl).
    lia.
  - refine (proj2 (proj2 (@loadCam_errors wide_world full_args 0%Z narrow_cam
                            (S754_zero true) initial)) 1601%Z 1200%Z eq_refl _ eq_refl).
    lia.
Defined.

Lemma wide_cameras_load :
  exists cams p',
    cameraList_from_camInfos wide_world [wide_cam; narrow_cam] float_one full_args initial
    = (Ok cams, p') /\
    map cam_resolution cams = [(3200, 2000); (1601, 1200)]%Z.
Proof. eexists. eexists. split; vm_compute; reflexivity. Qed.

(** Two records with different poses, loaded in order. *)
Lemma cameraList_keeps_order_and_pose_witness :
  exists cams p',
    cameraList_from_camInfos wide_world [wide_cam; narrow_cam] float_one full_args initial
    = (Ok cams, p') /\
    List.length cams = 2%nat /\
    forall i cam, nth_error cams i = Some cam ->
      exists ci, nth_error [wide_cam; narrow_cam] i = Some ci /\
                 cam_uid cam = Z.of_nat i /\ colmap_id cam = uid ci /\
                 cam_R cam = R_ ci /\ cam_T cam = T_ ci /\
                 FoVx cam = FovX ci /\ FoVy cam = FovY ci /\
                 cam_image_name cam = image_name ci.
Proof.
  destruct wide_cameras_load as (cams & p' & H & _). exists cams, p'.
  split; [exact H|].
  exact (@cameraList_keeps_order_and_pose wide_world [wide_cam; narrow_cam] float_one
           full_args initial p' cams H).
Defined.

Lemma camera_to_JSON_inverts_pose_witness :
  exists entry,
    camera_to_JSON 0 turned_cam = Ok entry /\
    mmul3 (rotation entry) (transpose (R_ turned_cam)) = I3 /\
    position entry = vneg (mvmul3 (rotation entry) (T_ turned_cam)) /\
    fx entry = fov2focal (FovX turned_cam) (width turned_cam) /\
    fy entry = fov2focal (FovY turned_cam) (height turned_cam) /\
    entry_id entry = 0%Z /\ img_name entry = image_name turned_cam.
Proof.
  refine (proj2 (@camera_to_JSON_inverts_pose example_externals 0%Z turned_cam) _).
  unfold turned_cam. simpl. array_unfold. lra.
Defined.

Lemma depth_cams_read :
  exists cams, colmap_cam_infos depth_world "/scene" None = Ok cams /\
               List.length cams = 3%nat.
Proof. eexists. split; vm_compute; reflexivity. Qed.

Lemma depth_paths_follow_folders_witness :
  exists cams,
    colmap_cam_infos depth_world "/scene" None = Ok cams /\
    List.length cams = 3%nat /\
    Forall (fun c =>
              depth_cam_path c
              = (if path_exists depth_world (join "/scene" "depths_cam")
                 then Some (join (join "/scene" "depths_cam") (image_name c)) else None) /\
              depth_est_path c
              = (if path_exists depth_world (join "/scene" "depths_est")
                 then Some (join (join "/scene" "depths_est") (image_name c)) else None))
           cams.
Proof.
  destruct depth_cams_read as (cams & Hc & Hlen). exists cams.
  split; [exact Hc|]. split; [exact Hlen|].
  exact (proj1 (@depth_paths_follow_folders example_externals)
           depth_world "/scene" None cams Hc).
Defined.

End MoreWitnesses.
